(** * bricks.core.dispatch: Task, Worker and Dispatcher

    A shallow embedding of [src/bricks/core/dispatch.py].  Python objects
    live in heaps addressed by references, the Dispatcher's attributes are
    fields of the world record, and every method is a function in a small
    state-and-exception monad whose outcomes are: the call returns, the call
    raises, or the calling thread is suspended on a semaphore or an event.

    Granularity.  A method body runs without interleaving up to the point
    where it returns, raises or suspends; a Worker thread's [run] is cut
    where the thread can be suspended (the wait for the pause event, the
    wait inside the dequeue, the wait for an async handle) and before the
    call of the task's callable.  A thread that is suspended in a wait goes
    on only when the wait is over, and an exception set on it from another
    thread is raised only then. *)

From stdpp Require Import base gmap strings list fin_maps pretty.
From Stdlib Require Import ZArith Lia.

Local Set Warnings "-register-all".

(** ** Python values *)

Inductive pyval : Type :=
| VNone
| VBool (b : bool)
| VInt (n : Z)
| VStr (s : string)
| VList (xs : list pyval)
| VTuple (xs : list pyval)
| VDict (kvs : list (string * pyval))
| VFunc (f : nat)        (* an ordinary callable *)
| VCoroFunc (f : nat)    (* a coroutine function: asyncio.iscoroutinefunction *)
| VObject (o : nat).     (* any other object: not callable, not a list, tuple or dict *)

(** [bool(v)] *)
Definition truthy (v : pyval) : bool :=
  match v with
  | VNone => false
  | VBool b => b
  | VInt n => negb (n =? 0)%Z
  | VStr s => negb (String.length s =? 0)%nat
  | VList xs | VTuple xs => negb (length xs =? 0)%nat
  | VDict kvs => negb (length kvs =? 0)%nat
  | VFunc _ | VCoroFunc _ | VObject _ => true
  end.

(** [a or b] *)
Definition py_or (a b : pyval) : pyval := if truthy a then a else b.

(** [isinstance(v, (list, tuple))] *)
Definition is_list_or_tuple (v : pyval) : bool :=
  match v with VList _ | VTuple _ => true | _ => false end.

(** [isinstance(v, dict)] *)
Definition is_dict (v : pyval) : bool :=
  match v with VDict _ => true | _ => false end.

(** [asyncio.iscoroutinefunction(v)] *)
Definition iscoroutinefunction (v : pyval) : bool :=
  match v with VCoroFunc _ => true | _ => false end.

(** ** Exceptions *)

Inductive exn : Type :=
| KeyboardInterrupt
| SystemExit
| OtherBaseException (n : nat)   (* a BaseException outside Exception, e.g. GeneratorExit *)
| AttributeError
| AssertionError (msg : string)
| TypeError
| ValueError (msg : string)
| SystemError (msg : string)
| RuntimeError (msg : string)
| ReferenceError
| InvalidStateError
| CancelledError
| QueueEmpty
| UserException (n : nat).       (* an Exception raised by user code *)

(** The classes named by [except (KeyboardInterrupt, SystemExit)]. *)
Definition is_exit_signal (e : exn) : bool :=
  match e with KeyboardInterrupt | SystemExit => true | _ => false end.

(** [isinstance(e, Exception)] *)
Definition is_Exception (e : exn) : bool :=
  match e with
  | KeyboardInterrupt | SystemExit | OtherBaseException _ => false
  | _ => true
  end.

Inductive result (A : Type) : Type :=
| Ok (a : A)
| Err (e : exn).
Arguments Ok {A} a.
Arguments Err {A} e.

(** ** References *)

Definition tref := nat.   (* a Task object *)
Definition wref := nat.   (* a Worker object *)

(** ** concurrent.futures.Future *)

Inductive fstate : Type :=
| PENDING | RUNNING | CANCELLED | CANCELLED_AND_NOTIFIED | FINISHED.

(** [self._state in [CANCELLED, CANCELLED_AND_NOTIFIED, FINISHED]] *)
Definition is_terminal (s : fstate) : bool :=
  match s with
  | CANCELLED | CANCELLED_AND_NOTIFIED | FINISHED => true
  | PENDING | RUNNING => false
  end.

(** An entry of [_done_callbacks]: a value handed in by the user, or the
    closure [lambda x: self._semaphore.release()] of [submit_task]. *)
Inductive hook : Type :=
| UserHook (fn : pyval)
| ReleasePermit.

Record Future : Type := mkFuture {
  _state : fstate;
  _result : pyval;
  _exception : option exn;
  _done_callbacks : list hook
}.

(** [Future.__init__] *)
Definition Future_init : Future :=
  {| _state := PENDING; _result := VNone; _exception := None;
     _done_callbacks := [] |}.

(** The handle returned by [asyncio.run_coroutine_threadsafe]: not yet
    completed, cancelled, completed with the outcome of the coroutine, or
    left behind by a coroutine that raised a process-exit signal: the signal
    leaves the thread of the loop and the handle is not completed. *)
Inductive handle_state : Type := HPending | HCancelled | HFinished | HStranded.

(** ** Task *)

Record Task : Type := mkTask {
  func : pyval;
  args : pyval;
  kwargs : pyval;
  callback : pyval;
  dispatcher : bool;              (* [None] or the Dispatcher *)
  worker : option wref;
  future : option handle_state;
  base : option Future            (* [None] until [Future.__init__] has run *)
}.

(** ** Worker *)

(** Where a Worker thread stands inside [run]. *)
Inductive position : Type :=
| AtLoopHead              (* about to test the loop condition *)
| Holding (t : tref)      (* dequeued, about to call the callable *)
| Awaiting (t : tref)     (* suspended inside [future.result()] *)
| Paused                  (* suspended inside [self._awaken.wait()] of [run] *)
| Polling                 (* suspended inside [tasks.get(timeout=5)] *)
| HeldBack (p : position).
                          (* tracing: suspended inside [self._awaken.wait()]
                             of [_localtrace], to go on from [p] *)

Record Worker : Type := mkWorker {
  name : string;
  w_shutdown : bool;       (* [Worker._shutdown] *)
  w_trace : bool;          (* [Worker.trace] *)
  _awaken : bool;
  alive : bool;            (* [Thread.is_alive()] *)
  pending_exit : bool;     (* a SystemExit set by PyThreadState_SetAsyncExc *)
  at_ : position;
  waited : Z               (* length of the last dequeue wait that found nothing *)
}.

(** ** The event loop owned by the Dispatcher *)

(** Callbacks queued with [call_soon_threadsafe]. *)
Inductive handle : Type := ShutdownSet.

Record Loop : Type := mkLoop {
  ready : list handle;
  loop_running : bool;     (* inside [run_until_complete] *)
  loop_closed : bool;
  main_waiting : bool      (* [main] suspended in [await self._shutdown.wait()] *)
}.

(** ** The external event bus *)

(** Modelled from the spec: [context.Error] and [events.Event.invoke] are
    imported from modules that are not part of the sources at hand; the
    notification is the record built by [Worker.run] and invoking it
    appends it to the bus. *)
Record ErrorEvent : Type := mkError {
  error : exn;
  form : string
}.

(** [const.ERROR_OCCURRED] *)
Definition ERROR_OCCURRED : string := "ERROR_OCCURRED".

(** Attribute assignments on a Task and on a Worker. *)

Definition Task_set_dispatcher (x : bool) (t : Task) : Task :=
  {| func := func t; args := args t; kwargs := kwargs t; callback :=
     callback t; dispatcher := x; worker := worker t; future := future t;
     base := base t |}.

Definition Task_set_worker (x : option wref) (t : Task) : Task :=
  {| func := func t; args := args t; kwargs := kwargs t; callback :=
     callback t; dispatcher := dispatcher t; worker := x; future := future
     t; base := base t |}.

Definition Task_set_future (x : option handle_state) (t : Task) : Task :=
  {| func := func t; args := args t; kwargs := kwargs t; callback :=
     callback t; dispatcher := dispatcher t; worker := worker t; future :=
     x; base := base t |}.

Definition Task_set_base (x : option Future) (t : Task) : Task :=
  {| func := func t; args := args t; kwargs := kwargs t; callback :=
     callback t; dispatcher := dispatcher t; worker := worker t; future :=
     future t; base := x |}.

Definition Worker_set_w_shutdown (x : bool) (k : Worker) : Worker :=
  {| name := name k; w_shutdown := x; w_trace := w_trace k; _awaken :=
     _awaken k; alive := alive k; pending_exit := pending_exit k; at_ := at_ k; waited := waited k |}.

Definition Worker_set_awaken (x : bool) (k : Worker) : Worker :=
  {| name := name k; w_shutdown := w_shutdown k; w_trace := w_trace k;
     _awaken := x; alive := alive k; pending_exit := pending_exit k; at_ :=
     at_ k; waited := waited k |}.

Definition Worker_set_alive (x : bool) (k : Worker) : Worker :=
  {| name := name k; w_shutdown := w_shutdown k; w_trace := w_trace k;
     _awaken := _awaken k; alive := x; pending_exit := pending_exit k; at_
     := at_ k; waited := waited k |}.

Definition Worker_set_pending_exit (x : bool) (k : Worker) : Worker :=
  {| name := name k; w_shutdown := w_shutdown k; w_trace := w_trace k;
     _awaken := _awaken k; alive := alive k; pending_exit := x; at_ := at_ k; waited := waited k |}.

Definition Worker_set_at_ (x : position) (k : Worker) : Worker :=
  {| name := name k; w_shutdown := w_shutdown k; w_trace := w_trace k;
     _awaken := _awaken k; alive := alive k; pending_exit := pending_exit k;
     at_ := x; waited := waited k |}.

Definition Worker_set_waited (x : Z) (k : Worker) : Worker :=
  {| name := name k; w_shutdown := w_shutdown k; w_trace := w_trace k;
     _awaken := _awaken k; alive := alive k; pending_exit := pending_exit k;
     at_ := at_ k; waited := x |}.

(** ** The world: one Dispatcher, the objects it refers to, and what it
    has emitted *)

Record World : Type := mkWorld {
  max_workers : Z;   (* [Dispatcher.max_workers] *)
  trace : bool;   (* [Dispatcher.trace] *)
  tasks : list tref;   (* [Dispatcher.tasks.queue], head first *)
  not_full_notified : nat;   (* calls of [tasks.not_full.notify()] *)
  workers : gmap string wref;   (* [Dispatcher.workers] *)
  _remain_workers : Z;   (* value of the slot semaphore *)
  _semaphore : Z;   (* value of the permit semaphore *)
  _shutdown : bool;   (* [asyncio.Event] *)
  _running : bool;   (* [threading.Event] *)
  _counter : nat;   (* next value of [itertools.count()] *)
  loop : Loop;   (* the event loop *)
  started : bool;   (* [Thread.start] was called on the Dispatcher *)
  task_heap : gmap tref Task;   (* the Task objects *)
  next_task : tref;   (* next free Task reference *)
  worker_heap : gmap wref Worker;   (* the Worker objects *)
  event_bus : list ErrorEvent;   (* notifications emitted so far *)
  callback_log : list (pyval * tref)   (* calls [fn(task)] of user callbacks so far *)
}.

(** Field updates. *)

Definition set_tasks (x : list tref) (w : World) : World :=
  {| max_workers := max_workers w; trace := trace w; tasks := x;
     not_full_notified := not_full_notified w; workers := workers w;
     _remain_workers := _remain_workers w; _semaphore := _semaphore w;
     _shutdown := _shutdown w; _running := _running w; _counter := _counter
     w; loop := loop w; started := started w; task_heap := task_heap w;
     next_task := next_task w; worker_heap := worker_heap w; event_bus :=
     event_bus w; callback_log := callback_log w |}.

Definition set_not_full_notified (x : nat) (w : World) : World :=
  {| max_workers := max_workers w; trace := trace w; tasks := tasks w;
     not_full_notified := x; workers := workers w; _remain_workers :=
     _remain_workers w; _semaphore := _semaphore w; _shutdown := _shutdown
     w; _running := _running w; _counter := _counter w; loop := loop w;
     started := started w; task_heap := task_heap w; next_task := next_task
     w; worker_heap := worker_heap w; event_bus := event_bus w; callback_log
     := callback_log w |}.

Definition set_workers (x : gmap string wref) (w : World) : World :=
  {| max_workers := max_workers w; trace := trace w; tasks := tasks w;
     not_full_notified := not_full_notified w; workers := x; _remain_workers
     := _remain_workers w; _semaphore := _semaphore w; _shutdown :=
     _shutdown w; _running := _running w; _counter := _counter w; loop :=
     loop w; started := started w; task_heap := task_heap w; next_task :=
     next_task w; worker_heap := worker_heap w; event_bus := event_bus w;
     callback_log := callback_log w |}.

Definition set_remain_workers (x : Z) (w : World) : World :=
  {| max_workers := max_workers w; trace := trace w; tasks := tasks w;
     not_full_notified := not_full_notified w; workers := workers w;
     _remain_workers := x; _semaphore := _semaphore w; _shutdown :=
     _shutdown w; _running := _running w; _counter := _counter w; loop :=
     loop w; started := started w; task_heap := task_heap w; next_task :=
     next_task w; worker_heap := worker_heap w; event_bus := event_bus w;
     callback_log := callback_log w |}.

Definition set_semaphore (x : Z) (w : World) : World :=
  {| max_workers := max_workers w; trace := trace w; tasks := tasks w;
     not_full_notified := not_full_notified w; workers := workers w;
     _remain_workers := _remain_workers w; _semaphore := x; _shutdown :=
     _shutdown w; _running := _running w; _counter := _counter w; loop :=
     loop w; started := started w; task_heap := task_heap w; next_task :=
     next_task w; worker_heap := worker_heap w; event_bus := event_bus w;
     callback_log := callback_log w |}.

Definition set_shutdown (x : bool) (w : World) : World :=
  {| max_workers := max_workers w; trace := trace w; tasks := tasks w;
     not_full_notified := not_full_notified w; workers := workers w;
     _remain_workers := _remain_workers w; _semaphore := _semaphore w;
     _shutdown := x; _running := _running w; _counter := _counter w; loop :=
     loop w; started := started w; task_heap := task_heap w; next_task :=
     next_task w; worker_heap := worker_heap w; event_bus := event_bus w;
     callback_log := callback_log w |}.

Definition set_running (x : bool) (w : World) : World :=
  {| max_workers := max_workers w; trace := trace w; tasks := tasks w;
     not_full_notified := not_full_notified w; workers := workers w;
     _remain_workers := _remain_workers w; _semaphore := _semaphore w;
     _shutdown := _shutdown w; _running := x; _counter := _counter w; loop
     := loop w; started := started w; task_heap := task_heap w; next_task :=
     next_task w; worker_heap := worker_heap w; event_bus := event_bus w;
     callback_log := callback_log w |}.

Definition set_counter (x : nat) (w : World) : World :=
  {| max_workers := max_workers w; trace := trace w; tasks := tasks w;
     not_full_notified := not_full_notified w; workers := workers w;
     _remain_workers := _remain_workers w; _semaphore := _semaphore w;
     _shutdown := _shutdown w; _running := _running w; _counter := x; loop
     := loop w; started := started w; task_heap := task_heap w; next_task :=
     next_task w; worker_heap := worker_heap w; event_bus := event_bus w;
     callback_log := callback_log w |}.

Definition set_loop (x : Loop) (w : World) : World :=
  {| max_workers := max_workers w; trace := trace w; tasks := tasks w;
     not_full_notified := not_full_notified w; workers := workers w;
     _remain_workers := _remain_workers w; _semaphore := _semaphore w;
     _shutdown := _shutdown w; _running := _running w; _counter := _counter
     w; loop := x; started := started w; task_heap := task_heap w; next_task
     := next_task w; worker_heap := worker_heap w; event_bus := event_bus w;
     callback_log := callback_log w |}.

Definition set_started (x : bool) (w : World) : World :=
  {| max_workers := max_workers w; trace := trace w; tasks := tasks w;
     not_full_notified := not_full_notified w; workers := workers w;
     _remain_workers := _remain_workers w; _semaphore := _semaphore w;
     _shutdown := _shutdown w; _running := _running w; _counter := _counter
     w; loop := loop w; started := x; task_heap := task_heap w; next_task :=
     next_task w; worker_heap := worker_heap w; event_bus := event_bus w;
     callback_log := callback_log w |}.

Definition set_task_heap (x : gmap tref Task) (w : World) : World :=
  {| max_workers := max_workers w; trace := trace w; tasks := tasks w;
     not_full_notified := not_full_notified w; workers := workers w;
     _remain_workers := _remain_workers w; _semaphore := _semaphore w;
     _shutdown := _shutdown w; _running := _running w; _counter := _counter
     w; loop := loop w; started := started w; task_heap := x; next_task :=
     next_task w; worker_heap := worker_heap w; event_bus := event_bus w;
     callback_log := callback_log w |}.

Definition set_next_task (x : tref) (w : World) : World :=
  {| max_workers := max_workers w; trace := trace w; tasks := tasks w;
     not_full_notified := not_full_notified w; workers := workers w;
     _remain_workers := _remain_workers w; _semaphore := _semaphore w;
     _shutdown := _shutdown w; _running := _running w; _counter := _counter
     w; loop := loop w; started := started w; task_heap := task_heap w;
     next_task := x; worker_heap := worker_heap w; event_bus := event_bus w;
     callback_log := callback_log w |}.

Definition set_worker_heap (x : gmap wref Worker) (w : World) : World :=
  {| max_workers := max_workers w; trace := trace w; tasks := tasks w;
     not_full_notified := not_full_notified w; workers := workers w;
     _remain_workers := _remain_workers w; _semaphore := _semaphore w;
     _shutdown := _shutdown w; _running := _running w; _counter := _counter
     w; loop := loop w; started := started w; task_heap := task_heap w;
     next_task := next_task w; worker_heap := x; event_bus := event_bus w;
     callback_log := callback_log w |}.

Definition set_event_bus (x : list ErrorEvent) (w : World) : World :=
  {| max_workers := max_workers w; trace := trace w; tasks := tasks w;
     not_full_notified := not_full_notified w; workers := workers w;
     _remain_workers := _remain_workers w; _semaphore := _semaphore w;
     _shutdown := _shutdown w; _running := _running w; _counter := _counter
     w; loop := loop w; started := started w; task_heap := task_heap w;
     next_task := next_task w; worker_heap := worker_heap w; event_bus := x;
     callback_log := callback_log w |}.

Definition set_callback_log (x : list (pyval * tref)) (w : World) : World :=
  {| max_workers := max_workers w; trace := trace w; tasks := tasks w;
     not_full_notified := not_full_notified w; workers := workers w;
     _remain_workers := _remain_workers w; _semaphore := _semaphore w;
     _shutdown := _shutdown w; _running := _running w; _counter := _counter
     w; loop := loop w; started := started w; task_heap := task_heap w;
     next_task := next_task w; worker_heap := worker_heap w; event_bus :=
     event_bus w; callback_log := x |}.

(** ** Outcomes of a call and the method monad *)

Inductive outcome (A : Type) : Type :=
| Returns (a : A) (w : World)     (* the call returned [a] *)
| Raises (e : exn) (w : World)    (* the call raised [e] *)
| Blocks (w : World).             (* the calling thread is suspended *)
Arguments Returns {A} a w.
Arguments Raises {A} e w.
Arguments Blocks {A} w.

(** The world a call leaves behind, however it ended. *)
Definition world_of {A} (o : outcome A) : World :=
  match o with Returns _ w | Raises _ w | Blocks w => w end.

Definition M (A : Type) : Type := World → outcome A.

#[export] Instance M_ret : MRet M := λ A a w, Returns a w.

#[export] Instance M_bind : MBind M := λ A B k m w,
  match m w with
  | Returns a w' => k a w'
  | Raises e w' => Raises e w'
  | Blocks w' => Blocks w'
  end.

Definition raise {A} (e : exn) : M A := λ w, Raises e w.
Definition block {A} : M A := λ w, Blocks w.
Definition get : M World := λ w, Returns w w.
Definition modify (f : World → World) : M unit := λ w, Returns tt (f w).

(** [try: m except ...: h e] where [h] re-raises what it does not handle. *)
Definition try_except {A} (m : M A) (h : exn → M A) : M A := λ w,
  match m w with
  | Raises e w' => h e w'
  | o => o
  end.

(** [assert c, msg] *)
Definition assert (c : bool) (msg : string) : M unit :=
  if c then mret tt else raise (AssertionError msg).

(** [for x in xs: body x] *)
Fixpoint for_each {A} (xs : list A) (body : A → M unit) : M unit :=
  match xs with
  | [] => mret tt
  | x :: rest => body x ;; for_each rest body
  end.

(** [for _ in range(n): body] *)
Fixpoint for_range (n : nat) (body : M unit) : M unit :=
  match n with
  | O => mret tt
  | S k => body ;; for_range k body
  end.

(** Another thread runs [m] up to the point where it returns, dies of an
    exception or suspends; the caller goes on. *)
Definition in_thread {A} (m : M A) : M unit := λ w, Returns tt (world_of (m w)).

(** ** Heaps *)

Definition get_task (t : tref) : M Task := λ w,
  match task_heap w !! t with
  | Some x => Returns x w
  | None => Raises ReferenceError w
  end.

Definition put_task (t : tref) (x : Task) : M unit :=
  modify (λ w, set_task_heap (<[t:=x]> (task_heap w)) w).

Definition get_worker (k : wref) : M Worker := λ w,
  match worker_heap w !! k with
  | Some x => Returns x w
  | None => Raises ReferenceError w
  end.

Definition put_worker (k : wref) (x : Worker) : M unit :=
  modify (λ w, set_worker_heap (<[k:=x]> (worker_heap w)) w).

(** ** threading.Semaphore *)

(** [acquire()]: take a unit, or wait for one. *)
Definition acquire (value : World → Z) (set : Z → World → World) : M unit := λ w,
  if (0 <? value w)%Z then Returns tt (set (value w - 1)%Z w) else Blocks w.

(** [release()]: the plain Semaphore has no upper bound. *)
Definition release (value : World → Z) (set : Z → World → World) : M unit :=
  modify (λ w, set (value w + 1)%Z w).

(** ** concurrent.futures.Future, as inherited by Task *)

(** The Future attributes of a Task; reading them before [Future.__init__]
    has run is an AttributeError. *)
Definition get_base (t : tref) : M Future :=
  x ← get_task t;
  match base x with
  | Some f => mret f
  | None => raise AttributeError
  end.

Definition put_base (t : tref) (f : Future) : M unit :=
  x ← get_task t; put_task t (Task_set_base (Some f) x).

(** [fn(task)] inside the [try ... except Exception: LOGGER.exception(...)]
    of [_invoke_callbacks] and [add_done_callback]: a callable is called (the
    call is logged; what a user callback does beyond that is outside the
    model), anything else is a TypeError that the logger swallows. *)
Definition call_hook (h : hook) (t : tref) : M unit :=
  match h with
  | ReleasePermit => release _semaphore set_semaphore
  | UserHook (VFunc f) =>
      modify (λ w, set_callback_log (callback_log w ++ [(VFunc f, t)]) w)
  | UserHook (VCoroFunc f) =>
      modify (λ w, set_callback_log (callback_log w ++ [(VCoroFunc f, t)]) w)
  | UserHook _ => mret tt
  end.

(** [Future._invoke_callbacks] *)
Definition _invoke_callbacks (t : tref) : M unit :=
  f ← get_base t;
  for_each (_done_callbacks f) (λ h, call_hook h t).

(** [Future.add_done_callback] *)
Definition add_done_callback (t : tref) (fn : hook) : M unit :=
  f ← get_base t;
  if negb (is_terminal (_state f)) then
    put_base t {| _state := _state f; _result := _result f;
                  _exception := _exception f;
                  _done_callbacks := _done_callbacks f ++ [fn] |}
  else call_hook fn t.

(** [Future.done] *)
Definition done (t : tref) : M bool :=
  f ← get_base t; mret (is_terminal (_state f)).

(** [Future.cancel] *)
Definition Future_cancel (t : tref) : M bool :=
  f ← get_base t;
  match _state f with
  | RUNNING | FINISHED => mret false
  | CANCELLED | CANCELLED_AND_NOTIFIED => mret true
  | PENDING =>
      put_base t {| _state := CANCELLED; _result := _result f;
                    _exception := _exception f;
                    _done_callbacks := _done_callbacks f |};;
      _invoke_callbacks t;;
      mret true
  end.

(** [Future.set_result] *)
Definition set_result (t : tref) (v : pyval) : M unit :=
  f ← get_base t;
  if is_terminal (_state f) then raise InvalidStateError
  else
    put_base t {| _state := FINISHED; _result := v;
                  _exception := _exception f;
                  _done_callbacks := _done_callbacks f |};;
    _invoke_callbacks t.

(** [Future.set_exception] *)
Definition set_exception (t : tref) (e : exn) : M unit :=
  f ← get_base t;
  if is_terminal (_state f) then raise InvalidStateError
  else
    put_base t {| _state := FINISHED; _result := _result f;
                  _exception := Some e;
                  _done_callbacks := _done_callbacks f |};;
    _invoke_callbacks t.

(** ** Task *)

(** [Task.__init__(func, args, kwargs, callback)], in the order of the
    source: the attributes, then [callback and self.add_done_callback(callback)],
    then [super().__init__()].  Returns the reference of the new object. *)
Definition Task_init (func args kwargs callback : pyval) : M tref :=
  w ← get;
  let t := next_task w in
  modify (set_next_task (S t));;
  put_task t {| func := func;
                args := py_or args (VList []);
                kwargs := py_or kwargs (VDict []);
                callback := callback;
                dispatcher := false;
                worker := None;
                future := None;
                base := None |};;
  (if truthy callback then add_done_callback t (UserHook callback) else mret tt);;
  put_base t Future_init;;
  mret t.

(** [Task.is_async] *)
Definition is_async (x : Task) : bool := iscoroutinefunction (func x).

(** ** Calling user code *)

(** [*v] at a call site. *)
Definition unpack_positional (v : pyval) : result (list pyval) :=
  match v with
  | VList xs | VTuple xs => Ok xs
  | VStr s => Ok ((λ c, VStr (String c EmptyString)) <$> String.list_ascii_of_string s)
  | VDict kvs => Ok ((λ kv, VStr kv.1) <$> kvs)
  | _ => Err TypeError
  end.

(** [**v] at a call site. *)
Definition unpack_keyword (v : pyval) : result (list (string * pyval)) :=
  match v with
  | VDict kvs => Ok kvs
  | _ => Err TypeError
  end.

Definition lift {A} (r : result A) : M A :=
  match r with Ok a => mret a | Err e => raise e end.

(** [events.Event.invoke(ev)] *)
Definition Event_invoke (ev : ErrorEvent) : M unit :=
  modify (λ w, set_event_bus (event_bus w ++ [ev]) w).

(** ** Worker.stop *)

(** [ctypes.pythonapi.PyThreadState_SetAsyncExc(tid, exc)]: sets (or, with
    NULL, clears) the asynchronous exception of the thread with that id and
    returns the number of thread states it modified. *)
Definition PyThreadState_SetAsyncExc (tid : wref) (exc : bool) : M Z := λ w,
  match worker_heap w !! tid with
  | Some k =>
      if alive k
      then Returns 1%Z (set_worker_heap (<[tid := Worker_set_pending_exit exc k]> (worker_heap w)) w)
      else Returns 0%Z w
  | None => Returns 0%Z w
  end.

(** A thread that is running raises the asynchronous exception set on it
    before it executes anything else; a thread that is suspended in a wait
    does so only once the wait is over.  [caller] is the Worker whose thread
    makes the call, [None] for any other thread. *)
Definition async_exc (caller : option wref) : M unit :=
  match caller with
  | Some c =>
      k ← get_worker c;
      if pending_exit k then raise SystemExit else mret tt
  | None => mret tt
  end.

(** [Worker.stop] called from the thread of [caller].  When a Worker stops
    itself, the SystemExit it has just set on its own thread is raised as
    soon as [PyThreadState_SetAsyncExc] returns, inside [stop]. *)
Definition Worker_stop_by (caller : option wref) (me : wref) : M unit :=
  k ← get_worker me;
  if negb (alive k) then mret tt
  else
    res ← PyThreadState_SetAsyncExc me true;
    async_exc caller;;
    if (res =? 0)%Z then raise (ValueError "nonexistent thread id")
    else if (1 <? res)%Z then
      PyThreadState_SetAsyncExc me false;;
      raise (SystemError "PyThreadState_SetAsyncExc failed")
    else
      k' ← get_worker me;
      put_worker me (Worker_set_w_shutdown true k').

(** [Worker.stop] called from a thread that is not a Worker's. *)
Definition Worker_stop (me : wref) : M unit := Worker_stop_by None me.

(** [Worker.pause] and [Worker.awake] *)
Definition Worker_pause (me : wref) : M unit :=
  k ← get_worker me; put_worker me (Worker_set_awaken false k).

Definition Worker_awake (me : wref) : M unit :=
  k ← get_worker me; put_worker me (Worker_set_awaken true k).

(** ** Dispatcher *)

(** The attributes that [Dispatcher.__init__] assigns. *)
Definition Dispatcher_fields (max_workers : Z) (trace : bool) : World :=
  {| max_workers := max_workers;
     trace := trace;
     tasks := [];
     not_full_notified := 0;
     workers := ∅;
     _remain_workers := max_workers;
     _semaphore := max_workers;
     _shutdown := false;
     _running := false;
     _counter := 0;
     loop := {| ready := []; loop_running := false;
                loop_closed := false; main_waiting := false |};
     started := false;
     task_heap := ∅;
     next_task := 0;
     worker_heap := ∅;
     event_bus := [];
     callback_log := [] |}.

(** [Dispatcher.__init__]: [threading.Semaphore(n)] refuses a negative [n]. *)
Definition Dispatcher_init (max_workers : Z) (trace : bool) : result World :=
  if (max_workers <? 0)%Z
  then Err (ValueError "semaphore initial value must be >= 0")
  else Ok (Dispatcher_fields max_workers trace).

(** [Dispatcher.is_running] *)
Definition is_running (w : World) : bool :=
  negb (_shutdown w) && _running w.

(** [Dispatcher.running] *)
Definition running (w : World) : Z :=
  (max_workers w - _remain_workers w + Z.of_nat (length (tasks w)))%Z.

(** [f"worker-{n}"] *)
Definition worker_name (n : nat) : string := "worker-" +:+ pretty n.

(** One round of the loop of [create_worker]: build the Worker, register
    it, start its thread, and only then take a slot. *)
Definition create_one_worker : M unit :=
  w ← get;
  let n := _counter w in
  modify (set_counter (S n));;
  put_worker n {| name := worker_name n; w_shutdown := false;
                  w_trace := trace w; _awaken := true; alive := false;
                  pending_exit := false; at_ := AtLoopHead; waited := 0 |};;
  modify (λ w, set_workers (<[worker_name n := n]> (workers w)) w);;
  k ← get_worker n; put_worker n (Worker_set_alive true k);;
  acquire _remain_workers set_remain_workers.

(** [Dispatcher.create_worker] *)
Definition create_worker (size : Z) : M unit :=
  for_range (Z.to_nat size) create_one_worker.

(** [Dispatcher.stop_worker] called from the thread of [caller]. *)
Definition stop_worker_by (caller : option wref) (idents : list string) : M unit :=
  for_each idents (λ ident,
    w ← get;
    let worker := workers w !! ident in
    modify (set_workers (delete ident (workers w)));;
    match worker with
    | Some k => release _remain_workers set_remain_workers;; Worker_stop_by caller k
    | None => mret tt
    end).

(** [Dispatcher.stop_worker] called from a thread that is not a Worker's. *)
Definition stop_worker (idents : list string) : M unit :=
  stop_worker_by None idents.

(** [Dispatcher.pause_worker] *)
Definition pause_worker (idents : list string) : M unit :=
  for_each idents (λ ident,
    w ← get;
    match workers w !! ident with
    | Some k => Worker_pause k
    | None => mret tt
    end).

(** [Dispatcher.awake_worker] *)
Definition awake_worker (idents : list string) : M unit :=
  for_each idents (λ ident,
    w ← get;
    match workers w !! ident with
    | Some k => Worker_awake k
    | None => mret tt
    end).

(** [self.tasks.put(task)]: the queue is unbounded, so [put] never waits. *)
Definition tasks_put (t : tref) : M unit :=
  modify (λ w, set_tasks (tasks w ++ [t]) w).

(** [Dispatcher.adjust_workers] *)
Definition adjust_workers : M unit :=
  w ← get;
  let remain_workers := _remain_workers w in
  let remain_tasks := Z.of_nat (length (tasks w)) in
  if (0 <? remain_workers)%Z && (0 <? remain_tasks)%Z
  then create_worker (Z.min remain_workers remain_tasks)
  else mret tt.

(** [Dispatcher.submit_task]; [timeout] is [None] by default. *)
Definition submit_task (task : tref) (timeout : option Z) : M tref :=
  w ← get;
  assert (is_running w) "dispatcher is not running";;
  x ← get_task task;
  put_task task (Task_set_dispatcher true x);;
  match timeout with
  | Some (-1)%Z => tasks_put task
  | _ =>
      acquire _semaphore set_semaphore;;
      tasks_put task;;
      add_done_callback task ReleasePermit
  end;;
  adjust_workers;;
  mret task.

(** [list.remove(x)]: drops the first occurrence. *)
Fixpoint list_remove (t : tref) (q : list tref) : list tref :=
  match q with
  | [] => []
  | x :: rest => if decide (x = t) then rest else x :: list_remove t rest
  end.

(** [Dispatcher.cancel_task] *)
Definition cancel_task (task : tref) : M unit :=
  w ← get;
  if decide (task ∈ tasks w) then
    modify (set_tasks (list_remove task (tasks w)));;
    modify (λ w, set_not_full_notified (S (not_full_notified w)) w)
  else
    x ← get_task task;
    match worker x with
    | None => mret tt
    | Some k =>
        d ← done task;
        if negb d then
          wk ← get_worker k;
          stop_worker [name wk]
        else mret tt
    end.

(** [Future.cancel] on the handle of [run_coroutine_threadsafe]: a handle
    that has not completed becomes cancelled. *)
Definition handle_cancel (h : handle_state) : handle_state :=
  match h with
  | HPending | HStranded => HCancelled
  | other => other
  end.

(** [Task.cancel] *)
Definition Task_cancel (task : tref) : M bool :=
  x ← get_task task;
  (if dispatcher x then cancel_task task else mret tt);;
  x ← get_task task;
  match future x with
  | Some h => put_task task (Task_set_future (Some (handle_cancel h)) x)
  | None => mret tt
  end;;
  Future_cancel task.

(** [Dispatcher.create_future]: the coroutine object is built by calling
    [task.func] on the unpacked [task.args] and [task.kwargs] and is handed
    to the loop. *)
Definition create_future (task : tref) : M handle_state :=
  w ← get;
  assert (is_running w) "dispatcher is not running";;
  x ← get_task task;
  assert (is_async x) "task must be async function";;
  lift (unpack_positional (args x));;
  lift (unpack_keyword (kwargs x));;
  mret HPending.

(** The argument of [make_task]: a Task, or a dict with string keys. *)
Inductive descriptor : Type :=
| IsTask (t : tref)
| IsDict (d : gmap string pyval).

(** [d.get(key, default)] *)
Definition dict_get (d : gmap string pyval) (key : string) (default : pyval) : pyval :=
  match d !! key with
  | Some v => v
  | None => default
  end.

(** [Dispatcher.make_task] *)
Definition make_task (task : descriptor) : M tref :=
  match task with
  | IsTask t => mret t
  | IsDict d =>
      let func := dict_get d "func" VNone in
      let positional := dict_get d "args" (VList []) in
      let positional :=
        if negb (is_list_or_tuple positional) then VList [positional] else positional in
      let keyword := dict_get d "kwargs" (VDict []) in
      let keyword := if negb (is_dict keyword) then VDict [] else keyword in
      let callback := dict_get d "callback" VNone in
      Task_init func positional keyword callback
  end.

(** ** The Dispatcher's own thread and its event loop *)

Definition set_ready (hs : list handle) (l : Loop) : Loop :=
  {| ready := hs; loop_running := loop_running l;
     loop_closed := loop_closed l; main_waiting := main_waiting l |}.

(** [loop.call_soon_threadsafe(cb)] *)
Definition call_soon_threadsafe (h : handle) : M unit :=
  w ← get;
  if loop_closed (loop w) then raise (RuntimeError "Event loop is closed")
  else modify (set_loop (set_ready (ready (loop w) ++ [h]) (loop w))).

Definition run_handle (h : handle) : M unit :=
  match h with
  | ShutdownSet => modify (set_shutdown true)
  end.

(** One pass of the loop over its ready queue, first in first out. *)
Definition run_ready : M unit :=
  w ← get;
  modify (set_loop (set_ready [] (loop w)));;
  for_each (ready (loop w)) run_handle.

(** An exception leaves [run_until_complete]: the thread of the loop is
    over, the loop is no longer running and [run] has not closed it. *)
Definition loop_thread_ends : M unit :=
  modify (λ w, set_loop {| ready := ready (loop w); loop_running := false;
                           loop_closed := loop_closed (loop w);
                           main_waiting := false |} w).

(** [main] is over, [run_until_complete] returns and [run] closes the loop. *)
Definition close_loop : M unit :=
  modify (set_loop {| ready := []; loop_running := false;
                      loop_closed := true; main_waiting := false |}).

(** [Dispatcher.run], up to the point where [main] waits for the shutdown
    event.  [run_until_complete] refuses a closed or a running loop; it
    queues the first step of [main] behind the callbacks that are already
    queued. *)
Definition run : M unit :=
  w ← get;
  if loop_closed (loop w) then raise (RuntimeError "Event loop is closed")
  else if loop_running (loop w) then raise (RuntimeError "This event loop is already running")
  else
    run_ready;;
    modify (set_running true);;
    w ← get;
    if _shutdown w then close_loop
    else
      modify (set_loop {| ready := []; loop_running := true;
                          loop_closed := false; main_waiting := true |});;
      block.

(** The loop thread wakes up for the callbacks queued from other threads;
    once the shutdown event is set, [main] returns and [run] finishes. *)
Definition loop_tick : M unit :=
  w ← get;
  if loop_running (loop w) then
    run_ready;;
    w ← get;
    if _shutdown w && main_waiting (loop w) then close_loop else mret tt
  else mret tt.

(** [Dispatcher.start]: [Thread.start] refuses a second start; the new
    thread executes [run]; the caller waits for the running flag, at most 5
    time units. *)
Definition start : M unit :=
  w ← get;
  if started w then raise (RuntimeError "threads can only be started once")
  else
    modify (set_started true);;
    in_thread run.

(** [Dispatcher.stop]; the names are listed before any worker is stopped. *)
Definition stop : M unit :=
  w ← get;
  stop_worker (map_to_list (workers w)).*1;;
  call_soon_threadsafe ShutdownSet;;
  modify (set_running false).

(** ** Worker.run *)

Section Run.

(** What user callable number [f] does when called with the given
    positional and keyword arguments: it returns a value or raises. For a
    coroutine function this is the outcome of running the coroutine. *)
Variable behaviour : nat → list pyval → list (string * pyval) → result pyval.

(** [f( *a, **k)] *)
Definition call (f a k : pyval) : result pyval :=
  match f with
  | VFunc n | VCoroFunc n =>
      match unpack_positional a, unpack_keyword k with
      | Ok xs, Ok kvs => behaviour n xs kvs
      | Err e, _ => Err e
      | _, Err e => Err e
      end
  | _ => Err TypeError
  end.

(** The bounded wait of [Worker.run]. *)
Definition idle_wait : Z := 5.

Definition set_position (me : wref) (p : position) : M unit :=
  k ← get_worker me; put_worker me (Worker_set_at_ p k).

(** [self._awaken.wait()]: returns at once when the event is set, and
    otherwise leaves the thread suspended. *)
Definition awaken_wait (me : wref) : M unit :=
  k ← get_worker me;
  if _awaken k then mret tt else block.

(** [Worker._localtrace], called before each line the thread executes once
    [sys.settrace] has installed it: the thread is held back while the
    Worker is paused, and ended once the shutdown flag is set. *)
Definition _localtrace (me : wref) : M unit :=
  k ← get_worker me;
  (if _awaken k then mret tt
   else set_position me (HeldBack (at_ k));; block);;
  if w_shutdown k then raise SystemExit else mret tt.

(** The thread of Worker [me] runs, at the start of [run] or after a wait:
    a SystemExit set on it is raised, and otherwise the trace function, if
    one is installed, is called. *)
Definition runs (me : wref) : M unit :=
  async_exc (Some me);;
  k ← get_worker me;
  if w_trace k then _localtrace me else mret tt.

(** [self.dispatcher.tasks.get(timeout=...)] called by Worker [me].  The
    head of the queue is returned as soon as there is one; with nothing in
    the queue the thread is suspended inside [get].  With [elapsed], the
    thread comes out of that wait: it finds a task, or the timeout is over
    and [queue.Empty] is raised. *)
Definition tasks_get (timeout : Z) (me : wref) (elapsed : bool) : M tref := λ w,
  match tasks w with
  | t :: q => Returns t (set_tasks q w)
  | [] =>
      match worker_heap w !! me with
      | Some k =>
          if elapsed
          then Raises QueueEmpty
                 (set_worker_heap (<[me := Worker_set_waited timeout k]> (worker_heap w)) w)
          else Blocks
                 (set_worker_heap (<[me := Worker_set_at_ Polling k]> (worker_heap w)) w)
      | None => if elapsed then Raises QueueEmpty w else Blocks w
      end
  end.

(** The first [try]: [true] when the loop goes on with a task in hand,
    [false] when [run] returns.  On [queue.Empty] the Worker calls
    [stop_worker] on its own name, from its own thread. *)
Definition Worker_dequeue (me : wref) (elapsed : bool) : M bool :=
  k ← get_worker me;
  try_except
    (task ← tasks_get idle_wait me elapsed;
     x ← get_task task;
     put_task task (Task_set_worker (Some me) x);;
     set_position me (Holding task);;
     mret true)
    (λ e, match e with
          | QueueEmpty => stop_worker_by (Some me) [name k];; mret false
          | _ => raise e
          end).

(** From the loop condition to the end of the first [try]: [false] when
    [run] returns.  Without tracing, a paused Worker is suspended before it
    calls [get]. *)
Definition Worker_fetch (me : wref) : M bool :=
  k ← get_worker me;
  w ← get;
  if is_running w && negb (w_shutdown k) then
    (if negb (w_trace k) && negb (_awaken k)
     then set_position me Paused;; block else mret tt);;
    Worker_dequeue me false
  else mret false.

(** The [except] clauses of the second [try]. *)
Definition on_error (task : tref) (e : exn) : M unit :=
  if is_exit_signal e then raise e
  else if is_Exception e then
    set_exception task e;;
    Event_invoke {| error := e; form := ERROR_OCCURRED |}
  else raise e.

(** The second [try], up to the wait for an async handle; the result is
    where the thread stands afterwards. *)
Definition Worker_execute (me : wref) (task : tref) : M unit :=
  next ← try_except
    (x ← get_task task;
     if is_async x then
       future ← create_future task;
       x ← get_task task;
       put_task task (Task_set_future (Some future) x);;
       mret (Awaiting task)
     else
       ret ← lift (call (func x) (args x) (kwargs x));
       set_result task ret;;
       mret AtLoopHead)
    (λ e, on_error task e;; mret AtLoopHead);
  set_position me next.

(** [future.result()] called by Worker [me] on the handle stored in
    [task.future].  The coroutine runs in the thread of the loop.  When it
    returns or raises an exception other than a process-exit signal, the
    handle is completed, the Worker comes out of its wait and gets that
    outcome; when the handle was cancelled it gets CancelledError.  A
    KeyboardInterrupt or SystemExit of the coroutine is raised again by the
    loop in its own thread, which it ends: the handle is left uncompleted
    and the Worker stays suspended. *)
Definition future_result (me : wref) (task : tref) : M pyval :=
  x ← get_task task;
  match future x with
  | None => raise AttributeError
  | Some HCancelled => runs me;; raise CancelledError
  | Some HStranded => block
  | Some HFinished => runs me;; lift (call (func x) (args x) (kwargs x))
  | Some HPending =>
      let outcome := call (func x) (args x) (kwargs x) in
      if match outcome with Err e => is_exit_signal e | Ok _ => false end
      then
        put_task task (Task_set_future (Some HStranded) x);;
        loop_thread_ends;;
        block
      else
        put_task task (Task_set_future (Some HFinished) x);;
        runs me;;
        lift outcome
  end.

(** The rest of the second [try] for an async task: the value of
    [future.result()] is dropped. *)
Definition Worker_await (me : wref) (task : tref) : M unit :=
  try_except
    (future_result me task;; mret tt)
    (on_error task);;
  set_position me AtLoopHead.

(** The thread of Worker [me] is over. *)
Definition Worker_exit (me : wref) : M unit :=
  k ← get_worker me; put_worker me (Worker_set_alive false k).

(** The next stretch of [Worker.run] in the thread of Worker [me], from
    where the thread stands to where it is next suspended or has finished
    with a task.  A thread suspended in a wait goes on only when the wait
    is over.  An exception that leaves [run] ends the thread.  A thread
    that is not alive does nothing. *)
Definition Worker_step (me : wref) : M unit :=
  k ← get_worker me;
  if negb (alive k) then mret tt
  else
    try_except
      (match at_ k with
       | AtLoopHead =>
           runs me;;
           go_on ← Worker_fetch me;
           if go_on : bool then mret tt else Worker_exit me
       | Paused =>
           awaken_wait me;;
           runs me;;
           go_on ← Worker_dequeue me false;
           if go_on : bool then mret tt else Worker_exit me
       | Polling =>
           runs me;;
           go_on ← Worker_dequeue me true;
           if go_on : bool then mret tt else Worker_exit me
       | Holding task => runs me;; Worker_execute me task
       | Awaiting task => Worker_await me task
       | HeldBack p => awaken_wait me;; set_position me p
       end)
      (λ e, Worker_exit me;; raise e).

(** ** Calls and traces *)

(** What the clients and the threads can do. *)
Inductive op : Type :=
| Start
| Run
| Stop
| LoopTick
| CreateWorker (size : Z)
| StopWorker (idents : list string)
| PauseWorker (idents : list string)
| AwakeWorker (idents : list string)
| AdjustWorkers
| SubmitTask (task : tref) (timeout : option Z)
| CancelTask (task : tref)                     (* [Dispatcher.cancel_task] *)
| Cancel (task : tref)                         (* [Task.cancel] *)
| CreateFuture (task : tref)
| MakeTask (d : descriptor)
| NewTask (func args kwargs callback : pyval)  (* [Task(...)] *)
| AddDoneCallback (task : tref) (fn : pyval)
| SetResult (task : tref) (v : pyval)
| SetException (task : tref) (e : exn)
| WorkerStep (k : wref).

Definition exec (o : op) : M unit :=
  match o with
  | Start => start
  | Run => run
  | Stop => stop
  | LoopTick => loop_tick
  | CreateWorker size => create_worker size
  | StopWorker idents => stop_worker idents
  | PauseWorker idents => pause_worker idents
  | AwakeWorker idents => awake_worker idents
  | AdjustWorkers => adjust_workers
  | SubmitTask task timeout => submit_task task timeout;; mret tt
  | CancelTask task => cancel_task task
  | Cancel task => Task_cancel task;; mret tt
  | CreateFuture task => create_future task;; mret tt
  | MakeTask d => make_task d;; mret tt
  | NewTask func args kwargs callback => Task_init func args kwargs callback;; mret tt
  | AddDoneCallback task fn => add_done_callback task (UserHook fn)
  | SetResult task v => set_result task v
  | SetException task e => set_exception task e
  | WorkerStep k => Worker_step k
  end.

(** The world after a call, whether it returned, raised or left its thread
    suspended (a call suspended on a semaphore is not taken up again). *)
Definition after (o : op) (w : World) : World := world_of (exec o w).

Definition after_all (os : list op) (w : World) : World :=
  foldl (λ w o, after o w) w os.

End Run.

(** * Notions used in the statements *)

(** [m] relates every world to the world it leaves behind, however it ends. *)
Definition preserves (R : relation World) {A} (m : M A) : Prop :=
  ∀ w, R w (world_of (m w)).

(** Two worlds agree on what [π] reads. *)
Definition same {B} (π : World → B) : relation World := λ w w', π w' = π w.

(** A property of the first world still holds in the second. *)
Definition keeps (I : World → Prop) : relation World := λ w w', I w → I w'.

(** The flags and the loop that decide [is_running]. *)
Definition lifecycle (w : World) : bool * bool * Loop * bool :=
  (_shutdown w, _running w, loop w, started w).

(** Everything but the registry, the slot counter, the naming counter and
    the Worker objects. *)
Definition outside_pool (w : World) :=
  (max_workers w, trace w, tasks w, not_full_notified w, _semaphore w,
   lifecycle w, task_heap w, next_task w, event_bus w, callback_log w).

(** The registry and what [create_worker] and [stop_worker] count with. *)
Definition pool (w : World) : Z * gmap string wref * Z * nat :=
  (max_workers w, workers w, _remain_workers w, _counter w).

(** Every registered Worker holds one slot, the slot counter is not
    overdrawn, and the registered names were all drawn from the naming
    counter. *)
Definition pool_inv (w : World) : Prop :=
  (Z.of_nat (size (workers w)) + _remain_workers w = max_workers w)%Z ∧
  (0 ≤ _remain_workers w)%Z ∧
  ∀ nm k, workers w !! nm = Some k → ∃ n, nm = worker_name n ∧ n < _counter w.

(** What a call may do to the registry: [create_worker] is only asked for
    as many Workers as there are free slots, as [adjust_workers] does. *)
Definition fits (o : op) (w : World) : bool :=
  match o with
  | CreateWorker size => bool_decide (size ≤ _remain_workers w)%Z
  | _ => true
  end.

(** [fits] along a trace of calls. *)
Fixpoint fits_all behaviour (os : list op) (w : World) : bool :=
  match os with
  | [] => true
  | o :: rest => fits o w && fits_all behaviour rest (after behaviour o w)
  end.

(** The shutdown event is set, or the request to set it is queued on the
    loop and the running flag is down. *)
Definition stopping (w : World) : Prop :=
  _shutdown w = true ∨ (_running w = false ∧ ready (loop w) ≠ []).

(** The done-callbacks of a Task. *)
Definition hooks_of (w : World) (t : tref) : list hook :=
  match task_heap w !! t with
  | Some x => match base x with Some f => _done_callbacks f | None => [] end
  | None => []
  end.

(** The state of a Task's Future. *)
Definition state_of (w : World) (t : tref) : option fstate :=
  match task_heap w !! t with
  | Some x => match base x with Some f => Some (_state f) | None => None end
  | None => None
  end.

Definition add_hook (h : hook) (f : Future) : Future :=
  {| _state := _state f; _result := _result f; _exception := _exception f;
     _done_callbacks := _done_callbacks f ++ [h] |}.

(** How many permits the hooks in a list give back. *)
Fixpoint permits (hs : list hook) : nat :=
  match hs with
  | [] => 0
  | ReleasePermit :: rest => S (permits rest)
  | UserHook _ :: rest => permits rest
  end.

(** The three ways in which a Task reaches a terminal state. *)
Inductive completion : Type :=
| Result (v : pyval)
| Exception (e : exn)
| Cancellation.

Definition complete (c : completion) (t : tref) : M unit :=
  match c with
  | Result v => set_result t v
  | Exception e => set_exception t e
  | Cancellation => Future_cancel t;; mret tt
  end.

(** Everything but the permit counter and the log of callback calls. *)
Definition outside_hooks (w : World) :=
  (max_workers w, trace w, tasks w, not_full_notified w, pool w, lifecycle w,
   task_heap w, next_task w, worker_heap w, event_bus w).

(** What [Worker.stop], called from another thread, leaves of a Worker: a
    live thread has the SystemExit pending and its shutdown flag set, a dead
    one is untouched. *)
Definition stop_requested (k : Worker) : Worker :=
  if alive k then Worker_set_w_shutdown true (Worker_set_pending_exit true k) else k.

(** The async handle of a Task. *)
Definition future_of (w : World) (t : tref) : option handle_state :=
  match task_heap w !! t with
  | Some x => future x
  | None => None
  end.

(** The exception stored on a Task. *)
Definition exception_of (w : World) (t : tref) : option exn :=
  match task_heap w !! t with
  | Some x => match base x with Some f => _exception f | None => None end
  | None => None
  end.

(** The thread is alive, no SystemExit is pending on it, and with tracing
    on, the trace function neither holds it back nor ends it. *)
Definition runnable (k : Worker) : bool :=
  alive k && negb (pending_exit k) &&
  negb (w_trace k && (negb (_awaken k) || w_shutdown k)).

(** User code that returns [None] whatever it is called with. *)
Definition quiet : nat → list pyval → list (string * pyval) → result pyval :=
  λ _ _ _, Ok VNone.

(** User code: callable 0 returns 42, callable 1 raises an Exception,
    every other one raises SystemExit. *)
Definition faulty : nat → list pyval → list (string * pyval) → result pyval :=
  λ f _ _,
    match f with
    | 0 => Ok (VInt 42)
    | 1 => Err (UserException 3)
    | _ => Err SystemExit
    end.

(** A started Dispatcher with one worker slot. *)
Definition started_one : World := after quiet Start (Dispatcher_fields 1 false).

(** The positional arguments [make_task] hands to the constructor. *)
Definition positional_of (d : gmap string pyval) : pyval :=
  match d !! "args" with
  | None => VList []
  | Some v => if is_list_or_tuple v then v else VList [v]
  end.

(** The keyword arguments [make_task] hands to the constructor. *)
Definition keyword_of (d : gmap string pyval) : pyval :=
  match d !! "kwargs" with
  | Some (VDict kvs) => VDict kvs
  | _ => VDict []
  end.

(** The registered Workers whose thread is alive. *)
Definition live_workers (w : World) : list string :=
  omap (λ kv, match worker_heap w !! kv.2 with
              | Some k => if alive k then Some kv.1 else None
              | None => None
              end)
       (map_to_list (workers w)).

(** A Task that was submitted and has not reached a terminal state. *)
Definition unfinished (x : Task) : bool :=
  dispatcher x &&
  match base x with
  | Some f => negb (is_terminal (_state f))
  | None => false
  end.

(** The reading of the specification: the number of tasks currently in
    flight or queued. *)
Definition in_flight_or_queued (w : World) : Z :=
  Z.of_nat (length (filter (λ kv, unfinished kv.2 = true) (map_to_list (task_heap w)))).

(** One task submitted to a started Dispatcher with one slot; no Worker
    thread has run yet. *)
Definition submitted_one : World :=
  after_all quiet [NewTask (VFunc 0) VNone VNone VNone; SubmitTask 0 None] started_one.

(** A started Dispatcher with one slot and one Task, not yet submitted. *)
Definition with_task : World :=
  after quiet (NewTask (VFunc 0) VNone VNone VNone) started_one.

(** The Worker of [submitted_one] has taken the task out of the queue. *)
Definition held_one : World := after quiet (WorkerStep 0) submitted_one.



(** A started Dispatcher with one idle Worker and an empty queue. *)
Definition idle_one : World := after quiet (CreateWorker 1) started_one.

(** A closed loop has seen the shutdown event. *)
Definition closed_after_shutdown (w : World) : Prop :=
  loop_closed (loop w) = true → _shutdown w = true.

(** Every registered reference is a Worker object. *)
Definition registry_allocated (w : World) : Prop :=
  ∀ nm k, workers w !! nm = Some k → is_Some (worker_heap w !! k).

(** The result stored on a Task. *)
Definition result_of (w : World) (t : tref) : option pyval :=
  match task_heap w !! t with
  | Some x => match base x with Some f => Some (_result f) | None => None end
  | None => None
  end.

(** What leaves [run] when the task in hand is already terminal. *)
Definition escapes (r : result pyval) : exn :=
  match r with
  | Ok _ => InvalidStateError
  | Err e => if is_Exception e then InvalidStateError else e
  end.

(** The Worker objects that a list of names stands for in the registry. *)
Definition named (w : World) (idents : list string) : list wref :=
  omap (λ nm, workers w !! nm) idents.

(** Calls that leave the Dispatcher's own thread and its loop alone. *)
Definition calm (o : op) : bool :=
  match o with
  | Start | Run | Stop | LoopTick => false
  | _ => true
  end.

(** What [Future.cancel] returns on a Future that is already terminal. *)
Definition cancel_answer (s : fstate) : bool :=
  match s with
  | CANCELLED | CANCELLED_AND_NOTIFIED => true
  | _ => false
  end.

(** The positional arguments a descriptor stands for. *)
Definition positional_items (d : gmap string pyval) : list pyval :=
  match d !! "args" with
  | None => []
  | Some (VList xs) | Some (VTuple xs) => xs
  | Some v => [v]
  end.

(** The keyword arguments a descriptor stands for. *)
Definition keyword_items (d : gmap string pyval) : list (string * pyval) :=
  match d !! "kwargs" with
  | Some (VDict kvs) => kvs
  | _ => []
  end.

(** The Worker object number [n] right after [create_worker] has started
    its thread. *)
Definition new_worker (tr : bool) (n : nat) : Worker :=
  {| name := worker_name n; w_shutdown := false; w_trace := tr;
     _awaken := true; alive := true; pending_exit := false;
     at_ := AtLoopHead; waited := 0 |}.

(** The permits a Task still owes: one for each releasing hook that has not
    run yet. *)
Definition owed (x : Task) : nat :=
  match base x with
  | Some f => if is_terminal (_state f) then 0 else permits (_done_callbacks f)
  | None => 0
  end.

(** The permits owed by all the Tasks of a heap. *)
Definition owed_by (h : gmap tref Task) : nat :=
  map_fold (λ _ x n, owed x + n) 0 h.

(** The permit counter is not overdrawn, and the free permits and the
    permits owed by unfinished Tasks are at most [max_workers]. *)
Definition within_permits (w : World) : Prop :=
  (0 ≤ _semaphore w)%Z ∧
  (_semaphore w + Z.of_nat (owed_by (task_heap w)) ≤ max_workers w)%Z.

(** Every Task object was given its reference by the constructor. *)
Definition tasks_numbered (w : World) : Prop :=
  ∀ t x, task_heap w !! t = Some x → t < next_task w.

(** Task [t] was constructed and its Future attributes are [f]. *)
Definition settled (t : tref) (f : Future) (w : World) : Prop :=
  t < next_task w ∧ ∃ x, task_heap w !! t = Some x ∧ base x = Some f.

(** Worker number [k] bears the name [worker-k], and the registry lists a
    Worker under the name it bears; the numbers in use were all drawn from
    the naming counter. *)
Definition named_by_number (w : World) : Prop :=
  (∀ k wk, worker_heap w !! k = Some wk → name wk = worker_name k) ∧
  (∀ nm k, workers w !! nm = Some k → nm = worker_name k ∧ k < _counter w).

(** A Worker holding a task whose callable is a coroutine function. *)
Definition held_coroutine : World :=
  after_all quiet
    [NewTask (VCoroFunc 0) VNone VNone VNone; SubmitTask 0 None; WorkerStep 0]
    started_one.

(** The task of [held_one] was given a result from outside while the Worker
    was holding it. *)
Definition held_settled : World := after quiet (SetResult 0 (VInt 1)) held_one.

(** A Worker created on a Dispatcher that was never started. *)
Definition unstarted_one : World :=
  after quiet (CreateWorker 1) (Dispatcher_fields 1 false).

(** A Dispatcher that was stopped and whose loop has closed. *)
Definition closed_one : World := after_all quiet [Stop; LoopTick] started_one.

(** One queued task and no Worker: the Worker spawned for it was stopped. *)
Definition orphaned_task : World :=
  after quiet (StopWorker ["worker-0"]) submitted_one.

(** The task of [held_one] has been executed. *)
Definition finished_one : World := after faulty (WorkerStep 0) held_one.

(** What [start] depends on, the thread of the loop set aside: the flags,
    the callbacks queued on the loop, and whether the loop is closed. *)
Definition launch_state (w : World) : bool * bool * list handle * bool * bool :=
  (_shutdown w, _running w, ready (loop w), loop_closed (loop w), started w).


(** The Worker of [idle_one] has found the queue empty and is suspended
    inside [tasks.get(timeout=5)]. *)
Definition polling_one : World := after quiet (WorkerStep 0) idle_one.

(** The Worker of [held_coroutine] has handed the coroutine to the loop and
    is suspended inside [future.result()]. *)
Definition awaiting_coroutine : World := after quiet (WorkerStep 0) held_coroutine.




(** * Properties *)

(** ** What a computation leaves alone *)

Section Preserves.

Context (R : relation World) `{!PreOrder R}.

Lemma preserves_ret {A} (a : A) : preserves R (mret a).
Proof. intros w. cbn. reflexivity. Qed.

Lemma preserves_raise {A} (e : exn) : preserves R (@raise A e).
Proof. intros w. cbn. reflexivity. Qed.

Lemma preserves_block {A} : preserves R (@block A).
Proof. intros w. cbn. reflexivity. Qed.

Lemma preserves_get : preserves R get.
Proof. intros w. cbn. reflexivity. Qed.

Lemma preserves_modify (f : World → World) :
  (∀ w, R w (f w)) → preserves R (modify f).
Proof. intros Hf w. cbn. apply Hf. Qed.

Lemma preserves_bind {A B} (m : M A) (k : A → M B) :
  preserves R m → (∀ a, preserves R (k a)) → preserves R (m ≫= k).
Proof.
  intros Hm Hk w. unfold mbind, M_bind.
  specialize (Hm w). destruct (m w) as [a w'|e w'|w']; cbn in *; try assumption.
  transitivity w'; [assumption | apply Hk].
Qed.

Lemma preserves_try_except {A} (m : M A) (h : exn → M A) :
  preserves R m → (∀ e, preserves R (h e)) → preserves R (try_except m h).
Proof.
  intros Hm Hh w. unfold try_except.
  specialize (Hm w). destruct (m w) as [a w'|e w'|w']; cbn in *; try assumption.
  transitivity w'; [assumption | apply Hh].
Qed.

Lemma preserves_assert (c : bool) (msg : string) : preserves R (assert c msg).
Proof. destruct c; [apply preserves_ret | apply preserves_raise]. Qed.

Lemma preserves_lift {A} (r : result A) : preserves R (lift r).
Proof. destruct r; [apply preserves_ret | apply preserves_raise]. Qed.

Lemma preserves_for_each {A} (xs : list A) (body : A → M unit) :
  (∀ x, preserves R (body x)) → preserves R (for_each xs body).
Proof.
  intros Hb. induction xs as [|x xs IH]; cbn.
  - apply preserves_ret.
  - apply preserves_bind; [apply Hb | intros _; exact IH].
Qed.

Lemma preserves_for_range (n : nat) (body : M unit) :
  preserves R body → preserves R (for_range n body).
Proof.
  intros Hb. induction n as [|n IH]; cbn.
  - apply preserves_ret.
  - apply preserves_bind; [exact Hb | intros _; exact IH].
Qed.

Lemma preserves_in_thread {A} (m : M A) : preserves R m → preserves R (in_thread m).
Proof. intros Hm w. apply Hm. Qed.

End Preserves.

#[export] Instance same_preorder {B} (π : World → B) : PreOrder (same π).
Proof. split; [intros w; reflexivity | intros a b c H1 H2; unfold same in *; congruence]. Qed.

#[export] Instance keeps_preorder (I : World → Prop) : PreOrder (keeps I).
Proof. split; [intros w H; exact H | intros a b c H1 H2 H; exact (H2 (H1 H))]. Qed.

Create HintDb preserves.

(** Computations that read or write one field directly. *)
Ltac primitive :=
  let w := fresh "w" in
  intros w; unfold same, keeps;
  cbv beta delta [get_task get_worker acquire tasks_get PyThreadState_SetAsyncExc];
  repeat case_match;
  first [ reflexivity | (let H := fresh in intros H; exact H) ].

(** A field update that the relation does not look at. *)
Ltac leaf :=
  unfold same, keeps;
  first [ reflexivity | (let H := fresh in intros H; exact H) ].

Ltac preserve_step :=
  first
    [ match goal with |- PreOrder _ => apply _ end
    | solve [ eauto with preserves ]
    | lazymatch goal with
      | |- preserves _ (_ ≫= _) => refine (preserves_bind _ _ _ _ _); [| intros ?]
      | |- preserves _ (try_except _ _) => refine (preserves_try_except _ _ _ _ _); [| intros ?]
      | |- preserves _ (for_each _ _) => refine (preserves_for_each _ _ _ _); intros ?
      | |- preserves _ (for_range _ _) => refine (preserves_for_range _ _ _ _)
      | |- preserves _ (in_thread _) => refine (preserves_in_thread _ _ _)
      | |- preserves _ (mret _) => refine (preserves_ret _ _)
      | |- preserves _ (raise _) => refine (preserves_raise _ _)
      | |- preserves _ block => refine (preserves_block _)
      | |- preserves _ get => refine (preserves_get _)
      | |- preserves _ (assert _ _) => refine (preserves_assert _ _ _)
      | |- preserves _ (lift _) => refine (preserves_lift _ _)
      | |- preserves _ (modify _) => refine (preserves_modify _ _ _); intros ?; leaf
      | |- preserves _ (get_task _) => primitive
      | |- preserves _ (get_worker _) => primitive
      | |- preserves _ (acquire _ _) => primitive
      | |- preserves _ (tasks_get _ _ _) => primitive
      | |- preserves _ (PyThreadState_SetAsyncExc _ _) => primitive
      | |- preserves _ (if ?b then _ else _) => destruct b
      | |- preserves _ (match ?x with _ => _ end) => destruct x
      end
    | progress unfold put_task, put_worker, release, get_base, put_base,
        call_hook, _invoke_callbacks, add_done_callback, done, Future_cancel,
        set_result, set_exception, Task_init, Event_invoke, async_exc,
        Worker_stop_by, Worker_stop, Worker_pause, Worker_awake,
        create_one_worker, create_worker, stop_worker_by, stop_worker,
        pause_worker, awake_worker, tasks_put, adjust_workers, submit_task,
        cancel_task, Task_cancel, create_future, make_task,
        call_soon_threadsafe, run_handle, run_ready, loop_thread_ends,
        close_loop, run, loop_tick, start, stop, set_position, awaken_wait,
        _localtrace, runs, Worker_dequeue, Worker_fetch, on_error,
        Worker_execute, future_result, Worker_await, Worker_exit,
        Worker_step, exec ].

Ltac preserve := repeat preserve_step.

(** Unfolding the monad on a given world. *)
Ltac step_m :=
  unfold mbind, mret, M_bind, M_ret, get, modify, raise, block, assert, lift,
    try_except, in_thread, release, put_task, put_worker; cbn.

(** ** Creating workers leaves the rest of the world alone *)

Lemma create_worker_outside_pool (size : Z) :
  preserves (same outside_pool) (create_worker size).
Proof. preserve. Qed.

(** ** The registry and the slot counter *)

Lemma pool_inv_same (w w' : World) : pool w' = pool w → pool_inv w → pool_inv w'.
Proof.
  unfold pool, pool_inv. intros Hp. injection Hp as -> -> -> ->. tauto.
Qed.

Lemma same_pool_keeps {A} (m : M A) :
  preserves (same pool) m → preserves (keeps pool_inv) m.
Proof. intros Hm w H. eapply pool_inv_same; [apply Hm | exact H]. Qed.

Lemma worker_name_inj (a b : nat) : worker_name a = worker_name b → a = b.
Proof.
  unfold worker_name. intros H.
  apply (inj pretty). revert H. apply (inj (String.app _)).
Qed.

Lemma Worker_stop_pool (c : option wref) (k : wref) :
  preserves (same pool) (Worker_stop_by c k).
Proof. preserve. Qed.

Lemma stop_worker_by_pool (c : option wref) (idents : list string) :
  preserves (keeps pool_inv) (stop_worker_by c idents).
Proof.
  apply preserves_for_each; [apply _|]. intros ident w (Hsz & Hpos & Hnm).
  step_m. destruct (workers w !! ident) as [k|] eqn:Hk; cbn.
  - eapply pool_inv_same; [apply Worker_stop_pool|].
    split; [|split]; cbn.
    + rewrite map_size_delete_Some by eauto.
      assert (size (workers w) ≠ 0) by (eapply map_size_ne_0_lookup_2; eauto).
      lia.
    + lia.
    + intros nm k' [_ Hl]%lookup_delete_Some. apply (Hnm _ _ Hl).
  - split; [|split]; cbn.
    + rewrite map_size_delete_None by done. exact Hsz.
    + exact Hpos.
    + intros nm k' [_ Hl]%lookup_delete_Some. apply (Hnm _ _ Hl).
Qed.

Lemma stop_worker_pool (idents : list string) :
  preserves (keeps pool_inv) (stop_worker idents).
Proof. apply stop_worker_by_pool. Qed.

Lemma create_one_worker_returns (w : World) :
  (0 < _remain_workers w)%Z →
  ∃ w', create_one_worker w = Returns tt w' ∧
        _remain_workers w' = (_remain_workers w - 1)%Z ∧
        workers w' = <[worker_name (_counter w) := _counter w]> (workers w) ∧
        _counter w' = S (_counter w) ∧
        outside_pool w' = outside_pool w.
Proof.
  intros Hr. unfold create_one_worker. step_m.
  unfold get_worker; cbn. rewrite lookup_insert_eq. step_m.
  unfold acquire; cbn.
  destruct (0 <? _remain_workers w)%Z eqn:E; [|apply Z.ltb_ge in E; lia].
  eexists. split; [reflexivity|]. cbn. auto.
Qed.

Lemma create_one_worker_pool (w : World) :
  pool_inv w → (0 < _remain_workers w)%Z →
  ∃ w', create_one_worker w = Returns tt w' ∧ pool_inv w' ∧
        _remain_workers w' = (_remain_workers w - 1)%Z ∧
        outside_pool w' = outside_pool w.
Proof.
  intros (Hsz & Hpos & Hnm) Hr.
  destruct (create_one_worker_returns w Hr) as (w' & Hw' & Hrem & Hws & Hc & Ho).
  exists w'. split; [exact Hw'|]. split; [|auto].
  assert (Hfresh : workers w !! worker_name (_counter w) = None).
  { destruct (workers w !! worker_name (_counter w)) as [k|] eqn:E; [|done].
    destruct (Hnm _ _ E) as (n & Hn%worker_name_inj & Hlt). lia. }
  assert (Hmax : max_workers w' = max_workers w) by (unfold outside_pool in Ho; congruence).
  split; [|split].
  - rewrite Hws, Hrem, Hmax, map_size_insert_None by done. lia.
  - lia.
  - rewrite Hws, Hc. intros nm k [[<- <-]|[_ Hl]]%lookup_insert_Some.
    + exists (_counter w). split; [done | lia].
    + destruct (Hnm _ _ Hl) as (n & -> & Hlt). exists n. split; [done | lia].
Qed.

Lemma create_worker_fits (n : nat) (w : World) :
  pool_inv w → (Z.of_nat n ≤ _remain_workers w)%Z →
  ∃ w', for_range n create_one_worker w = Returns tt w' ∧ pool_inv w' ∧
        _remain_workers w' = (_remain_workers w - Z.of_nat n)%Z ∧
        outside_pool w' = outside_pool w.
Proof.
  revert w. induction n as [|n IH]; intros w HI Hn.
  - exists w. cbn. repeat split; try apply HI. lia.
  - destruct (create_one_worker_pool w HI) as (w1 & E1 & HI1 & Hr1 & Ho1); [lia|].
    destruct (IH w1 HI1) as (w2 & E2 & HI2 & Hr2 & Ho2); [lia|].
    exists w2. cbn [for_range]. unfold mbind, M_bind. rewrite E1, E2.
    repeat split; try apply HI2; [lia | congruence].
Qed.

(** Without the invariant: enough free slots, and every round returns. *)
Lemma create_worker_returns (n : nat) (w : World) :
  (Z.of_nat n ≤ _remain_workers w)%Z →
  ∃ w', for_range n create_one_worker w = Returns tt w' ∧
        outside_pool w' = outside_pool w.
Proof.
  revert w. induction n as [|n IH]; intros w Hn.
  - exists w. by cbn.
  - destruct (create_one_worker_returns w) as (w1 & E1 & Hr1 & _ & _ & Ho1); [lia|].
    destruct (IH w1) as (w2 & E2 & Ho2); [lia|].
    exists w2. cbn [for_range]. unfold mbind, M_bind. rewrite E1, E2.
    split; [done | congruence].
Qed.

Lemma adjust_workers_returns (w : World) :
  ∃ w', adjust_workers w = Returns tt w' ∧ outside_pool w' = outside_pool w.
Proof.
  unfold adjust_workers. step_m.
  destruct ((0 <? _remain_workers w)%Z && (0 <? Z.of_nat (length (tasks w)))%Z) eqn:E.
  - apply andb_prop in E as [E1%Z.ltb_lt E2%Z.ltb_lt].
    apply create_worker_returns. lia.
  - by exists w.
Qed.

Lemma adjust_workers_pool : preserves (keeps pool_inv) adjust_workers.
Proof.
  intros w HI. unfold adjust_workers. step_m.
  destruct ((0 <? _remain_workers w)%Z && (0 <? Z.of_nat (length (tasks w)))%Z) eqn:E.
  - apply andb_prop in E as [E1%Z.ltb_lt E2%Z.ltb_lt].
    destruct (create_worker_fits (Z.to_nat (Z.min (_remain_workers w) (Z.of_nat (length (tasks w))))) w HI)
      as (w' & E' & HI' & _); [lia|].
    unfold create_worker. rewrite E'. exact HI'.
  - exact HI.
Qed.

#[export] Hint Resolve stop_worker_by_pool stop_worker_pool
  adjust_workers_pool : preserves.

Lemma exec_pool behaviour (o : op) (w : World) :
  fits o w = true → pool_inv w → pool_inv (after behaviour o w).
Proof.
  intros Hfit. unfold after.
  assert (Hrest : (∀ size, o ≠ CreateWorker size) →
                  preserves (keeps pool_inv) (exec behaviour o)).
  { clear. intros Hne. destruct o; cbn [exec]; try solve [preserve].
    by destruct (Hne size). }
  destruct o; try (apply Hrest; discriminate).
  intros HI. cbn in Hfit. apply bool_decide_eq_true in Hfit.
  pose proof HI as (_ & Hpos & _).
  destruct (create_worker_fits (Z.to_nat size) w HI) as (w' & E' & HI' & _); [lia|].
  cbn. unfold create_worker. rewrite E'. exact HI'.
Qed.

Lemma Dispatcher_init_pool (n : Z) (tr : bool) (w : World) :
  Dispatcher_init n tr = Ok w → pool_inv w.
Proof.
  unfold Dispatcher_init. destruct (n <? 0)%Z eqn:E; [discriminate|].
  intros [= <-]. apply Z.ltb_ge in E. split; [|split]; cbn.
  - rewrite map_size_empty. lia.
  - exact E.
  - intros nm k Hl. by rewrite lookup_empty in Hl.
Qed.

Lemma after_all_pool behaviour (os : list op) (w : World) :
  fits_all behaviour os w = true → pool_inv w → pool_inv (after_all behaviour os w).
Proof.
  revert w. induction os as [|o os IH]; intros w Hfit HI; [exact HI|].
  cbn in Hfit. apply andb_prop in Hfit as [Ho Hos].
  cbn. apply IH; [exact Hos|]. by apply exec_pool.
Qed.

(** ** After [stop] *)

Lemma stopping_not_running (w : World) : stopping w → is_running w = false.
Proof.
  unfold is_running. intros [->| [-> _]]; [done|]. apply andb_false_r.
Qed.

Lemma run_handles_shutdown (hs : list handle) (w : World) :
  hs ≠ [] ∨ _shutdown w = true →
  ∃ w', for_each hs run_handle w = Returns tt w' ∧ _shutdown w' = true.
Proof.
  revert w. induction hs as [|[] hs IH]; intros w H.
  - destruct H as [H|H]; [done|]. by exists w.
  - cbn. step_m. apply IH. by right.
Qed.

Lemma run_ready_stopping (w : World) :
  stopping w → ∃ w', run_ready w = Returns tt w' ∧ _shutdown w' = true.
Proof.
  intros H. unfold run_ready. step_m. apply run_handles_shutdown.
  destruct H as [H|[_ H]]; [by right | by left].
Qed.

Lemma run_stopping : preserves (keeps stopping) run.
Proof.
  intros w H. unfold run. step_m.
  destruct (loop_closed (loop w)); [exact H|].
  destruct (loop_running (loop w)); [exact H|].
  destruct (run_ready_stopping w H) as (w1 & -> & Hs). cbn.
  rewrite Hs. cbn. by left.
Qed.

Lemma loop_tick_stopping : preserves (keeps stopping) loop_tick.
Proof.
  intros w H. unfold loop_tick. step_m.
  destruct (loop_running (loop w)); [|exact H].
  destruct (run_ready_stopping w H) as (w1 & -> & Hs). cbn.
  rewrite Hs. cbn. destruct (main_waiting (loop w1)); cbn; by left.
Qed.

Lemma call_soon_stopping (h : handle) :
  preserves (keeps stopping) (call_soon_threadsafe h).
Proof.
  intros w H. unfold call_soon_threadsafe. step_m.
  destruct (loop_closed (loop w)); [exact H|]. cbn.
  destruct H as [H|[H1 H2]]; [by left|]. right. split; [exact H1|].
  cbn. intros E. by apply app_eq_nil in E as [_ ?].
Qed.

Lemma set_running_false_stopping :
  preserves (keeps stopping) (modify (set_running false)).
Proof.
  intros w [H|[H1 H2]]; cbn; [by left | by right].
Qed.

Lemma set_started_stopping (b : bool) :
  preserves (keeps stopping) (modify (set_started b)).
Proof. intros w H. exact H. Qed.

#[export] Hint Resolve run_stopping loop_tick_stopping call_soon_stopping
  set_running_false_stopping : preserves.

Lemma exec_stopping behaviour (o : op) :
  preserves (keeps stopping) (exec behaviour o).
Proof. destruct o; cbn [exec]; preserve. Qed.

Lemma after_all_stopping behaviour (os : list op) (w : World) :
  stopping w → stopping (after_all behaviour os w).
Proof.
  revert w. induction os as [|o os IH]; intros w H; [exact H|].
  cbn. apply IH. by apply exec_stopping.
Qed.

(** A [stop] that returns has queued the shutdown request and cleared the
    running flag. *)
Lemma stop_stopping (w w' : World) : stop w = Returns tt w' → stopping w'.
Proof.
  unfold stop. step_m.
  destruct (stop_worker _ w) as [[] w1|e w1|w1]; try discriminate.
  unfold call_soon_threadsafe. step_m.
  destruct (loop_closed (loop w1)); [discriminate|]. cbn.
  intros [= <-]. right. cbn. split; [done|].
  intros E. by apply app_eq_nil in E as [_ ?].
Qed.

(** ** Hooks and permits *)

Lemma get_base_eq (w : World) (t : tref) (x : Task) (f : Future) :
  task_heap w !! t = Some x → base x = Some f → get_base t w = Returns f w.
Proof. intros Hx Hf. unfold get_base, get_task. step_m. by rewrite Hx, Hf. Qed.

Lemma put_base_eq (w : World) (t : tref) (x : Task) (f : Future) :
  task_heap w !! t = Some x →
  put_base t f w =
    Returns tt (set_task_heap (<[t := Task_set_base (Some f) x]> (task_heap w)) w).
Proof. intros Hx. unfold put_base, get_task. step_m. by rewrite Hx. Qed.

Lemma add_done_callback_pending (w : World) (t : tref) (x : Task) (f : Future) (h : hook) :
  task_heap w !! t = Some x → base x = Some f → is_terminal (_state f) = false →
  add_done_callback t h w =
    Returns tt (set_task_heap (<[t := Task_set_base (Some (add_hook h f)) x]> (task_heap w)) w).
Proof.
  intros Hx Hf Hp. unfold add_done_callback. unfold mbind, M_bind.
  rewrite (get_base_eq w t x f Hx Hf), Hp. cbn. by rewrite (put_base_eq w t x).
Qed.

Lemma add_done_callback_terminal (w : World) (t : tref) (x : Task) (f : Future) (h : hook) :
  task_heap w !! t = Some x → base x = Some f → is_terminal (_state f) = true →
  add_done_callback t h w = call_hook h t w.
Proof.
  intros Hx Hf Hp. unfold add_done_callback. unfold mbind, M_bind.
  by rewrite (get_base_eq w t x f Hx Hf), Hp.
Qed.

Lemma outside_pool_fields (w w' : World) :
  outside_pool w' = outside_pool w →
  tasks w' = tasks w ∧ _semaphore w' = _semaphore w ∧ task_heap w' = task_heap w ∧
  lifecycle w' = lifecycle w ∧ event_bus w' = event_bus w ∧
  callback_log w' = callback_log w ∧ not_full_notified w' = not_full_notified w.
Proof. unfold outside_pool. intros H. repeat split; congruence. Qed.

Lemma not_unbounded (timeout : option Z) {A} (a b : A) :
  timeout ≠ Some (-1)%Z →
  match timeout with Some (-1)%Z => a | _ => b end = b.
Proof. destruct timeout as [[| |[]]|]; done. Qed.

(** Running a list of hooks returns, and gives back one permit per
    [ReleasePermit]. *)
Lemma hooks_run (hs : list hook) (t : tref) (w : World) :
  ∃ w', for_each hs (λ h, call_hook h t) w = Returns tt w' ∧
        _semaphore w' = (_semaphore w + Z.of_nat (permits hs))%Z ∧
        outside_hooks w' = outside_hooks w.
Proof.
  revert w. induction hs as [|h hs IH]; intros w.
  - exists w. cbn. split; [done|]. split; [lia | done].
  - cbn [for_each permits]. unfold mbind, M_bind.
    assert (Hh : ∃ w1, call_hook h t w = Returns tt w1 ∧
              _semaphore w1 = (_semaphore w + match h with ReleasePermit => 1 | _ => 0 end)%Z ∧
              outside_hooks w1 = outside_hooks w).
    { destruct h as [[]|]; cbn; step_m; eexists; (split; [reflexivity|]); cbn;
        (split; [lia | reflexivity]). }
    destruct Hh as (w1 & -> & Hs1 & Ho1).
    destruct (IH w1) as (w2 & -> & Hs2 & Ho2).
    exists w2. split; [done|]. split; [|congruence].
    rewrite Hs2, Hs1. destruct h; lia.
Qed.

Lemma invoke_callbacks_eq (w : World) (t : tref) (x : Task) (f : Future) :
  task_heap w !! t = Some x → base x = Some f →
  _invoke_callbacks t w = for_each (_done_callbacks f) (λ h, call_hook h t) w.
Proof.
  intros Hx Hf. unfold _invoke_callbacks, mbind, M_bind.
  by rewrite (get_base_eq w t x f Hx Hf).
Qed.

Lemma permits_app (a b : list hook) : permits (a ++ b) = permits a + permits b.
Proof. induction a as [|[] a IH]; cbn; lia. Qed.

(** A pending Task reaches a terminal state in each of the three ways, and
    its hooks run then. *)
Lemma complete_pending (c : completion) (t : tref) (w : World) (x : Task) (f : Future) :
  task_heap w !! t = Some x → base x = Some f → _state f = PENDING →
  ∃ w', complete c t w = Returns tt w' ∧
        _semaphore w' = (_semaphore w + Z.of_nat (permits (_done_callbacks f)))%Z ∧
        ∃ s, state_of w' t = Some s ∧ is_terminal s = true.
Proof.
  intros Hx Hf Hp.
  destruct c as [v|e|]; cbn [complete];
    unfold set_result, set_exception, Future_cancel, mbind, M_bind;
    rewrite (get_base_eq w t x f Hx Hf), Hp; cbn;
    rewrite (put_base_eq w t x _ Hx);
    (erewrite invoke_callbacks_eq; [| cbn; apply lookup_insert_eq | cbn; reflexivity]);
    cbn [_done_callbacks];
    match goal with |- context [for_each ?hs ?b ?w1] =>
      destruct (hooks_run hs t w1) as (w' & -> & Hs & Ho) end;
    exists w'; (split; [done|]); (split; [exact Hs|]);
    unfold state_of, outside_hooks in *.
  all: assert (Ht : task_heap w' = _) by (injection Ho; intros; eassumption).
  all: rewrite Ht; cbn; rewrite lookup_insert_eq; cbn; eauto.
Qed.

(** ** Submission *)

(** C1.  On a running Dispatcher, [submit_task(task, timeout)] with
    [timeout == -1] enqueues the task and returns it without touching the
    permit counter.  With any other timeout it first takes a permit: when
    none is free the submitter is suspended and nothing has been enqueued;
    otherwise the permit counter goes down by one, the task is enqueued, the
    releasing hook is appended to the task's done-callbacks, and the same
    task is returned.  When the task then reaches a terminal state (result,
    exception or cancellation) its hooks run and that permit is given back.
    A task that is already terminal has the hook called at once. *)
Theorem submit_task_permit (w : World) (task : tref) (timeout : option Z)
    (x : Task) (f : Future) :
  is_running w = true →
  task_heap w !! task = Some x →
  base x = Some f →
  (timeout = Some (-1)%Z →
     ∃ w', submit_task task timeout w = Returns task w' ∧
           tasks w' = tasks w ++ [task] ∧
           _semaphore w' = _semaphore w ∧
           hooks_of w' task = _done_callbacks f) ∧
  (timeout ≠ Some (-1)%Z →
     ((_semaphore w ≤ 0)%Z →
        ∃ w', submit_task task timeout w = Blocks w' ∧
              tasks w' = tasks w ∧
              _semaphore w' = _semaphore w ∧
              hooks_of w' task = _done_callbacks f) ∧
     ((0 < _semaphore w)%Z → is_terminal (_state f) = false →
        ∃ w', submit_task task timeout w = Returns task w' ∧
              tasks w' = tasks w ++ [task] ∧
              _semaphore w' = (_semaphore w - 1)%Z ∧
              hooks_of w' task = _done_callbacks f ++ [ReleasePermit] ∧
              (_state f = PENDING → ∀ c,
                 ∃ w'', complete c task w' = Returns tt w'' ∧
                        _semaphore w'' =
                          (_semaphore w' + 1 + Z.of_nat (permits (_done_callbacks f)))%Z)) ∧
     ((0 < _semaphore w)%Z → is_terminal (_state f) = true →
        ∃ w', submit_task task timeout w = Returns task w' ∧
              tasks w' = tasks w ++ [task] ∧
              _semaphore w' = _semaphore w ∧
              hooks_of w' task = _done_callbacks f)).
Proof.
  intros Hrun Hx Hf.
  split; [intros -> | intros Ht; split; [|split]].
  - unfold submit_task. step_m. rewrite Hrun. step_m.
    unfold get_task at 1. rewrite Hx. step_m. unfold tasks_put. step_m.
    match goal with |- context [adjust_workers ?w1] =>
      destruct (adjust_workers_returns w1) as (w' & -> & Ho) end.
    apply outside_pool_fields in Ho as (H1 & H2 & H3 & _).
    exists w'. split; [done|]. cbn in *. rewrite H1, H2. split; [done|]. split; [done|].
    unfold hooks_of. rewrite H3, lookup_insert_eq. cbn. by rewrite Hf.
  - intros Hs.
    unfold submit_task. step_m. rewrite Hrun. step_m.
    unfold get_task at 1. rewrite Hx. step_m.
    rewrite (not_unbounded timeout _ _ Ht).
    unfold acquire. cbn.
    destruct (0 <? _semaphore w)%Z eqn:E; [apply Z.ltb_lt in E; lia|].
    eexists. split; [reflexivity|]. cbn. split; [done|]. split; [done|].
    unfold hooks_of. cbn. rewrite lookup_insert_eq. cbn. by rewrite Hf.
  - intros Hs Hp.
    unfold submit_task. step_m. rewrite Hrun. step_m.
    unfold get_task at 1. rewrite Hx. step_m.
    rewrite (not_unbounded timeout _ _ Ht).
    unfold acquire. cbn.
    destruct (0 <? _semaphore w)%Z eqn:E; [|apply Z.ltb_ge in E; lia].
    unfold tasks_put; step_m.
    erewrite add_done_callback_pending; [| cbn; apply lookup_insert_eq | exact Hf | exact Hp].
    cbn.
    match goal with |- context [adjust_workers ?w1] =>
      destruct (adjust_workers_returns w1) as (w' & -> & Ho) end.
    apply outside_pool_fields in Ho as (H1 & H2 & H3 & _).
    exists w'. split; [done|]. cbn in *. rewrite H1, H2.
    split; [done|]. split; [done|].
    rewrite insert_insert_eq in H3.
    split.
    + unfold hooks_of. by rewrite H3, lookup_insert_eq.
    + intros Hpend c.
      edestruct (complete_pending c task w') as (w'' & Hc & Hsem & _).
      * rewrite H3. apply lookup_insert_eq.
      * cbn. reflexivity.
      * cbn. exact Hpend.
      * exists w''. split; [exact Hc|]. rewrite Hsem. cbn [add_hook _done_callbacks].
        rewrite permits_app. cbn. lia.
  - intros Hs Hp.
    unfold submit_task. step_m. rewrite Hrun. step_m.
    unfold get_task at 1. rewrite Hx. step_m.
    rewrite (not_unbounded timeout _ _ Ht).
    unfold acquire. cbn.
    destruct (0 <? _semaphore w)%Z eqn:E; [|apply Z.ltb_ge in E; lia].
    unfold tasks_put; step_m.
    erewrite add_done_callback_terminal; [| cbn; apply lookup_insert_eq | exact Hf | exact Hp].
    cbn. step_m.
    match goal with |- context [adjust_workers ?w1] =>
      destruct (adjust_workers_returns w1) as (w' & -> & Ho) end.
    apply outside_pool_fields in Ho as (H1 & H2 & H3 & _).
    exists w'. split; [done|]. cbn in *. rewrite H1, H2.
    split; [done|]. split; [lia|].
    unfold hooks_of. rewrite H3, lookup_insert_eq. cbn. by rewrite Hf.
Qed.

(** ** Stopping workers and cancelling tasks *)

Arguments stop_worker : simpl never.
Arguments stop_worker_by : simpl never.
Arguments runs : simpl never.

Lemma Worker_stop_eq (w : World) (k : wref) (wk : Worker) :
  worker_heap w !! k = Some wk →
  Worker_stop k w =
    Returns tt (set_worker_heap (<[k := stop_requested wk]> (worker_heap w)) w).
Proof.
  intros Hk. unfold Worker_stop, Worker_stop_by, stop_requested. step_m.
  unfold get_worker at 1. rewrite Hk. cbn.
  destruct (alive wk) eqn:Ha; cbn.
  - unfold PyThreadState_SetAsyncExc. rewrite Hk, Ha. cbn.
    unfold get_worker. cbn. rewrite lookup_insert_eq. step_m.
    unfold set_worker_heap. cbn. by rewrite insert_insert_eq.
  - rewrite insert_id by done. by destruct w.
Qed.

(** A Worker that stops itself: the SystemExit is raised inside [stop],
    before the shutdown flag is set. *)
Lemma Worker_stop_self (w : World) (me : wref) (k : Worker) :
  worker_heap w !! me = Some k → alive k = true →
  Worker_stop_by (Some me) me w =
    Raises SystemExit
      (set_worker_heap (<[me := Worker_set_pending_exit true k]> (worker_heap w)) w).
Proof.
  intros Hk Ha. unfold Worker_stop_by, async_exc. step_m.
  unfold get_worker at 1. rewrite Hk. cbn. rewrite Ha. cbn.
  unfold PyThreadState_SetAsyncExc. rewrite Hk, Ha. cbn.
  unfold get_worker. cbn. rewrite lookup_insert_eq. done.
Qed.

Lemma stop_worker_registered (w : World) (nm : string) (k : wref) (wk : Worker) :
  workers w !! nm = Some k → worker_heap w !! k = Some wk →
  ∃ w', stop_worker [nm] w = Returns tt w' ∧
        workers w' = delete nm (workers w) ∧
        _remain_workers w' = (_remain_workers w + 1)%Z ∧
        worker_heap w' = <[k := stop_requested wk]> (worker_heap w) ∧
        outside_pool w' = outside_pool w.
Proof.
  intros Hn Hk. unfold stop_worker, stop_worker_by. cbn [for_each]. step_m.
  rewrite Hn. step_m.
  erewrite (Worker_stop_eq _ k wk) by (cbn; exact Hk). cbn.
  eexists. split; [reflexivity|]. cbn. auto.
Qed.

Lemma stop_worker_unregistered (w : World) (nm : string) :
  workers w !! nm = None →
  stop_worker [nm] w = Returns tt (set_workers (delete nm (workers w)) w).
Proof.
  intros Hn. unfold stop_worker, stop_worker_by. cbn [for_each]. step_m.
  by rewrite Hn.
Qed.

(** [stop_worker] called by a registered Worker on its own name does not
    return. *)
Lemma stop_worker_self (w : World) (nm : string) (me : wref) (k : Worker) :
  workers w !! nm = Some me → worker_heap w !! me = Some k → alive k = true →
  ∃ w', stop_worker_by (Some me) [nm] w = Raises SystemExit w' ∧
        workers w' = delete nm (workers w) ∧
        _remain_workers w' = (_remain_workers w + 1)%Z ∧
        worker_heap w' = <[me := Worker_set_pending_exit true k]> (worker_heap w) ∧
        outside_pool w' = outside_pool w.
Proof.
  intros Hn Hk Ha. unfold stop_worker_by. cbn [for_each]. step_m.
  rewrite Hn. step_m.
  erewrite (Worker_stop_self _ me k) by (cbn; eassumption). cbn.
  eexists. split; [reflexivity|]. cbn. auto.
Qed.

Lemma cancel_task_queued (w : World) (task : tref) :
  task ∈ tasks w →
  cancel_task task w =
    Returns tt (set_not_full_notified (S (not_full_notified w))
                  (set_tasks (list_remove task (tasks w)) w)).
Proof.
  intros Hin. unfold cancel_task. step_m. by rewrite decide_True.
Qed.

Lemma cancel_task_executing (w : World) (task : tref) (x : Task) (f : Future)
    (k : wref) (wk : Worker) :
  task ∉ tasks w →
  task_heap w !! task = Some x → base x = Some f →
  worker x = Some k → worker_heap w !! k = Some wk →
  workers w !! name wk = Some k → is_terminal (_state f) = false →
  ∃ w', cancel_task task w = Returns tt w' ∧
        workers w' = delete (name wk) (workers w) ∧
        _remain_workers w' = (_remain_workers w + 1)%Z ∧
        worker_heap w' = <[k := stop_requested wk]> (worker_heap w) ∧
        outside_pool w' = outside_pool w.
Proof.
  intros Hin Hx Hf Hw Hk Hreg Hp. unfold cancel_task. step_m.
  rewrite decide_False by done. unfold get_task. rewrite Hx. cbn. rewrite Hw.
  unfold done, mbind, M_bind. rewrite (get_base_eq w task x f Hx Hf). cbn.
  rewrite Hp. cbn. unfold get_worker. rewrite Hk. cbn.
  apply stop_worker_registered; assumption.
Qed.

Lemma Future_cancel_pending (w : World) (t : tref) (x : Task) (f : Future) :
  task_heap w !! t = Some x → base x = Some f → _state f = PENDING →
  ∃ w', Future_cancel t w = Returns true w' ∧
        outside_hooks w' =
          outside_hooks (set_task_heap (<[t := Task_set_base (Some
            {| _state := CANCELLED; _result := _result f;
               _exception := _exception f;
               _done_callbacks := _done_callbacks f |}) x]> (task_heap w)) w).
Proof.
  intros Hx Hf Hp. unfold Future_cancel, mbind, M_bind.
  rewrite (get_base_eq w t x f Hx Hf), Hp. cbn.
  rewrite (put_base_eq w t x _ Hx).
  erewrite invoke_callbacks_eq; [| cbn; apply lookup_insert_eq | cbn; reflexivity].
  cbn [_done_callbacks].
  match goal with |- context [for_each ?hs ?b ?w1] =>
    destruct (hooks_run hs t w1) as (w' & -> & Hs & Ho) end.
  exists w'. split; [done | exact Ho].
Qed.

Lemma outside_hooks_fields (w w' : World) :
  outside_hooks w' = outside_hooks w →
  tasks w' = tasks w ∧ pool w' = pool w ∧ task_heap w' = task_heap w ∧
  worker_heap w' = worker_heap w ∧ lifecycle w' = lifecycle w ∧
  event_bus w' = event_bus w ∧ not_full_notified w' = not_full_notified w.
Proof. unfold outside_hooks. intros H. repeat split; congruence. Qed.

(** C3 as stated fails.  [cancel_task] takes the queued task of
    [submitted_one] out of the queue and leaves it pending, with the permit
    it holds; it deregisters the Worker that waits for the coroutine of
    [awaiting_coroutine] and leaves the task pending and its handle
    uncancelled. *)
Lemma cancel_task_leaves_the_task_pending :
  (∃ w', cancel_task 0 submitted_one = Returns tt w' ∧
         tasks w' = [] ∧
         state_of w' 0 = Some PENDING ∧
         _semaphore w' = 0%Z) ∧
  (∃ w', cancel_task 0 awaiting_coroutine = Returns tt w' ∧
         workers w' = ∅ ∧
         state_of w' 0 = Some PENDING ∧
         future_of w' 0 = Some HPending).
Proof.
  split.
  - exists (world_of (cancel_task 0 submitted_one)). vm_compute. repeat split.
  - exists (world_of (cancel_task 0 awaiting_coroutine)). vm_compute. repeat split.
Qed.

(** C3, as amended.  [cancel_task] by itself takes a task that is still in
    the queue out of it (its first occurrence) and notifies [not_full]
    once, the registry, the slot counter and the Worker objects being
    untouched; for a task that is not in the queue, has a registered Worker
    and is not done, it takes that Worker out of the registry, releases its
    slot and requests a stop of its thread.  In both cases it leaves the
    Task object as it is: the state and the async handle change only when
    the task is cancelled through [Task.cancel], which hands the task to
    [cancel_task], then cancels the handle, then the future.  Through
    [Task.cancel] a pending task ends in the cancelled state, and a handle
    that has not completed ends cancelled. *)
Theorem Task_cancel_cancels (w : World) (task : tref) (x : Task) (f : Future) :
  task_heap w !! task = Some x → dispatcher x = true → base x = Some f →
  (task ∈ tasks w →
     (∃ w1, cancel_task task w = Returns tt w1 ∧
            tasks w1 = list_remove task (tasks w) ∧
            pool w1 = pool w ∧ worker_heap w1 = worker_heap w ∧
            not_full_notified w1 = S (not_full_notified w) ∧
            task_heap w1 = task_heap w) ∧
     (_state f = PENDING →
        ∃ w', Task_cancel task w = Returns true w' ∧
              tasks w' = list_remove task (tasks w) ∧
              pool w' = pool w ∧ worker_heap w' = worker_heap w ∧
              not_full_notified w' = S (not_full_notified w) ∧
              state_of w' task = Some CANCELLED)) ∧
  (task ∉ tasks w →
     ∀ k wk, worker x = Some k → worker_heap w !! k = Some wk →
       workers w !! name wk = Some k → is_terminal (_state f) = false →
       (∃ w1, cancel_task task w = Returns tt w1 ∧
              workers w1 = delete (name wk) (workers w) ∧
              _remain_workers w1 = (_remain_workers w + 1)%Z ∧
              worker_heap w1 = <[k := stop_requested wk]> (worker_heap w) ∧
              tasks w1 = tasks w ∧
              task_heap w1 = task_heap w) ∧
       (∃ b w', Task_cancel task w = Returns b w' ∧
                workers w' = delete (name wk) (workers w) ∧
                _remain_workers w' = (_remain_workers w + 1)%Z ∧
                worker_heap w' !! k = Some (stop_requested wk) ∧
                future_of w' task =
                  match future x with
                  | Some HFinished => Some HFinished
                  | Some _ => Some HCancelled
                  | None => None
                  end ∧
                (_state f = PENDING →
                   b = true ∧ state_of w' task = Some CANCELLED) ∧
                tasks w' = tasks w)).
Proof.
  intros Hx Hd Hf. split.
  - intros Hin. split.
    + rewrite (cancel_task_queued w task Hin). eexists. split; [reflexivity|]. by cbn.
    + intros Hp. unfold Task_cancel, mbind, M_bind. unfold get_task at 1. rewrite Hx, Hd.
      rewrite (cancel_task_queued w task Hin). cbn.
      unfold get_task at 1. cbn. rewrite Hx.
      set (w1 := set_not_full_notified _ _).
      set (x2 := match future x with Some h => Task_set_future (Some (handle_cancel h)) x | None => x end).
      assert (H2 : ∃ w2, match future x with
                | Some h => put_task task (Task_set_future (Some (handle_cancel h)) x)
                | None => mret tt end w1 = Returns tt w2 ∧
                outside_hooks w2 = outside_hooks (set_task_heap (<[task := x2]> (task_heap w1)) w1)).
      { subst x2. destruct (future x); step_m; eexists; (split; [reflexivity|]); [done|].
        subst w1. cbn. rewrite insert_id by done. done. }
      destruct H2 as (w2 & -> & Ho2).
      apply outside_hooks_fields in Ho2 as (T2 & P2 & H2 & W2 & L2 & E2 & N2).
      destruct (Future_cancel_pending w2 task x2 f) as (w3 & -> & Ho3).
      { rewrite H2. cbn. apply lookup_insert_eq. }
      { subst x2. by destruct (future x). }
      { exact Hp. }
      apply outside_hooks_fields in Ho3 as (T3 & P3 & H3 & W3 & L3 & E3 & N3).
      exists w3. split; [done|].
      assert (tasks w3 = list_remove task (tasks w)) as -> by (etrans; [exact T3 | exact T2]).
      assert (pool w3 = pool w) as -> by (etrans; [exact P3 | exact P2]).
      assert (worker_heap w3 = worker_heap w) as -> by (etrans; [exact W3 | exact W2]).
      assert (not_full_notified w3 = S (not_full_notified w)) as ->
        by (etrans; [exact N3 | exact N2]).
      repeat (split; [done|]).
      unfold state_of. rewrite H3. cbn. by rewrite lookup_insert_eq.
  - intros Hin k wk Hw Hk Hreg Hp.
    destruct (cancel_task_executing w task x f k wk Hin Hx Hf Hw Hk Hreg Hp)
      as (w1 & E1 & Hws & Hrem & Hwh & Ho).
    apply outside_pool_fields in Ho as (T1 & S1 & H1 & _).
    split.
    { exists w1. repeat (split; [assumption|]). assumption. }
    unfold Task_cancel, mbind, M_bind. unfold get_task at 1. rewrite Hx, Hd, E1.
    unfold get_task at 1. rewrite H1, Hx.
    set (x2 := match future x with Some h => Task_set_future (Some (handle_cancel h)) x | None => x end).
    assert (H2 : ∃ w2, match future x with
                | Some h => put_task task (Task_set_future (Some (handle_cancel h)) x)
                | None => mret tt end w1 = Returns tt w2 ∧
                outside_hooks w2 = outside_hooks (set_task_heap (<[task := x2]> (task_heap w1)) w1)).
    { subst x2. destruct (future x); step_m; eexists; (split; [reflexivity|]); [done|].
      unfold outside_hooks. cbn. rewrite insert_id; [done | by rewrite H1]. }
    destruct H2 as (w2 & -> & Ho2).
    apply outside_hooks_fields in Ho2 as (T2 & P2 & H2 & W2 & L2 & E2 & N2).
    assert (Hx2 : task_heap w2 !! task = Some x2). { rewrite H2. cbn. by rewrite lookup_insert_eq. }
    assert (Hf2 : base x2 = Some f) by (subst x2; by destruct (future x)).
    assert (Hfut : future x2 = match future x with
                               | Some HFinished => Some HFinished
                               | Some _ => Some HCancelled
                               | None => None
                               end).
    { subst x2. destruct (future x) as [[]|] eqn:E; cbn; [done..|by rewrite E]. }
    assert (Hfin : ∃ b w3, Future_cancel task w2 = Returns b w3 ∧
              pool w3 = pool w2 ∧ worker_heap w3 = worker_heap w2 ∧ tasks w3 = tasks w2 ∧
              future_of w3 task = future x2 ∧
              (_state f = PENDING → b = true ∧ state_of w3 task = Some CANCELLED)).
    { destruct (_state f) eqn:Hs; try discriminate.
      - destruct (Future_cancel_pending w2 task x2 f Hx2 Hf2 Hs) as (w3 & -> & Ho3).
        apply outside_hooks_fields in Ho3 as (T3 & P3 & H3 & W3 & _).
        exists true, w3. split; [done|].
        split; [exact P3|]. split; [exact W3|]. split; [exact T3|].
        unfold future_of, state_of. rewrite H3. cbn. by rewrite lookup_insert_eq.
      - exists false, w2. unfold Future_cancel, mbind, M_bind.
        rewrite (get_base_eq w2 task x2 f Hx2 Hf2), Hs. repeat (split; [done|]).
        unfold future_of. rewrite Hx2. split; [done|]. intros; discriminate. }
    destruct Hfin as (b & w3 & -> & P3 & W3 & T3 & F3 & C3).
    exists b, w3. split; [done|].
    assert (P31 : pool w3 = pool w1) by (etrans; [exact P3 | exact P2]).
    assert (W31 : worker_heap w3 = worker_heap w1) by (etrans; [exact W3 | exact W2]).
    assert (T31 : tasks w3 = tasks w1) by (etrans; [exact T3 | exact T2]).
    unfold pool in P31.
    split; [congruence|]. split; [congruence|].
    split; [rewrite W31, Hwh; apply lookup_insert_eq|].
    split; [congruence|]. split; [exact C3|]. congruence.
Qed.

(** ** Errors of the callable *)




Lemma runnable_fields (k : Worker) :
  runnable k = true →
  alive k = true ∧ pending_exit k = false ∧
  w_trace k && negb (_awaken k) = false ∧ w_trace k && w_shutdown k = false.
Proof.
  unfold runnable. destruct (alive k), (pending_exit k), (w_trace k),
    (_awaken k), (w_shutdown k); cbn; intros; done.
Qed.

(** A runnable thread that runs is neither ended nor held back. *)
Lemma runs_runnable (w : World) (me : wref) (k : Worker) :
  worker_heap w !! me = Some k → runnable k = true → runs me w = Returns tt w.
Proof.
  intros Hk (Ha & Hp & Ht1 & Ht2)%runnable_fields.
  unfold runs, async_exc, _localtrace, mbind, M_bind, get_worker.
  rewrite Hk. cbn. rewrite Hp. cbn. rewrite Hk. cbn.
  destruct (w_trace k); [|done]. cbn in Ht1, Ht2. rewrite Hk. cbn.
  apply negb_false_iff in Ht1. by rewrite Ht1, Ht2.
Qed.

(** The stretch a runnable thread executes next. *)
Lemma Worker_step_runnable behaviour (w : World) (me : wref) (k : Worker) :
  worker_heap w !! me = Some k → runnable k = true →
  Worker_step behaviour me w =
    try_except
      (match at_ k with
       | AtLoopHead =>
           go_on ← Worker_fetch me;
           if go_on : bool then mret tt else Worker_exit me
       | Holding task => Worker_execute behaviour me task
       | Awaiting task => Worker_await behaviour me task
       | Paused =>
           awaken_wait me;;
           go_on ← Worker_dequeue me false;
           if go_on : bool then mret tt else Worker_exit me
       | Polling =>
           go_on ← Worker_dequeue me true;
           if go_on : bool then mret tt else Worker_exit me
       | HeldBack p => awaken_wait me;; set_position me p
       end)
      (λ e, Worker_exit me;; raise e) w.
Proof.
  intros Hk Hrun. pose proof (runs_runnable w me k Hk Hrun) as Hruns.
  apply runnable_fields in Hrun as (Ha & _).
  assert (Hgo : ∀ (c : M unit), (runs me;; c) w = c w).
  { intros c. unfold mbind, M_bind. by rewrite Hruns. }
  unfold Worker_step. unfold mbind, M_bind at 1. unfold get_worker at 1.
  rewrite Hk, Ha. cbn [negb].
  unfold try_except.
  destruct (at_ k); rewrite ?Hgo; try reflexivity.
  unfold awaken_wait, get_worker. unfold mbind, M_bind. rewrite Hk.
  destruct (_awaken k); cbn [mret M_ret block]; [|reflexivity].
  by rewrite Hruns.
Qed.



(** ** The idle wait *)

(** What the first [try] does when the wait inside [get] is over, the queue
    is still empty, and the Worker is registered under its name. *)
Lemma Worker_dequeue_empty (w : World) (me : wref) (k : Worker) :
  worker_heap w !! me = Some k → alive k = true → tasks w = [] →
  workers w !! name k = Some me →
  ∃ w', Worker_dequeue me true w = Raises SystemExit w' ∧
        workers w' = delete (name k) (workers w) ∧
        _remain_workers w' = (_remain_workers w + 1)%Z ∧
        worker_heap w' =
          <[me := Worker_set_pending_exit true (Worker_set_waited idle_wait k)]>
            (worker_heap w) ∧
        outside_pool w' = outside_pool w.
Proof.
  intros Hk Ha Hq Hreg.
  set (k1 := Worker_set_waited idle_wait k).
  set (w1 := set_worker_heap (<[me := k1]> (worker_heap w)) w).
  destruct (stop_worker_self w1 (name k) me k1) as (w2 & E2 & Hws & Hrem & Hwh & Ho).
  { exact Hreg. }
  { subst w1. cbn. apply lookup_insert_eq. }
  { exact Ha. }
  exists w2.
  unfold Worker_dequeue. unfold mbind, M_bind at 1. unfold get_worker at 1. rewrite Hk.
  unfold try_except. unfold mbind, M_bind at 1. unfold tasks_get. rewrite Hq, Hk.
  fold k1. fold w1. unfold mbind, M_bind. rewrite E2.
  split; [reflexivity|]. split; [exact Hws|]. split; [exact Hrem|].
  split; [|exact Ho].
  rewrite Hwh. subst w1. cbn. apply insert_insert_eq.
Qed.



(** ** Construction of a Task *)

Lemma Task_init_truthy_callback (w : World) (func args kwargs callback : pyval) :
  truthy callback = true →
  Task_init func args kwargs callback w =
    Raises AttributeError
      (set_task_heap
         (<[next_task w :=
              {| func := func; args := py_or args (VList []);
                 kwargs := py_or kwargs (VDict []); callback := callback;
                 dispatcher := false; worker := None; future := None;
                 base := None |}]> (task_heap w))
         (set_next_task (S (next_task w)) w)).
Proof.
  intros Hc. unfold Task_init. step_m. rewrite Hc.
  unfold add_done_callback, get_base, get_task. step_m.
  rewrite lookup_insert_eq. done.
Qed.

Lemma Task_init_no_callback (w : World) (func args kwargs callback : pyval) :
  truthy callback = false →
  Task_init func args kwargs callback w =
    Returns (next_task w)
      (set_task_heap
         (<[next_task w :=
              {| func := func; args := py_or args (VList []);
                 kwargs := py_or kwargs (VDict []); callback := callback;
                 dispatcher := false; worker := None; future := None;
                 base := Some Future_init |}]> (task_heap w))
         (set_next_task (S (next_task w)) w)).
Proof.
  intros Hc. unfold Task_init. step_m. rewrite Hc. step_m.
  unfold put_base, get_task. step_m. rewrite lookup_insert_eq. step_m.
  unfold set_task_heap. cbn. by rewrite insert_insert_eq.
Qed.

(** A descriptor without a callback (absent, [None], or any falsy value) is
    normalized as the specification says. *)
Lemma make_task_without_callback (d : gmap string pyval) (w : World) :
  truthy (dict_get d "callback" VNone) = false →
  ∃ w' x, make_task (IsDict d) w = Returns (next_task w) w' ∧
          task_heap w' !! next_task w = Some x ∧
          func x = dict_get d "func" VNone ∧
          args x = py_or (positional_of d) (VList []) ∧
          kwargs x = keyword_of d ∧
          base x = Some Future_init.
Proof.
  intros Hc. unfold make_task. rewrite (Task_init_no_callback _ _ _ _ _ Hc).
  eexists _, _. split; [reflexivity|]. cbn. rewrite lookup_insert_eq.
  split; [reflexivity|]. cbn. split; [done|].
  unfold positional_of, keyword_of, dict_get.
  split; [|split; [|done]].
  - destruct (d !! "args") as [v|]; cbn; [|done].
    destruct (is_list_or_tuple v); cbn; done.
  - destruct (d !! "kwargs") as [[]|]; cbn; try done.
    unfold py_or. destruct (truthy _); cbn; try done.
    destruct kvs; cbn in *; done.
Qed.

Lemma make_task_passes_task (t : tref) (w : World) :
  make_task (IsTask t) w = Returns t w.
Proof. reflexivity. Qed.

(** C2.  The code does not fire the completion callback of a Task
    constructed with one.  [Task.__init__] calls [add_done_callback] before
    [Future.__init__] has created the attributes it reads, so for every
    truthy callback the construction raises AttributeError: the callback is
    not among the done-callbacks of the half-built object and it has not
    been called. *)
Theorem callback_is_lost (w : World) (func args kwargs callback : pyval) :
  truthy callback = true →
  ∃ w', Task_init func args kwargs callback w = Raises AttributeError w' ∧
        hooks_of w' (next_task w) = [] ∧
        callback_log w' = callback_log w.
Proof.
  intros Hc. rewrite (Task_init_truthy_callback _ _ _ _ _ Hc).
  eexists. split; [reflexivity|]. unfold hooks_of. cbn.
  by rewrite lookup_insert_eq.
Qed.

(** C7.  The code at a descriptor that has a callback: with
    [{func: f, args: 5, callback: g}] [make_task] raises AttributeError and
    returns no Task, where the specification has a Task with positional
    arguments [[5]].  ([make_task_without_callback] and [make_task_passes_task] are
    what holds: descriptors without a callback, and Tasks.) *)
Theorem make_task_args_with_callback :
  ∃ w', make_task (IsDict {[ "func" := VFunc 0; "args" := VInt 5;
                             "callback" := VFunc 1 ]}) started_one
        = Raises AttributeError w'.
Proof. eexists. vm_compute. reflexivity. Qed.

(** C9.  The code at a descriptor that has a callback and a [kwargs] value
    that is not a dict: with [{func: f, kwargs: 5, callback: g}] [make_task]
    raises AttributeError, where the specification has no error and a Task
    with empty keyword arguments.  ([make_task_without_callback] is what holds: without
    a callback the value is dropped and the keyword arguments are empty.) *)
Theorem make_task_kwargs_with_callback :
  ∃ w', make_task (IsDict {[ "func" := VFunc 0; "kwargs" := VInt 5;
                             "callback" := VFunc 1 ]}) started_one
        = Raises AttributeError w'.
Proof. eexists. vm_compute. reflexivity. Qed.

(** ** The [running] property *)

(** C8, as stated, fails: right after one task has been submitted to a
    started Dispatcher with one slot, [running] is 2 (the slot taken by the
    Worker spawned for it, plus the queued task) while one task is in flight
    or queued. *)
Lemma running_counts_the_worker_too :
  running submitted_one = 2%Z ∧
  in_flight_or_queued submitted_one = 1%Z ∧
  running submitted_one ≠ in_flight_or_queued submitted_one.
Proof. vm_compute. repeat split; discriminate. Qed.

(** C8, amended.  In every world reached from a new Dispatcher by calls
    that ask [create_worker] for no more Workers than there are free slots,
    [running] is the number of registered Workers plus the number of queued
    tasks; the number of registered Workers is at most [max_workers]. *)
Theorem running_is_workers_plus_queue behaviour (n : Z) (tr : bool) (w0 : World)
    (os : list op) :
  Dispatcher_init n tr = Ok w0 →
  fits_all behaviour os w0 = true →
  let w := after_all behaviour os w0 in
  running w = (Z.of_nat (size (workers w)) + Z.of_nat (length (tasks w)))%Z ∧
  (Z.of_nat (size (workers w)) ≤ max_workers w)%Z.
Proof.
  intros Hinit Hfit w.
  assert (HI : pool_inv w).
  { apply after_all_pool; [exact Hfit|]. by eapply Dispatcher_init_pool. }
  destruct HI as (Hsz & Hpos & _). unfold running. lia.
Qed.

(** ** The shutdown flag *)

Lemma set_shutdown_true_keeps :
  preserves (keeps (λ w, _shutdown w = true)) (modify (set_shutdown true)).
Proof. intros w _. reflexivity. Qed.

#[export] Hint Resolve set_shutdown_true_keeps : preserves.

Lemma exec_shutdown_stays behaviour (o : op) :
  preserves (keeps (λ w, _shutdown w = true)) (exec behaviour o).
Proof. destruct o; cbn [exec]; preserve. Qed.

Lemma after_all_shutdown_stays behaviour (os : list op) (w : World) :
  _shutdown w = true → _shutdown (after_all behaviour os w) = true.
Proof.
  revert w. induction os as [|o os IH]; intros w H; [exact H|].
  cbn. apply IH. by apply (exec_shutdown_stays behaviour o w).
Qed.

Lemma after_all_app behaviour (os1 os2 : list op) (w : World) :
  after_all behaviour (os1 ++ os2) w =
  after_all behaviour os2 (after_all behaviour os1 w).
Proof. unfold after_all. apply foldl_app. Qed.

(** Once [stop] has returned, from any world whatever, the Dispatcher is
    never running again. *)
Lemma stop_returned_is_final behaviour (w w' : World) (os : list op)
    (task : tref) (timeout : option Z) :
  stop w = Returns tt w' →
  let w'' := after_all behaviour os w' in
  is_running w'' = false ∧
  submit_task task timeout w'' =
    Raises (AssertionError "dispatcher is not running") w'' ∧
  create_future task w'' =
    Raises (AssertionError "dispatcher is not running") w'' ∧
  (∀ i, _shutdown (after_all behaviour (take i os) w') = true →
        _shutdown w'' = true).
Proof.
  intros Hstop w''.
  assert (Hnot : is_running w'' = false).
  { apply stopping_not_running, after_all_stopping. by eapply stop_stopping. }
  split; [exact Hnot|]. split; [|split].
  - unfold submit_task. step_m. by rewrite Hnot.
  - unfold create_future. step_m. by rewrite Hnot.
  - intros i Hi. subst w''. rewrite <- (take_drop i os), after_all_app.
    by apply after_all_shutdown_stays.
Qed.

(** ** Concrete runs *)

Lemma submit_task_permit_witness :
  ∃ w', submit_task 0 None with_task = Returns 0 w' ∧
        _semaphore w' = 0%Z ∧
        hooks_of w' 0 = [ReleasePermit].
Proof.
  edestruct (submit_task_permit with_task 0 None) as [_ H].
  - vm_compute. reflexivity.
  - vm_compute. reflexivity.
  - vm_compute. reflexivity.
  - destruct H as (_ & H & _); [done|].
    destruct H as (w' & E & _ & Hs & Hh & _).
    + vm_compute. reflexivity.
    + vm_compute. reflexivity.
    + exists w'. split; [exact E|]. split; [exact Hs | exact Hh].
Defined.

Lemma callback_is_lost_witness :
  ∃ w', Task_init (VFunc 0) VNone VNone (VFunc 1) started_one
          = Raises AttributeError w' ∧
        callback_log w' = [].
Proof.
  destruct (callback_is_lost started_one (VFunc 0) VNone VNone (VFunc 1) eq_refl)
    as (w' & E & _ & Hl).
  exists w'. split; [exact E | exact Hl].
Defined.

Lemma Task_cancel_cancels_witness :
  (∃ w', Task_cancel 0 submitted_one = Returns true w' ∧
         tasks w' = [] ∧ state_of w' 0 = Some CANCELLED) ∧
  (∃ b w', Task_cancel 0 awaiting_coroutine = Returns b w' ∧
           workers w' = ∅ ∧ _remain_workers w' = 1%Z ∧
           future_of w' 0 = Some HCancelled ∧
           state_of w' 0 = Some CANCELLED).
Proof.
  split.
  - edestruct (Task_cancel_cancels submitted_one 0) as [H _].
    + vm_compute. reflexivity.
    + vm_compute. reflexivity.
    + vm_compute. reflexivity.
    + destruct H as [_ H]; [vm_compute; apply list_elem_of_here|].
      destruct H as (w' & E & Ht & _ & _ & _ & Hs); [vm_compute; reflexivity|].
      exists w'. split; [exact E|]. split; [exact Ht | exact Hs].
  - edestruct (Task_cancel_cancels awaiting_coroutine 0) as [_ H].
    + vm_compute. reflexivity.
    + vm_compute. reflexivity.
    + vm_compute. reflexivity.
    + edestruct (H ltac:(vm_compute; apply not_elem_of_nil) 0)
        as (_ & b & w' & E & Hw & Hr & _ & Hh & Hs & _).
      * vm_compute. reflexivity.
      * vm_compute. reflexivity.
      * vm_compute. reflexivity.
      * vm_compute. reflexivity.
      * exists b, w'. split; [exact E|].
        split; [rewrite Hw; vm_compute; reflexivity|].
        split; [exact Hr|]. split; [exact Hh|].
        apply Hs. vm_compute. reflexivity.
Defined.



Lemma running_is_workers_plus_queue_witness :
  running (after_all quiet
             [Start; NewTask (VFunc 0) VNone VNone VNone; SubmitTask 0 None]
             (Dispatcher_fields 1 false)) = (1 + 1)%Z.
Proof.
  edestruct (running_is_workers_plus_queue quiet 1 false (Dispatcher_fields 1 false)
               [Start; NewTask (VFunc 0) VNone VNone VNone; SubmitTask 0 None])
    as [H _].
  - reflexivity.
  - vm_compute. reflexivity.
  - etrans; [exact H|]. vm_compute. reflexivity.
Defined.

(** ** More workers than slots *)

Lemma for_range_add (a b : nat) (body : M unit) (w : World) :
  for_range (a + b) body w = (for_range a body;; for_range b body) w.
Proof.
  revert w. induction a as [|a IH]; intros w; cbn [Nat.add for_range].
  - reflexivity.
  - unfold mbind, M_bind. destruct (body w) as [[] w1|e w1|w1]; [|done|done].
    apply IH.
Qed.

Lemma create_one_worker_blocks (w : World) :
  (_remain_workers w ≤ 0)%Z →
  ∃ w', create_one_worker w = Blocks w' ∧
        workers w' = <[worker_name (_counter w) := _counter w]> (workers w) ∧
        max_workers w' = max_workers w ∧
        ∃ k, worker_heap w' !! _counter w = Some k ∧ alive k = true.
Proof.
  intros Hr. unfold create_one_worker. step_m.
  unfold get_worker; cbn. rewrite lookup_insert_eq. step_m.
  unfold acquire; cbn.
  destruct (0 <? _remain_workers w)%Z eqn:E; [apply Z.ltb_lt in E; lia|].
  eexists. split; [reflexivity|]. cbn. rewrite lookup_insert_eq. eauto.
Qed.

(** C6.  The code lets the registry grow past [max_workers]: when
    [create_worker] is asked for more Workers than there are free slots, it
    fills the free slots, then registers and starts one Worker more and only
    then waits for a slot, so the caller is suspended in a world whose
    registry holds [max_workers + 1] Workers. *)
Theorem create_worker_beyond_slots (w : World) (size : Z) :
  pool_inv w → (_remain_workers w < size)%Z →
  ∃ w', create_worker size w = Blocks w' ∧
        max_workers w' = max_workers w ∧
        Z.of_nat (stdpp.base.size (workers w')) = (max_workers w + 1)%Z.
Proof.
  intros HI Hlt. pose proof HI as (_ & Hpos & _).
  set (r := Z.to_nat (_remain_workers w)).
  assert (Hsplit : Z.to_nat size = r + S (Z.to_nat size - r - 1)) by lia.
  unfold create_worker. rewrite Hsplit, for_range_add.
  destruct (create_worker_fits r w HI) as (w1 & E1 & HI1 & Hr1 & Ho1); [lia|].
  unfold mbind, M_bind at 1. rewrite E1. cbn [for_range].
  destruct (create_one_worker_blocks w1) as (w2 & E2 & Hws & Hmax & _); [lia|].
  unfold mbind, M_bind. rewrite E2.
  exists w2. split; [done|].
  assert (Hm1 : max_workers w1 = max_workers w) by (unfold outside_pool in Ho1; congruence).
  split; [congruence|].
  destruct HI1 as (Hsz1 & _ & Hnm1).
  assert (Hfresh : workers w1 !! worker_name (_counter w1) = None).
  { destruct (workers w1 !! worker_name (_counter w1)) as [k|] eqn:E; [|done].
    destruct (Hnm1 _ _ E) as (n & Hn%worker_name_inj & Hl). lia. }
  rewrite Hws, map_size_insert_None by done. lia.
Qed.

Lemma create_worker_beyond_slots_witness :
  ∃ w, create_worker 2 started_one = Blocks w ∧
       max_workers w = 1%Z ∧
       size (workers w) = 2 ∧
       length (live_workers w) = 2.
Proof.
  destruct (create_worker_beyond_slots started_one 2) as (w & E & Hm & Hs).
  - split; [vm_compute; reflexivity|]. split; [vm_compute; discriminate|].
    intros nm k Hl. vm_compute in Hl. discriminate.
  - vm_compute. reflexivity.
  - exists w. split; [exact E|]. split; [exact Hm|].
    assert (Hw : Blocks w = create_worker 2 started_one) by (symmetry; exact E).
    vm_compute in Hw. injection Hw as ->. vm_compute. auto.
Defined.

(** ** The Dispatcher in order *)

Lemma run_handles_flags (hs : list handle) (w : World) :
  ∃ w', for_each hs run_handle w = Returns tt w' ∧ loop w' = loop w ∧
        (_shutdown w = true → _shutdown w' = true).
Proof.
  revert w. induction hs as [|[] hs IH]; intros w.
  - by exists w.
  - cbn. step_m. destruct (IH (set_shutdown true w)) as (w' & E & Hl & Hs).
    exists w'. split; [exact E|]. split; [exact Hl|]. intros _. by apply Hs.
Qed.

Lemma run_closed : preserves (keeps closed_after_shutdown) run.
Proof.
  intros w H. unfold run. step_m.
  destruct (loop_closed (loop w)) eqn:Ec; [exact H|].
  destruct (loop_running (loop w)); [exact H|].
  unfold run_ready. step_m.
  destruct (run_handles_flags (ready (loop w)) (set_loop (set_ready [] (loop w)) w))
    as (w1 & -> & Hl & Hs).
  cbn. destruct (_shutdown w1) eqn:E1; cbn.
  - intros _. exact E1.
  - intros Hc. discriminate.
Qed.

Lemma loop_tick_closed : preserves (keeps closed_after_shutdown) loop_tick.
Proof.
  intros w H. unfold loop_tick. step_m.
  destruct (loop_running (loop w)); [|exact H].
  unfold run_ready. step_m.
  destruct (run_handles_flags (ready (loop w)) (set_loop (set_ready [] (loop w)) w))
    as (w1 & -> & Hl & Hs).
  cbn. destruct (_shutdown w1 && main_waiting (loop w1)) eqn:E1; cbn.
  - intros _. by apply andb_prop in E1 as [? _].
  - unfold closed_after_shutdown. rewrite Hl. cbn. intros Hc. apply Hs, H, Hc.
Qed.

Lemma call_soon_closed (h : handle) :
  preserves (keeps closed_after_shutdown) (call_soon_threadsafe h).
Proof.
  intros w H. unfold call_soon_threadsafe. step_m.
  destruct (loop_closed (loop w)) eqn:Ec; [exact H|]. cbn.
  unfold closed_after_shutdown. cbn. by rewrite Ec.
Qed.

#[export] Hint Resolve run_closed loop_tick_closed call_soon_closed : preserves.

Lemma exec_closed behaviour (o : op) :
  preserves (keeps closed_after_shutdown) (exec behaviour o).
Proof. destruct o; cbn [exec]; preserve. Qed.

Lemma put_worker_allocated (k : wref) (x : Worker) :
  preserves (keeps registry_allocated) (put_worker k x).
Proof.
  intros w H nm k' Hl. cbn in *. destruct (decide (k = k')) as [->|Hne].
  - rewrite lookup_insert_eq. eauto.
  - rewrite lookup_insert_ne by done. by eapply H.
Qed.

Lemma tasks_get_allocated (timeout : Z) (me : wref) (elapsed : bool) :
  preserves (keeps registry_allocated) (tasks_get timeout me elapsed).
Proof.
  intros w H. unfold tasks_get. destruct (tasks w); [|exact H].
  destruct (worker_heap w !! me) eqn:E; [|by destruct elapsed].
  intros nm k' Hl. destruct elapsed; cbn in *; destruct (decide (me = k')) as [->|Hne].
  - rewrite lookup_insert_eq. eauto.
  - rewrite lookup_insert_ne by done. by eapply H.
  - rewrite lookup_insert_eq. eauto.
  - rewrite lookup_insert_ne by done. by eapply H.
Qed.

Lemma SetAsyncExc_allocated (tid : wref) (exc : bool) :
  preserves (keeps registry_allocated) (PyThreadState_SetAsyncExc tid exc).
Proof.
  intros w H. unfold PyThreadState_SetAsyncExc.
  destruct (worker_heap w !! tid) eqn:E; [|exact H].
  destruct (alive _); [|exact H].
  intros nm k' Hl. cbn in *. destruct (decide (tid = k')) as [->|Hne].
  - rewrite lookup_insert_eq. eauto.
  - rewrite lookup_insert_ne by done. by eapply H.
Qed.

#[export] Hint Resolve put_worker_allocated tasks_get_allocated
  SetAsyncExc_allocated : preserves.

Lemma Worker_stop_allocated (c : option wref) (k : wref) :
  preserves (keeps registry_allocated) (Worker_stop_by c k).
Proof. preserve. Qed.

Lemma stop_worker_by_allocated (c : option wref) (idents : list string) :
  preserves (keeps registry_allocated) (stop_worker_by c idents).
Proof.
  apply preserves_for_each; [apply _|]. intros ident w H.
  step_m.
  assert (H1 : registry_allocated (set_workers (delete ident (workers w)) w)).
  { intros nm k Hl. cbn in Hl. apply lookup_delete_Some in Hl as [_ Hl]. by eapply H. }
  destruct (workers w !! ident) as [k|]; cbn; [|exact H1].
  apply (Worker_stop_allocated c k). exact H1.
Qed.

Lemma stop_worker_allocated (idents : list string) :
  preserves (keeps registry_allocated) (stop_worker idents).
Proof. apply stop_worker_by_allocated. Qed.

Lemma create_one_worker_allocated :
  preserves (keeps registry_allocated) create_one_worker.
Proof.
  intros w H. unfold create_one_worker. step_m.
  unfold get_worker; cbn. rewrite lookup_insert_eq. step_m.
  assert (H1 : ∀ r, registry_allocated
    (set_remain_workers r
       (set_worker_heap
          (<[_counter w := Worker_set_alive true
               {| name := worker_name (_counter w); w_shutdown := false;
                  w_trace := trace w; _awaken := true; alive := false;
                  pending_exit := false; at_ := AtLoopHead; waited := 0 |}]>
             (worker_heap w))
          (set_workers (<[worker_name (_counter w) := _counter w]> (workers w))
             (set_counter (S (_counter w)) w))))).
  { intros r nm k. cbn. intros [[_ <-]|[_ Hl]]%lookup_insert_Some.
    - rewrite lookup_insert_eq. eauto.
    - destruct (decide (_counter w = k)) as [->|Hne].
      + rewrite lookup_insert_eq. eauto.
      + rewrite lookup_insert_ne by done. by eapply H. }
  unfold acquire; cbn. rewrite insert_insert_eq.
  destruct (0 <? _remain_workers w)%Z; cbn; [apply (H1 (_remain_workers w - 1)%Z)|].
  apply (H1 (_remain_workers w)).
Qed.

#[export] Hint Resolve stop_worker_by_allocated stop_worker_allocated
  create_one_worker_allocated : preserves.

Lemma exec_allocated behaviour (o : op) :
  preserves (keeps registry_allocated) (exec behaviour o).
Proof. destruct o; cbn [exec]; preserve. Qed.

Lemma for_each_cons {A} (x : A) (xs : list A) (body : A → M unit) (w : World) :
  for_each (x :: xs) body w = (for_each [x] body;; for_each xs body) w.
Proof.
  cbn [for_each]. unfold mbind, M_bind.
  destruct (body x w) as [[] w1|e w1|w1]; reflexivity.
Qed.

Lemma stop_worker_cons (ident : string) (rest : list string) (w : World) :
  stop_worker (ident :: rest) w = (stop_worker [ident];; stop_worker rest) w.
Proof. apply for_each_cons. Qed.



Lemma Dispatcher_init_in_order (n : Z) (tr : bool) (w : World) :
  Dispatcher_init n tr = Ok w → closed_after_shutdown w ∧ registry_allocated w.
Proof.
  unfold Dispatcher_init. destruct (n <? 0)%Z; [discriminate|]. intros [= <-].
  split; [intros Hc; discriminate | intros nm k Hl; cbn in Hl; by rewrite lookup_empty in Hl].
Qed.

Lemma after_all_in_order behaviour (os : list op) (w : World) :
  closed_after_shutdown w ∧ registry_allocated w →
  closed_after_shutdown (after_all behaviour os w) ∧
  registry_allocated (after_all behaviour os w).
Proof.
  revert w. induction os as [|o os IH]; intros w H; [exact H|].
  cbn. apply IH. destruct H as [Hc Ha]. split.
  - by apply exec_closed.
  - by apply exec_allocated.
Qed.



(** ** The stretches of [Worker.run] *)

Lemma Worker_dequeue_head (w : World) (me : wref) (k : Worker) (task : tref)
    (q : list tref) (x : Task) (elapsed : bool) :
  worker_heap w !! me = Some k → tasks w = task :: q → task_heap w !! task = Some x →
  Worker_dequeue me elapsed w =
    Returns true
      (set_worker_heap (<[me := Worker_set_at_ (Holding task) k]> (worker_heap w))
         (set_task_heap (<[task := Task_set_worker (Some me) x]> (task_heap w))
            (set_tasks q w))).
Proof.
  intros Hk Hq Hx.
  unfold Worker_dequeue. unfold mbind, M_bind at 1. unfold get_worker at 1. rewrite Hk.
  unfold try_except. unfold mbind, M_bind at 1. unfold tasks_get. rewrite Hq.
  unfold mbind, M_bind at 1. unfold get_task. cbn. rewrite Hx.
  step_m. unfold set_position, get_worker. step_m. rewrite Hk. step_m. reflexivity.
Qed.

Lemma Worker_fetch_head (w : World) (me : wref) (k : Worker) (task : tref)
    (q : list tref) (x : Task) :
  worker_heap w !! me = Some k → is_running w = true → w_shutdown k = false →
  _awaken k = true → tasks w = task :: q → task_heap w !! task = Some x →
  Worker_fetch me w =
    Returns true
      (set_worker_heap (<[me := Worker_set_at_ (Holding task) k]> (worker_heap w))
         (set_task_heap (<[task := Task_set_worker (Some me) x]> (task_heap w))
            (set_tasks q w))).
Proof.
  intros Hk Hr Hsh Haw Hq Hx.
  unfold Worker_fetch. unfold mbind, M_bind at 1. unfold get_worker at 1. rewrite Hk.
  unfold mbind, M_bind at 1. cbn [get]. rewrite Hr, Hsh, Haw.
  cbn [negb andb]. rewrite andb_false_r.
  unfold mbind, M_bind at 1. cbn [mret M_ret].
  by apply Worker_dequeue_head.
Qed.

Lemma set_result_pending (w : World) (t : tref) (x : Task) (f : Future) (v : pyval) :
  task_heap w !! t = Some x → base x = Some f → is_terminal (_state f) = false →
  ∃ w', set_result t v w = Returns tt w' ∧
        _semaphore w' = (_semaphore w + Z.of_nat (permits (_done_callbacks f)))%Z ∧
        outside_hooks w' =
          outside_hooks (set_task_heap (<[t := Task_set_base (Some
            {| _state := FINISHED; _result := v;
               _exception := _exception f;
               _done_callbacks := _done_callbacks f |}) x]> (task_heap w)) w).
Proof.
  intros Hx Hf Hp. unfold set_result, mbind, M_bind.
  rewrite (get_base_eq w t x f Hx Hf), Hp. cbn.
  rewrite (put_base_eq w t x _ Hx).
  erewrite invoke_callbacks_eq; [| cbn; apply lookup_insert_eq | cbn; reflexivity].
  cbn [_done_callbacks].
  match goal with |- context [for_each ?hs ?b ?w1] =>
    destruct (hooks_run hs t w1) as (w' & -> & Hs & Ho) end.
  exists w'. split; [done|]. split; [exact Hs | exact Ho].
Qed.

(** X1.  First in, first out: a Worker at the head of its loop, with the
    Dispatcher running and itself neither shut down nor paused, takes the
    task at the head of the queue.  The task gets this Worker as its
    [worker], the rest of the queue keeps its order, and neither the
    registry, the slot counter nor the permit counter changes. *)
Theorem Worker_takes_the_oldest_task behaviour (w : World) (me : wref) (k : Worker)
    (task : tref) (q : list tref) (x : Task) :
  worker_heap w !! me = Some k → runnable k = true → at_ k = AtLoopHead →
  is_running w = true → w_shutdown k = false → _awaken k = true →
  tasks w = task :: q → task_heap w !! task = Some x →
  ∃ w', Worker_step behaviour me w = Returns tt w' ∧
        tasks w' = q ∧
        task_heap w' = <[task := Task_set_worker (Some me) x]> (task_heap w) ∧
        worker_heap w' = <[me := Worker_set_at_ (Holding task) k]> (worker_heap w) ∧
        pool w' = pool w ∧ _semaphore w' = _semaphore w.
Proof.
  intros Hk Hrun Hat Hr Hsh Haw Hq Hx.
  rewrite (Worker_step_runnable behaviour w me k Hk Hrun), Hat.
  unfold try_except. unfold mbind, M_bind at 1.
  rewrite (Worker_fetch_head w me k task q x Hk Hr Hsh Haw Hq Hx).
  eexists. split; [reflexivity|]. cbn. done.
Qed.

Lemma Worker_execute_sync behaviour (w : World) (me : wref) (k : Worker)
    (task : tref) (x : Task) (f : Future) (v : pyval) :
  worker_heap w !! me = Some k →
  task_heap w !! task = Some x → base x = Some f → is_terminal (_state f) = false →
  is_async x = false →
  call behaviour (func x) (args x) (kwargs x) = Ok v →
  ∃ w', Worker_execute behaviour me task w = Returns tt w' ∧
        task_heap w' =
          <[task := Task_set_base (Some
              {| _state := FINISHED; _result := v; _exception := _exception f;
                 _done_callbacks := _done_callbacks f |}) x]> (task_heap w) ∧
        _semaphore w' = (_semaphore w + Z.of_nat (permits (_done_callbacks f)))%Z ∧
        worker_heap w' = <[me := Worker_set_at_ AtLoopHead k]> (worker_heap w) ∧
        event_bus w' = event_bus w ∧ pool w' = pool w ∧ tasks w' = tasks w.
Proof.
  intros Hk Hx Hf Hp Hsync Hcall.
  destruct (set_result_pending w task x f v Hx Hf Hp) as (w1 & E1 & Hs1 & Ho1).
  apply outside_hooks_fields in Ho1 as (T1 & P1 & H1 & W1 & L1 & B1 & N1).
  cbn in T1, P1, H1, W1, L1, B1, N1.
  unfold Worker_execute. unfold mbind, M_bind at 1. unfold try_except.
  unfold mbind, M_bind at 1. unfold get_task at 1. rewrite Hx, Hsync.
  unfold mbind, M_bind at 1. rewrite Hcall. cbn [lift mret M_ret].
  unfold mbind, M_bind at 1. rewrite E1. cbn.
  unfold set_position, mbind, M_bind, get_worker. rewrite W1, Hk. step_m.
  eexists. split; [reflexivity|]. cbn. by rewrite W1.
Qed.

(** X2.  When the synchronous callable of the pending task a Worker holds
    returns [v], the stretch of [run] returns: the task is finished with
    result [v] and no new exception, its done-callbacks run (each releasing
    hook gives a permit back), nothing is emitted on the event bus, and the
    Worker is back at the head of its loop, the registry and the queue as
    before. *)
Theorem sync_result_is_stored behaviour (w : World) (me : wref) (k : Worker)
    (task : tref) (x : Task) (f : Future) (v : pyval) :
  worker_heap w !! me = Some k → runnable k = true → at_ k = Holding task →
  task_heap w !! task = Some x → base x = Some f → _state f = PENDING →
  is_async x = false →
  call behaviour (func x) (args x) (kwargs x) = Ok v →
  ∃ w', Worker_step behaviour me w = Returns tt w' ∧
        state_of w' task = Some FINISHED ∧
        result_of w' task = Some v ∧
        exception_of w' task = _exception f ∧
        _semaphore w' = (_semaphore w + Z.of_nat (permits (_done_callbacks f)))%Z ∧
        event_bus w' = event_bus w ∧
        worker_heap w' !! me = Some (Worker_set_at_ AtLoopHead k) ∧
        tasks w' = tasks w ∧ pool w' = pool w.
Proof.
  intros Hk Hrun Hat Hx Hf Hp Hsync Hcall.
  rewrite (Worker_step_runnable behaviour w me k Hk Hrun), Hat.
  destruct (Worker_execute_sync behaviour w me k task x f v Hk Hx Hf)
    as (w' & E & Hh & Hs & Hw & Hb & Hpl & Ht); [by rewrite Hp | done | done |].
  unfold try_except. rewrite E. exists w'. split; [done|].
  unfold state_of, result_of, exception_of. rewrite Hh, Hw, !lookup_insert_eq. cbn.
  done.
Qed.




Lemma set_terminal_raises (w : World) (t : tref) (x : Task) (f : Future) :
  task_heap w !! t = Some x → base x = Some f → is_terminal (_state f) = true →
  (∀ v, set_result t v w = Raises InvalidStateError w) ∧
  (∀ e, set_exception t e w = Raises InvalidStateError w).
Proof.
  intros Hx Hf Hp. split; intros ?; unfold set_result, set_exception, mbind, M_bind;
    by rewrite (get_base_eq w t x f Hx Hf), Hp.
Qed.

(** X4.  A Worker does not look at the state of the task it holds.  When
    the task is already cancelled or finished, the synchronous callable is
    called all the same; [set_result] (or, after an Exception of the
    callable, [set_exception]) then raises InvalidStateError, and as
    [set_exception] in the handler raises it again, the exception leaves
    [run]: the thread is over, nothing else changes, so the Worker stays in
    the registry and keeps its slot. *)
Theorem terminal_task_ends_its_worker behaviour (w : World) (me : wref) (k : Worker)
    (task : tref) (x : Task) (f : Future) :
  worker_heap w !! me = Some k → runnable k = true → at_ k = Holding task →
  task_heap w !! task = Some x → base x = Some f → is_terminal (_state f) = true →
  is_async x = false →
  Worker_step behaviour me w =
    Raises (escapes (call behaviour (func x) (args x) (kwargs x)))
      (set_worker_heap (<[me := Worker_set_alive false k]> (worker_heap w)) w).
Proof.
  intros Hk Hrun Hat Hx Hf Hp Hsync.
  destruct (set_terminal_raises w task x f Hx Hf Hp) as [Hres Hexc].
  rewrite (Worker_step_runnable behaviour w me k Hk Hrun), Hat.
  unfold Worker_execute, on_error. step_m. unfold get_task. cbn. rewrite Hx. cbn.
  rewrite Hsync. cbn.
  destruct (call behaviour (func x) (args x) (kwargs x)) as [v|e]; cbn.
  - rewrite Hres. cbn. rewrite Hexc. cbn.
    unfold Worker_exit, get_worker. step_m. rewrite Hk. step_m. reflexivity.
  - destruct (is_exit_signal e) eqn:Hsig; cbn.
    + assert (is_Exception e = false) as -> by (by destruct e).
      unfold Worker_exit, get_worker. step_m. rewrite Hk. step_m. reflexivity.
    + destruct (is_Exception e) eqn:He; cbn.
      * rewrite Hexc. cbn.
        unfold Worker_exit, get_worker. step_m. rewrite Hk. step_m. reflexivity.
      * unfold Worker_exit, get_worker. step_m. rewrite Hk. step_m. reflexivity.
Qed.

(** X5.  When the loop condition of [Worker.run] fails (the Dispatcher is
    not running, or the Worker's shutdown flag is set) [run] returns without
    a call of [stop_worker]: the thread is over and nothing else changes, so
    the Worker is still listed in the registry and its slot is not
    released. *)
Theorem worker_leaves_without_deregistering behaviour (w : World) (me : wref)
    (k : Worker) :
  worker_heap w !! me = Some k → runnable k = true → at_ k = AtLoopHead →
  is_running w = false ∨ w_shutdown k = true →
  Worker_step behaviour me w =
    Returns tt (set_worker_heap (<[me := Worker_set_alive false k]> (worker_heap w)) w).
Proof.
  intros Hk Hrun Hat Hcond.
  rewrite (Worker_step_runnable behaviour w me k Hk Hrun), Hat.
  unfold Worker_fetch. step_m. unfold get_worker. cbn. rewrite Hk. cbn.
  assert (is_running w && negb (w_shutdown k) = false) as ->.
  { destruct Hcond as [->| ->]; [done | apply andb_false_r]. }
  cbn. unfold Worker_exit, get_worker. step_m. rewrite Hk. step_m. reflexivity.
Qed.


(** ** Pausing and waking workers *)

Lemma set_worker_heap_id (w : World) : set_worker_heap (worker_heap w) w = w.
Proof. by destruct w. Qed.

Lemma gate_workers (b : bool) (body : wref → M unit) :
  (∀ k, body k = (x ← get_worker k; put_worker k (Worker_set_awaken b x))) →
  ∀ (idents : list string) (w : World),
    registry_allocated w →
    ∃ h', for_each idents
            (λ ident, w ← get;
               match workers w !! ident with
               | Some k => body k
               | None => mret tt
               end) w = Returns tt (set_worker_heap h' w) ∧
          ∀ k, h' !! k =
                 if decide (k ∈ named w idents)
                 then Worker_set_awaken b <$> worker_heap w !! k
                 else worker_heap w !! k.
Proof.
  intros Hbody idents. induction idents as [|ident rest IH]; intros w Ha.
  - exists (worker_heap w). cbn. rewrite set_worker_heap_id. split; [done|].
    intros k. rewrite decide_False; [done | apply not_elem_of_nil].
  - cbn [for_each]. unfold named. cbn [omap list_omap].
    step_m. destruct (workers w !! ident) as [k0|] eqn:Hn.
    + destruct (Ha _ _ Hn) as [wk0 Hk0]. rewrite Hbody. step_m.
      unfold get_worker. rewrite Hk0. cbn.
      set (w1 := set_worker_heap _ w).
      destruct (IH w1) as (h' & E & Hl).
      { apply (put_worker_allocated k0 (Worker_set_awaken b wk0) w Ha). }
      exists h'. split; [exact E|]. intros k. rewrite Hl. unfold named. cbn.
      destruct (decide (k = k0)) as [->|Hne].
      * rewrite lookup_insert_eq, Hk0. rewrite (decide_True (P := k0 ∈ k0 :: _));
          [|apply list_elem_of_here]. by destruct (decide _).
      * rewrite lookup_insert_ne by done.
        destruct (decide (k ∈ omap _ rest)) as [Hin|Hnin].
        -- rewrite decide_True; [done | by apply list_elem_of_further].
        -- rewrite decide_False; [done|]. by intros [?|?]%elem_of_cons.
    + cbn. apply IH, Ha.
Qed.

(** X8.  [pause_worker] clears the event of every registered Worker it is
    given, and [awake_worker] with the same names, on Workers that were
    awake before, gives back the world the two calls started from.  Names
    that are not registered are skipped by both, and a name given twice does
    no harm. *)
Theorem awake_worker_undoes_pause (idents : list string) (w : World) :
  registry_allocated w →
  (∀ nm k wk, nm ∈ idents → workers w !! nm = Some k →
              worker_heap w !! k = Some wk → _awaken wk = true) →
  ∃ w', pause_worker idents w = Returns tt w' ∧
        (∀ nm k wk, nm ∈ idents → workers w !! nm = Some k →
                    worker_heap w !! k = Some wk →
                    worker_heap w' !! k = Some (Worker_set_awaken false wk)) ∧
        workers w' = workers w ∧ tasks w' = tasks w ∧
        awake_worker idents w' = Returns tt w.
Proof.
  intros Ha Hawake.
  destruct (gate_workers false Worker_pause (λ _, eq_refl) idents w Ha) as (h1 & E1 & Hl1).
  set (w1 := set_worker_heap h1 w).
  assert (Ha1 : registry_allocated w1).
  { intros nm k Hn. cbn in *. rewrite Hl1. destruct (Ha _ _ Hn) as [wk ->].
    destruct (decide _); cbn; eauto. }
  destruct (gate_workers true Worker_awake (λ _, eq_refl) idents w1 Ha1) as (h2 & E2 & Hl2).
  assert (Hnamed : ∀ nm k, nm ∈ idents → workers w !! nm = Some k → k ∈ named w idents).
  { intros nm k Hin Hn. unfold named. apply list_elem_of_omap. eauto. }
  exists w1. split; [exact E1|]. split; [|split; [done|split; [done|]]].
  - intros nm k wk Hin Hn Hk. cbn. rewrite Hl1, decide_True by eauto. by rewrite Hk.
  - unfold awake_worker. rewrite E2. f_equal.
    transitivity (set_worker_heap (worker_heap w) w); [|apply set_worker_heap_id].
    change (set_worker_heap h2 w1) with (set_worker_heap h2 w). f_equal.
    apply map_eq. intros k. rewrite Hl2. cbn. rewrite Hl1.
    change (named w1 idents) with (named w idents).
    destruct (decide (k ∈ named w idents)) as [Hin|Hnin]; [|done].
    destruct (worker_heap w !! k) as [wk|] eqn:Hk; [|done]. cbn. f_equal.
    apply list_elem_of_omap in Hin as (nm & Hin & Hn).
    specialize (Hawake nm k wk Hin Hn Hk). destruct wk. cbn in *. by subst.
Qed.

(** A Worker that is not awake, without tracing, is suspended at the head
    of its loop and stays there. *)
Lemma paused_at_head behaviour (w : World) (me : wref) (k : Worker) :
  worker_heap w !! me = Some k → alive k = true → pending_exit k = false →
  w_trace k = false → _awaken k = false → at_ k = AtLoopHead →
  is_running w = true → w_shutdown k = false →
  let w' := set_worker_heap (<[me := Worker_set_at_ Paused k]> (worker_heap w)) w in
  Worker_step behaviour me w = Blocks w' ∧
  Worker_step behaviour me w' = Blocks w'.
Proof.
  intros Hk Ha Hp Ht Haw Hat Hr Hsh w'.
  assert (Hrun : runnable k = true) by (unfold runnable; by rewrite Ha, Hp, Ht).
  split.
  - rewrite (Worker_step_runnable behaviour w me k Hk Hrun), Hat.
    unfold try_except, Worker_fetch. unfold mbind, M_bind at 1 2. unfold get_worker at 1.
    rewrite Hk. unfold mbind, M_bind at 1. cbn [get]. rewrite Hr, Hsh, Ht, Haw.
    cbn [negb andb]. unfold set_position, mbind, M_bind, get_worker. rewrite Hk.
    reflexivity.
  - assert (Hk' : worker_heap w' !! me = Some (Worker_set_at_ Paused k))
      by (subst w'; cbn; apply lookup_insert_eq).
    rewrite (Worker_step_runnable behaviour w' me _ Hk' Hrun).
    cbn [at_ Worker_set_at_]. unfold try_except, awaken_wait, mbind, M_bind, get_worker.
    rewrite Hk'. cbn. by rewrite Haw.
Qed.

(** X7.  [pause_worker(name)] clears the event of a registered Worker and
    nothing else.  Without tracing, the Worker looks at the event only at
    the head of its loop, before it calls [get].  A Worker at the head of
    its loop is suspended there at its next stretch, the queue untouched,
    and stays so at every further stretch; once [awake_worker] has set the
    event again it goes on and takes the task at the head of the queue.  A
    Worker that holds a task executes it first (its result is stored) and
    is suspended when it comes back to the head of its loop.  A Worker that
    is already waiting inside [tasks.get(timeout=5)] is not held back: it
    takes the task that arrives, and when none arrives within the 5 time
    units it deregisters itself and its thread is over. *)
Theorem paused_worker_waits behaviour (w : World) (nm : string) (me : wref)
    (k : Worker) :
  workers w !! nm = Some me → worker_heap w !! me = Some k →
  alive k = true → pending_exit k = false → w_trace k = false →
  ∃ w1,
    pause_worker [nm] w = Returns tt w1 ∧
    w1 = set_worker_heap (<[me := Worker_set_awaken false k]> (worker_heap w)) w ∧
    (at_ k = AtLoopHead → is_running w = true → w_shutdown k = false →
       ∃ w2 w3,
         Worker_step behaviour me w1 = Blocks w2 ∧
         w2 = set_worker_heap
                (<[me := Worker_set_at_ Paused (Worker_set_awaken false k)]>
                   (worker_heap w)) w ∧
         Worker_step behaviour me w2 = Blocks w2 ∧
         awake_worker [nm] w2 = Returns tt w3 ∧
         w3 = set_worker_heap
                (<[me := Worker_set_at_ Paused (Worker_set_awaken true k)]>
                   (worker_heap w)) w ∧
         ∀ t q x, tasks w = t :: q → task_heap w !! t = Some x →
           ∃ w4, Worker_step behaviour me w3 = Returns tt w4 ∧
                 tasks w4 = q ∧
                 worker_heap w4 !! me =
                   Some (Worker_set_at_ (Holding t) (Worker_set_awaken true k))) ∧
    (∀ t x f v, at_ k = Holding t →
       task_heap w !! t = Some x → base x = Some f →
       is_terminal (_state f) = false → is_async x = false →
       call behaviour (func x) (args x) (kwargs x) = Ok v →
       is_running w = true → w_shutdown k = false →
       ∃ w2 w3,
         Worker_step behaviour me w1 = Returns tt w2 ∧
         result_of w2 t = Some v ∧
         worker_heap w2 !! me =
           Some (Worker_set_at_ AtLoopHead (Worker_set_awaken false k)) ∧
         Worker_step behaviour me w2 = Blocks w3 ∧
         worker_heap w3 !! me =
           Some (Worker_set_at_ Paused (Worker_set_awaken false k)) ∧
         tasks w3 = tasks w ∧
         Worker_step behaviour me w3 = Blocks w3) ∧
    (at_ k = Polling →
       (∀ t q x, tasks w = t :: q → task_heap w !! t = Some x →
          ∃ w2, Worker_step behaviour me w1 = Returns tt w2 ∧
                tasks w2 = q ∧
                worker_heap w2 !! me =
                  Some (Worker_set_at_ (Holding t) (Worker_set_awaken false k))) ∧
       (tasks w = [] → nm = name k →
          ∃ w2, Worker_step behaviour me w1 = Raises SystemExit w2 ∧
                workers w2 = delete nm (workers w) ∧
                _remain_workers w2 = (_remain_workers w + 1)%Z ∧
                alive <$> worker_heap w2 !! me = Some false)).
Proof.
  intros Hn Hk Ha Hp Ht.
  set (k1 := Worker_set_awaken false k).
  set (w1 := set_worker_heap (<[me := k1]> (worker_heap w)) w).
  assert (Hk1 : worker_heap w1 !! me = Some k1) by (subst w1; cbn; apply lookup_insert_eq).
  assert (Hrun1 : ∀ b p, runnable (Worker_set_at_ p (Worker_set_awaken b k)) = true).
  { intros b p. unfold runnable. cbn. by rewrite Ha, Hp, Ht. }
  exists w1. split.
  { unfold pause_worker. cbn [for_each]. step_m. rewrite Hn.
    unfold Worker_pause, get_worker. step_m. rewrite Hk. step_m. reflexivity. }
  split; [reflexivity|]. split; [|split].
  - (* at the head of the loop *)
    intros Hat Hr Hsh.
    destruct (paused_at_head behaviour w1 me k1 Hk1 Ha Hp Ht eq_refl Hat Hr Hsh) as [E2 E3].
    set (w2 := set_worker_heap (<[me := Worker_set_at_ Paused k1]> (worker_heap w)) w).
    assert (Hw2 : set_worker_heap (<[me := Worker_set_at_ Paused k1]> (worker_heap w1)) w1 = w2).
    { subst w1 w2. unfold set_worker_heap. cbn. by rewrite insert_insert_eq. }
    rewrite Hw2 in E2, E3.
    set (k3 := Worker_set_at_ Paused (Worker_set_awaken true k)).
    set (w3 := set_worker_heap (<[me := k3]> (worker_heap w)) w).
    exists w2, w3. split; [exact E2|]. split; [reflexivity|]. split; [exact E3|].
    split.
    { unfold awake_worker. cbn [for_each]. step_m. rewrite Hn.
      unfold Worker_awake, get_worker. step_m. rewrite lookup_insert_eq. step_m.
      subst w3. unfold set_worker_heap. cbn. by rewrite insert_insert_eq. }
    split; [reflexivity|].
    intros t q x Hq Hx.
    assert (Hk3 : worker_heap w3 !! me = Some k3) by (subst w3; cbn; apply lookup_insert_eq).
    rewrite (Worker_step_runnable behaviour w3 me k3 Hk3 (Hrun1 true Paused)).
    cbn [at_ k3 Worker_set_at_]. unfold try_except.
    unfold mbind, M_bind at 1. unfold awaken_wait at 1.
    unfold mbind, M_bind at 1. unfold get_worker at 1. rewrite Hk3.
    cbn [_awaken k3 Worker_set_at_ Worker_set_awaken mret M_ret].
    unfold mbind, M_bind at 1.
    rewrite (Worker_dequeue_head w3 me k3 t q x false Hk3 Hq Hx).
    eexists. split; [reflexivity|]. cbn. rewrite lookup_insert_eq. done.
  - (* with a task in hand *)
    intros t x f v Hat Hx Hf Hnt Hsync Hcall Hr Hsh.
    destruct (Worker_execute_sync behaviour w1 me k1 t x f v Hk1 Hx Hf Hnt Hsync Hcall)
      as (w2 & E2 & Hh2 & _ & Hw2 & _ & _ & Ht2).
    assert (Hk2 : worker_heap w2 !! me = Some (Worker_set_at_ AtLoopHead k1))
      by (rewrite Hw2; apply lookup_insert_eq).
    assert (Hr2 : is_running w2 = true).
    { revert E2. clear -Hr. intros E2.
      assert (H : preserves (same lifecycle) (Worker_execute behaviour me t)) by preserve.
      specialize (H w1). rewrite E2 in H. cbn in H. unfold same, lifecycle in H.
      unfold is_running in *. injection H as -> -> _ _. exact Hr. }
    destruct (paused_at_head behaviour w2 me (Worker_set_at_ AtLoopHead k1) Hk2 Ha Hp Ht
                eq_refl eq_refl Hr2 Hsh) as [E3 E4].
    eexists w2, _. split.
    { rewrite (Worker_step_runnable behaviour w1 me k1 Hk1 (Hrun1 false (at_ k))).
      cbn [at_ k1 Worker_set_awaken]. rewrite Hat. unfold try_except. by rewrite E2. }
    split. { unfold result_of. rewrite Hh2, lookup_insert_eq. cbn. done. }
    split; [exact Hk2|]. split; [exact E3|].
    split. { cbn. apply lookup_insert_eq. }
    split; [exact Ht2|]. exact E4.
  - (* inside get *)
    intros Hat. split.
    + intros t q x Hq Hx.
      rewrite (Worker_step_runnable behaviour w1 me k1 Hk1 (Hrun1 false (at_ k))).
      cbn [at_ k1 Worker_set_awaken]. rewrite Hat. unfold try_except.
      unfold mbind, M_bind at 1.
      rewrite (Worker_dequeue_head w1 me k1 t q x true Hk1 Hq Hx).
      eexists. split; [reflexivity|]. cbn. rewrite lookup_insert_eq. done.
    + intros Hq ->.
      destruct (Worker_dequeue_empty w1 me k1 Hk1 Ha Hq Hn) as (w2 & E2 & Hws & Hrem & Hwh & _).
      rewrite (Worker_step_runnable behaviour w1 me k1 Hk1 (Hrun1 false (at_ k))).
      cbn [at_ k1 Worker_set_awaken]. rewrite Hat. unfold try_except.
      unfold mbind, M_bind at 1. rewrite E2.
      unfold Worker_exit, mbind, M_bind, get_worker. rewrite Hwh, lookup_insert_eq. step_m.
      eexists. split; [reflexivity|]. cbn. rewrite lookup_insert_eq.
      split; [exact Hws|]. split; [exact Hrem|]. done.
Qed.

(** ** What [stop_worker] and [stop] do to the pool *)

Lemma set_workers_id (w : World) : set_workers (workers w) w = w.
Proof. by destruct w. Qed.

Lemma stop_requested_idemp (k : Worker) :
  stop_requested (stop_requested k) = stop_requested k.
Proof. unfold stop_requested. destruct k as [? ? ? ? [] ? ? ?]; reflexivity. Qed.

Lemma stop_worker_spec (idents : list string) (w : World) :
  registry_allocated w →
  ∃ w', stop_worker idents w = Returns tt w' ∧
        (∀ nm, workers w' !! nm =
                 if decide (nm ∈ idents) then None else workers w !! nm) ∧
        (_remain_workers w' + Z.of_nat (size (workers w')) =
           _remain_workers w + Z.of_nat (size (workers w)))%Z ∧
        (∀ k, worker_heap w' !! k =
                if decide (k ∈ named w idents)
                then stop_requested <$> worker_heap w !! k
                else worker_heap w !! k) ∧
        outside_pool w' = outside_pool w.
Proof.
  revert w. induction idents as [|ident rest IH]; intros w Ha.
  - exists w. split; [done|]. repeat split; try done.
  - rewrite stop_worker_cons. unfold mbind, M_bind.
    pose proof (stop_worker_allocated [ident] w Ha) as Ha1.
    destruct (workers w !! ident) as [k0|] eqn:Hn.
    + destruct (Ha _ _ Hn) as [wk0 Hk0].
      destruct (stop_worker_registered w ident k0 wk0 Hn Hk0)
        as (w1 & E1 & Hws & Hrem & Hwh & Ho).
      rewrite E1 in Ha1 |- *. cbn in Ha1.
      destruct (IH w1 Ha1) as (w' & E & Hl & Hsz & Hh & Ho').
      exists w'. split; [exact E|]. split; [|split; [|split]].
      * intros nm. rewrite Hl, Hws.
        destruct (decide (nm = ident)) as [->|Hne].
        -- rewrite lookup_delete_eq, (decide_True (P := ident ∈ ident :: rest));
             [by destruct (decide _) | apply list_elem_of_here].
        -- rewrite lookup_delete_ne by done.
           destruct (decide (nm ∈ rest)) as [Hin|Hnin].
           ++ rewrite decide_True; [done | by apply list_elem_of_further].
           ++ rewrite decide_False; [done|]. by intros [?|?]%elem_of_cons.
      * rewrite Hsz, Hrem, Hws, map_size_delete_Some by eauto.
        assert (size (workers w) ≠ 0) by (eapply map_size_ne_0_lookup_2; eauto).
        lia.
      * intros k. rewrite Hh, Hwh. unfold named. cbn [omap list_omap]. rewrite Hn.
        destruct (decide (k = k0)) as [->|Hne].
        -- rewrite lookup_insert_eq, Hk0, (decide_True (P := k0 ∈ k0 :: _));
             [|apply list_elem_of_here].
           destruct (decide _); cbn; [by rewrite stop_requested_idemp | done].
        -- rewrite lookup_insert_ne by done.
           assert (Hiff : k ∈ omap (λ nm, workers w1 !! nm) rest ↔
                          k ∈ omap (λ nm, workers w !! nm) rest).
           { rewrite !list_elem_of_omap. split; intros (nm & Hin & Hl1); exists nm;
               (split; [done|]); rewrite Hws in *.
             - by apply lookup_delete_Some in Hl1 as [_ ?].
             - apply lookup_delete_Some. split; [|done]. intros <-. congruence. }
           destruct (decide (k ∈ omap (λ nm, workers w1 !! nm) rest)) as [Hin|Hnin].
           ++ rewrite decide_True; [done|]. apply list_elem_of_further, Hiff, Hin.
           ++ rewrite decide_False; [done|].
              intros [?|?]%elem_of_cons; [done|]. by apply Hnin, Hiff.
      * etrans; [exact Ho' | exact Ho].
    + rewrite (stop_worker_unregistered w ident Hn).
      rewrite delete_id, set_workers_id by done.
      destruct (IH w Ha) as (w' & E & Hl & Hsz & Hh & Ho').
      exists w'. split; [exact E|]. split; [|split; [|split]]; try done.
      * intros nm. rewrite Hl.
        destruct (decide (nm = ident)) as [->|Hne].
        -- rewrite Hn, (decide_True (P := ident ∈ ident :: rest));
             [by destruct (decide _) | apply list_elem_of_here].
        -- destruct (decide (nm ∈ rest)) as [Hin|Hnin].
           ++ rewrite decide_True; [done | by apply list_elem_of_further].
           ++ rewrite decide_False; [done|]. by intros [?|?]%elem_of_cons.
      * intros k. rewrite Hh. unfold named. cbn [omap list_omap]. by rewrite Hn.
Qed.



(** X11.  Once the loop is closed, [stop()] raises RuntimeError (from
    [call_soon_threadsafe]) after it has emptied the registry and released
    the slots; the lifecycle flags are as before: the statement that clears
    the running flag is not reached. *)
Theorem stop_on_a_closed_loop (w : World) :
  registry_allocated w → loop_closed (loop w) = true →
  ∃ w', stop w = Raises (RuntimeError "Event loop is closed") w' ∧
        workers w' = ∅ ∧
        _remain_workers w' = (_remain_workers w + Z.of_nat (size (workers w)))%Z ∧
        lifecycle w' = lifecycle w.
Proof.
  intros Ha Hclosed.
  destruct (stop_worker_spec (map_to_list (workers w)).*1 w Ha)
    as (w1 & E1 & Hl & Hsz & Hh & Ho).
  apply outside_pool_fields in Ho as (T & S & H & L & _).
  assert (Hempty : workers w1 = ∅).
  { apply map_empty. intros nm. rewrite Hl.
    destruct (decide _) as [|Hnin]; [done|].
    destruct (workers w !! nm) as [k|] eqn:Hn; [|done]. destruct Hnin.
    apply list_elem_of_fmap. exists (nm, k). split; [done|].
    by apply elem_of_map_to_list. }
  unfold stop. step_m. rewrite E1. cbn.
  unfold call_soon_threadsafe. step_m.
  assert (loop w1 = loop w) as -> by (unfold lifecycle in L; congruence).
  rewrite Hclosed. cbn.
  exists w1. split; [reflexivity|]. split; [exact Hempty|]. split; [|exact L].
  rewrite Hempty, map_size_empty in Hsz. lia.
Qed.


(** ** Scaling the pool *)

(** X14.  [adjust_workers] never suspends: in a world where every
    registered Worker holds one slot, it spawns exactly min(free slots,
    queued tasks) Workers (none when either is zero), taking one slot for
    each, and leaves the queue, the Tasks and the permit counter alone. *)
Theorem adjust_workers_scales (w : World) :
  pool_inv w →
  let n := Z.min (_remain_workers w) (Z.of_nat (length (tasks w))) in
  ∃ w', adjust_workers w = Returns tt w' ∧
        Z.of_nat (size (workers w')) = (Z.of_nat (size (workers w)) + n)%Z ∧
        _remain_workers w' = (_remain_workers w - n)%Z ∧
        tasks w' = tasks w ∧ task_heap w' = task_heap w ∧
        _semaphore w' = _semaphore w.
Proof.
  intros HI n. pose proof HI as (Hsz & Hpos & _).
  unfold adjust_workers. step_m.
  destruct ((0 <? _remain_workers w)%Z && (0 <? Z.of_nat (length (tasks w)))%Z) eqn:E.
  - apply andb_prop in E as [E1%Z.ltb_lt E2%Z.ltb_lt].
    destruct (create_worker_fits (Z.to_nat n) w HI) as (w' & E' & (Hsz' & _) & Hr & Ho);
      [subst n; lia|].
    unfold create_worker. fold n. rewrite E'.
    assert (Hm : max_workers w' = max_workers w) by (unfold outside_pool in Ho; congruence).
    apply outside_pool_fields in Ho as (T & S & H & _).
    exists w'. split; [done|]. repeat split; try done; subst n; lia.
  - exists w. split; [done|].
    assert (n = 0%Z) as ->.
    { apply andb_false_iff in E as [E%Z.ltb_ge|E%Z.ltb_ge]; subst n; lia. }
    repeat split; try done; lia.
Qed.

(** ** Starting the Dispatcher *)

Lemma exec_calm_lifecycle behaviour (o : op) :
  calm o = true → preserves (same launch_state) (exec behaviour o).
Proof. destruct o; try discriminate; intros _; cbn [exec]; preserve. Qed.

Lemma loop_thread_ends_idle :
  preserves (keeps (λ w, loop_running (loop w) = false)) loop_thread_ends.
Proof. intros w _. reflexivity. Qed.

#[export] Hint Resolve loop_thread_ends_idle : preserves.

Lemma exec_calm_idle behaviour (o : op) :
  calm o = true →
  preserves (keeps (λ w, loop_running (loop w) = false)) (exec behaviour o).
Proof. destruct o; try discriminate; intros _; cbn [exec]; preserve. Qed.

Lemma after_all_calm_lifecycle behaviour (os : list op) (w : World) :
  forallb calm os = true → loop_running (loop w) = false →
  launch_state (after_all behaviour os w) = launch_state w ∧
  loop_running (loop (after_all behaviour os w)) = false.
Proof.
  revert w. induction os as [|o os IH]; intros w H Hidle; [done|].
  cbn in H. apply andb_prop in H as [Ho Hos].
  change (after_all behaviour (o :: os) w)
    with (after_all behaviour os (after behaviour o w)).
  destruct (IH (after behaviour o w) Hos) as [H1 H2].
  { by apply (exec_calm_idle behaviour o Ho w). }
  split; [|exact H2]. rewrite H1. by apply exec_calm_lifecycle.
Qed.

Lemma set_started_true_keeps :
  preserves (keeps (λ w, started w = true)) (modify (set_started true)).
Proof. intros w _. reflexivity. Qed.

#[export] Hint Resolve set_started_true_keeps : preserves.

Lemma exec_started_stays behaviour (o : op) :
  preserves (keeps (λ w, started w = true)) (exec behaviour o).
Proof. destruct o; cbn [exec]; preserve. Qed.

Lemma after_all_started_stays behaviour (os : list op) (w : World) :
  started w = true → started (after_all behaviour os w) = true.
Proof.
  revert w. induction os as [|o os IH]; intros w H; [exact H|].
  cbn. apply IH. by apply (exec_started_stays behaviour o w).
Qed.

(** X13.  On a new Dispatcher, after any calls that do not start, run or
    stop it (and before any turn of its loop), [start()] returns with the
    Dispatcher running.  Every later [start()], whatever happened in between
    (a [stop()] included), raises RuntimeError and changes nothing: a
    Dispatcher cannot be started again. *)
Theorem start_works_once behaviour (n : Z) (tr : bool) (w0 : World)
    (before : list op) :
  Dispatcher_init n tr = Ok w0 → forallb calm before = true →
  ∃ w', start (after_all behaviour before w0) = Returns tt w' ∧
        is_running w' = true ∧
        ∀ later,
          let w := after_all behaviour later w' in
          start w = Raises (RuntimeError "threads can only be started once") w.
Proof.
  intros Hinit Hcalm.
  assert (Hw0 : w0 = Dispatcher_fields n tr).
  { unfold Dispatcher_init in Hinit. destruct (n <? 0)%Z; [discriminate|].
    by injection Hinit as <-. }
  destruct (after_all_calm_lifecycle behaviour before w0 Hcalm) as [Hl Hidle].
  { by rewrite Hw0. }
  set (w := after_all behaviour before w0) in *.
  rewrite Hw0 in Hl. unfold launch_state in Hl. cbn in Hl.
  injection Hl as Hsh Hru Hre Hcl Hst.
  assert (Hstart : ∃ w', start w = Returns tt w' ∧ is_running w' = true ∧
                         started w' = true).
  { unfold start. step_m. rewrite Hst. step_m.
    unfold run. step_m. rewrite Hcl, Hidle. cbn.
    unfold run_ready. step_m. rewrite Hre. cbn. rewrite Hsh. cbn.
    eexists. split; [reflexivity|]. unfold is_running. cbn. by rewrite Hsh. }
  destruct Hstart as (w' & E & Hr & Hs).
  exists w'. split; [exact E|]. split; [exact Hr|].
  intros later w''. unfold start. step_m.
  assert (started w'' = true) as ->; [|done].
  subst w''. by apply after_all_started_stays.
Qed.

(** ** Cancelling *)

Lemma list_remove_split (t : tref) (a b : list tref) :
  t ∉ a → list_remove t (a ++ t :: b) = a ++ b.
Proof.
  induction a as [|y a IH]; intros Hnin; cbn.
  - by rewrite decide_True.
  - apply not_elem_of_cons in Hnin as [Hne Hnin].
    rewrite decide_False by done. by rewrite IH.
Qed.

(** X15.  [cancel_task] on a queued task removes its first occurrence
    from the queue and keeps the order of everything else, notifies
    [not_full] once, and changes nothing else: by itself it neither cancels
    the Task's future nor gives its permit back. *)
Theorem cancel_task_takes_the_first_occurrence (w : World) (task : tref)
    (a b : list tref) :
  tasks w = a ++ task :: b → task ∉ a →
  cancel_task task w =
    Returns tt (set_not_full_notified (S (not_full_notified w))
                  (set_tasks (a ++ b) w)).
Proof.
  intros Hq Hnin. rewrite cancel_task_queued.
  - by rewrite Hq, list_remove_split.
  - rewrite Hq. apply elem_of_app. right. apply list_elem_of_here.
Qed.

(** X16.  [Task.cancel()] on a task that is already cancelled or finished
    and no longer queued stops no Worker and runs no hook: it answers [True]
    for a cancelled task and [False] for a finished one, and the state, the
    result, the exception, the registry, the slot and permit counters, the
    Worker objects and the queue are as before. *)
Theorem cancel_of_a_terminal_task (w : World) (task : tref) (x : Task) (f : Future) :
  task_heap w !! task = Some x → base x = Some f →
  is_terminal (_state f) = true → task ∉ tasks w →
  ∃ w', Task_cancel task w = Returns (cancel_answer (_state f)) w' ∧
        state_of w' task = Some (_state f) ∧
        result_of w' task = Some (_result f) ∧
        exception_of w' task = _exception f ∧
        pool w' = pool w ∧ worker_heap w' = worker_heap w ∧
        tasks w' = tasks w ∧ _semaphore w' = _semaphore w ∧
        callback_log w' = callback_log w.
Proof.
  intros Hx Hf Hp Hnin.
  assert (Hc : cancel_task task w = Returns tt w).
  { unfold cancel_task. step_m. rewrite decide_False by done.
    unfold get_task. rewrite Hx. cbn. destruct (worker x) as [k|]; [|done].
    unfold done, mbind, M_bind. rewrite (get_base_eq w task x f Hx Hf). cbn.
    by rewrite Hp. }
  unfold Task_cancel, mbind, M_bind. unfold get_task at 1. rewrite Hx.
  assert ((if dispatcher x then cancel_task task else mret ()) w = Returns tt w) as ->.
  { by destruct (dispatcher x). }
  unfold get_task at 1. rewrite Hx.
  set (x2 := match future x with
             | Some h => Task_set_future (Some (handle_cancel h)) x
             | None => x end).
  assert (H2 : ∃ w2, match future x with
              | Some h => put_task task (Task_set_future (Some (handle_cancel h)) x)
              | None => mret tt end w = Returns tt w2 ∧
              task_heap w2 !! task = Some x2 ∧
              outside_hooks w2 =
                outside_hooks (set_task_heap (<[task := x2]> (task_heap w)) w) ∧
              _semaphore w2 = _semaphore w ∧ callback_log w2 = callback_log w).
  { subst x2. destruct (future x); step_m; eexists; (split; [reflexivity|]); cbn.
    - by rewrite lookup_insert_eq.
    - rewrite insert_id by done. done. }
  destruct H2 as (w2 & -> & Hx2 & Ho2 & S2 & C2).
  apply outside_hooks_fields in Ho2 as (T2 & P2 & H2 & W2 & _). cbn in T2, P2, H2, W2.
  assert (Hf2 : base x2 = Some f) by (subst x2; by destruct (future x)).
  unfold Future_cancel, mbind, M_bind. rewrite (get_base_eq w2 task x2 f Hx2 Hf2).
  exists w2. split.
  { destruct (_state f); try discriminate; reflexivity. }
  unfold state_of, result_of, exception_of. rewrite Hx2, Hf2. done.
Qed.

(** ** Descriptors *)

(** X18.  For a descriptor without a callback, [make_task] returns a new
    pending Task, not submitted and without a Worker, whose [args] and
    [kwargs] always unpack at the call site: the positional arguments are
    the items of the list or tuple given as [args], the single value given
    otherwise, or none; the keyword arguments are those of the dict given as
    [kwargs], or none. *)
Theorem make_task_arguments_unpack (d : gmap string pyval) (w : World) :
  truthy (dict_get d "callback" VNone) = false →
  ∃ w' x, make_task (IsDict d) w = Returns (next_task w) w' ∧
          task_heap w' = <[next_task w := x]> (task_heap w) ∧
          next_task w' = S (next_task w) ∧
          func x = dict_get d "func" VNone ∧
          unpack_positional (args x) = Ok (positional_items d) ∧
          unpack_keyword (kwargs x) = Ok (keyword_items d) ∧
          base x = Some Future_init ∧
          dispatcher x = false ∧ worker x = None.
Proof.
  intros Hc. unfold make_task. rewrite (Task_init_no_callback _ _ _ _ _ Hc).
  eexists _, _. split; [reflexivity|]. cbn.
  repeat (split; [reflexivity|]).
  unfold positional_items, keyword_items, dict_get, py_or.
  split; [|split; [|done]].
  - destruct (d !! "args") as [v|]; cbn; [|done].
    destruct v as [| | | |xs|xs| | | |]; cbn; try done; by destruct xs.
  - destruct (d !! "kwargs") as [[]|]; cbn; try done. by destruct kvs.
Qed.

(** ** Submitting and then cancelling *)

(** [submit_task] up to its call of [adjust_workers]. *)
Lemma submit_task_enqueues (w : World) (task : tref) (timeout : option Z)
    (x : Task) (f : Future) :
  is_running w = true → task_heap w !! task = Some x → base x = Some f →
  is_terminal (_state f) = false →
  (timeout ≠ Some (-1)%Z → 0 < _semaphore w)%Z →
  ∃ wa f1,
    submit_task task timeout w = (adjust_workers;; mret task) wa ∧
    tasks wa = tasks w ++ [task] ∧
    task_heap wa =
      <[task := Task_set_base (Some f1) (Task_set_dispatcher true x)]> (task_heap w) ∧
    _state f1 = _state f ∧ _result f1 = _result f ∧ _exception f1 = _exception f ∧
    (_semaphore wa + Z.of_nat (permits (_done_callbacks f1)) =
       _semaphore w + Z.of_nat (permits (_done_callbacks f)))%Z ∧
    pool wa = pool w ∧ worker_heap wa = worker_heap w ∧
    lifecycle wa = lifecycle w ∧ trace wa = trace w.
Proof.
  intros Hrun Hx Hf Hp Hperm.
  unfold submit_task. step_m. rewrite Hrun. step_m.
  unfold get_task at 1. rewrite Hx. step_m.
  destruct (decide (timeout = Some (-1)%Z)) as [->|Hne].
  - unfold tasks_put. step_m. eexists _, f. split; [reflexivity|]. cbn.
    repeat split; try done.
    f_equal. destruct x; cbn in *; by subst.
  - rewrite (not_unbounded timeout _ _ Hne). specialize (Hperm Hne).
    unfold acquire. cbn.
    destruct (0 <? _semaphore w)%Z eqn:E; [|apply Z.ltb_ge in E; lia].
    unfold tasks_put; step_m.
    erewrite add_done_callback_pending;
      [| cbn; apply lookup_insert_eq | exact Hf | exact Hp].
    cbn. eexists _, (add_hook ReleasePermit f). split; [reflexivity|]. cbn.
    rewrite insert_insert_eq, permits_app. cbn. repeat split; try done. lia.
Qed.

Lemma Future_cancel_pending_permits (w : World) (t : tref) (x : Task) (f : Future) :
  task_heap w !! t = Some x → base x = Some f → _state f = PENDING →
  ∃ w', Future_cancel t w = Returns true w' ∧
        _semaphore w' = (_semaphore w + Z.of_nat (permits (_done_callbacks f)))%Z ∧
        outside_hooks w' =
          outside_hooks (set_task_heap (<[t := Task_set_base (Some
            {| _state := CANCELLED; _result := _result f;
               _exception := _exception f;
               _done_callbacks := _done_callbacks f |}) x]> (task_heap w)) w).
Proof.
  intros Hx Hf Hp. unfold Future_cancel, mbind, M_bind.
  rewrite (get_base_eq w t x f Hx Hf), Hp. cbn.
  rewrite (put_base_eq w t x _ Hx).
  erewrite invoke_callbacks_eq; [| cbn; apply lookup_insert_eq | cbn; reflexivity].
  cbn [_done_callbacks].
  match goal with |- context [for_each ?hs ?b ?w1] =>
    destruct (hooks_run hs t w1) as (w' & -> & Hs & Ho) end.
  exists w'. split; [done|]. split; [exact Hs | exact Ho].
Qed.

(** X17.  Submitting a pending task that is not queued yet and then
    cancelling it with [Task.cancel()] is a round trip on the queue and on
    the permit counter: the queue is as before the submission, the permit
    the submission took is back (with those of the releasing hooks the task
    already had), and the task is cancelled.  The Workers that the
    submission spawned stay. *)
Theorem cancel_undoes_submit (w : World) (task : tref) (timeout : option Z)
    (x : Task) (f : Future) :
  is_running w = true → task_heap w !! task = Some x → base x = Some f →
  _state f = PENDING → task ∉ tasks w →
  (timeout ≠ Some (-1)%Z → 0 < _semaphore w)%Z →
  ∃ w1 w2,
    submit_task task timeout w = Returns task w1 ∧
    Task_cancel task w1 = Returns true w2 ∧
    tasks w2 = tasks w ∧
    _semaphore w2 = (_semaphore w + Z.of_nat (permits (_done_callbacks f)))%Z ∧
    state_of w2 task = Some CANCELLED ∧
    pool w2 = pool w1 ∧ worker_heap w2 = worker_heap w1.
Proof.
  intros Hrun Hx Hf Hp Hnin Hperm.
  destruct (submit_task_enqueues w task timeout x f Hrun Hx Hf)
    as (wa & f1 & Esub & Ta & Ha & Hp1 & Hr1 & He1 & Hs1 & Pa & Wa & La & Tra);
    [by rewrite Hp | done |].
  destruct (adjust_workers_returns wa) as (w1 & E1 & Ho1).
  apply outside_pool_fields in Ho1 as (T1 & S1 & H1 & L1 & B1 & C1 & N1).
  set (x1 := Task_set_base (Some f1) (Task_set_dispatcher true x)) in *.
  assert (Hx1 : task_heap w1 !! task = Some x1).
  { rewrite H1, Ha. apply lookup_insert_eq. }
  assert (Hin : task ∈ tasks w1).
  { rewrite T1, Ta. apply elem_of_app. right. apply list_elem_of_here. }
  exists w1. 
  assert (Hcancel : ∃ w2, Task_cancel task w1 = Returns true w2 ∧
            tasks w2 = list_remove task (tasks w1) ∧
            _semaphore w2 = (_semaphore w1 + Z.of_nat (permits (_done_callbacks f1)))%Z ∧
            state_of w2 task = Some CANCELLED ∧
            pool w2 = pool w1 ∧ worker_heap w2 = worker_heap w1).
  { unfold Task_cancel, mbind, M_bind. unfold get_task at 1. rewrite Hx1.
    cbn [dispatcher x1 Task_set_base Task_set_dispatcher].
    rewrite (cancel_task_queued w1 task Hin). cbn.
    unfold get_task at 1. cbn. rewrite Hx1.
    set (wc := set_not_full_notified _ _).
    set (x2 := match future x1 with
               | Some h => Task_set_future (Some (handle_cancel h)) x1
               | None => x1 end).
    assert (H2 : ∃ w2, match future x1 with
                | Some h => put_task task (Task_set_future (Some (handle_cancel h)) x1)
                | None => mret tt end wc = Returns tt w2 ∧
                _semaphore w2 = _semaphore wc ∧
                outside_hooks w2 =
                  outside_hooks (set_task_heap (<[task := x2]> (task_heap wc)) wc)).
    { subst x2. destruct (future x1); step_m; eexists; (split; [reflexivity|]);
        (split; [done|]); [done|].
      subst wc. cbn. rewrite insert_id by done. done. }
    destruct H2 as (w2 & -> & S2 & Ho2).
    apply outside_hooks_fields in Ho2 as (T2 & P2 & H2 & W2 & _).
    subst wc.
    cbn in T2, P2, H2, W2, S2.
    destruct (Future_cancel_pending_permits w2 task x2 f1) as (w3 & -> & S3 & Ho3).
    { rewrite H2. apply lookup_insert_eq. }
    { subst x2. by destruct (future x1). }
    { by rewrite Hp1. }
    apply outside_hooks_fields in Ho3 as (T3 & P3 & H3 & W3 & _).
    cbn in T3, P3, H3, W3.
    unfold pool in P2, P3 |- *. cbn in P2, P3.
    exists w3. split; [done|].
    split; [congruence|]. split; [congruence|].
    split; [|split; congruence].
    unfold state_of. rewrite H3, lookup_insert_eq. done. }
  destruct Hcancel as (w2 & E2 & T2 & S2 & St2 & P2 & W2).
  exists w2. split. { rewrite Esub. unfold mbind, M_bind. by rewrite E1. }
  split; [exact E2|]. split.
  { rewrite T2, T1, Ta, list_remove_split by done. apply app_nil_r. }
  split; [rewrite S2, S1; lia|]. done.
Qed.

(** ** From submission to the result *)

Lemma create_one_worker_spawns (w : World) :
  (0 < _remain_workers w)%Z →
  ∃ w', create_one_worker w = Returns tt w' ∧
        _remain_workers w' = (_remain_workers w - 1)%Z ∧
        workers w' = <[worker_name (_counter w) := _counter w]> (workers w) ∧
        worker_heap w' = <[_counter w := new_worker (trace w) (_counter w)]> (worker_heap w) ∧
        _counter w' = S (_counter w) ∧
        outside_pool w' = outside_pool w.
Proof.
  intros Hr. unfold create_one_worker. step_m.
  unfold get_worker; cbn. rewrite lookup_insert_eq. step_m.
  unfold acquire; cbn.
  destruct (0 <? _remain_workers w)%Z eqn:E; [|apply Z.ltb_ge in E; lia].
  eexists. split; [reflexivity|]. cbn. rewrite insert_insert_eq. auto.
Qed.

Lemma adjust_workers_spawns_one (w : World) (t : tref) :
  (0 < _remain_workers w)%Z → tasks w = [t] →
  ∃ w', adjust_workers w = Returns tt w' ∧
        _remain_workers w' = (_remain_workers w - 1)%Z ∧
        workers w' = <[worker_name (_counter w) := _counter w]> (workers w) ∧
        worker_heap w' = <[_counter w := new_worker (trace w) (_counter w)]> (worker_heap w) ∧
        outside_pool w' = outside_pool w.
Proof.
  intros Hr Hq. unfold adjust_workers. step_m. rewrite Hq. cbn [length].
  assert ((0 <? _remain_workers w)%Z = true) as -> by (apply Z.ltb_lt; lia).
  cbn [andb].
  assert (Z.to_nat (Z.min (_remain_workers w) (Z.of_nat 1)) = 1) as Hmin by lia.
  assert ((0 <? Z.of_nat 1)%Z = true) as -> by done.
  unfold create_worker. rewrite Hmin. cbn [for_range].
  destruct (create_one_worker_spawns w Hr) as (w' & E & H1 & H2 & H3 & _ & H4).
  unfold mbind, M_bind. rewrite E. exists w'. cbn. auto.
Qed.

(** X19.  From submission to the result.  On a running Dispatcher with an
    empty queue and a free slot, [submit_task] of a pending synchronous task
    (with a free permit unless [timeout == -1]) enqueues it and spawns the
    Worker with the next number; the first stretch of that Worker takes the
    task, the second calls the callable; when it returns [v] the task is
    finished with result [v], the permit is back, the queue is empty and the
    Worker, still registered and holding its slot, is at the head of its
    loop again. *)
Theorem submitted_task_is_run behaviour (w : World) (task : tref)
    (timeout : option Z) (x : Task) (f : Future) (v : pyval) :
  is_running w = true → tasks w = [] → (0 < _remain_workers w)%Z →
  (timeout ≠ Some (-1)%Z → 0 < _semaphore w)%Z →
  task_heap w !! task = Some x → base x = Some f → _state f = PENDING →
  is_async x = false →
  call behaviour (func x) (args x) (kwargs x) = Ok v →
  let me := _counter w in
  ∃ w1 w2 w3,
    submit_task task timeout w = Returns task w1 ∧
    workers w1 = <[worker_name me := me]> (workers w) ∧
    tasks w1 = [task] ∧
    Worker_step behaviour me w1 = Returns tt w2 ∧
    tasks w2 = [] ∧
    Worker_step behaviour me w2 = Returns tt w3 ∧
    state_of w3 task = Some FINISHED ∧
    result_of w3 task = Some v ∧
    _semaphore w3 = (_semaphore w + Z.of_nat (permits (_done_callbacks f)))%Z ∧
    workers w3 = <[worker_name me := me]> (workers w) ∧
    _remain_workers w3 = (_remain_workers w - 1)%Z ∧
    worker_heap w3 !! me = Some (new_worker (trace w) me).
Proof.
  intros Hrun Hq Hslot Hperm Hx Hf Hp Hsync Hcall me.
  (* the submission *)
  set (x1 := Task_set_dispatcher true x).
  destruct (submit_task_enqueues w task timeout x f Hrun Hx Hf)
    as (wa & f1 & Esub & Ta & Ha & Hp1 & _ & He1 & Hs1 & Pa & Wa & La & Tra);
    [by rewrite Hp | done |].
  rewrite Hq in Ta. cbn in Ta. rewrite Hp in Hp1.
  set (x2 := Task_set_base (Some f1) x1) in *.
  assert (Hrem : _remain_workers wa = _remain_workers w) by (unfold pool in Pa; congruence).
  assert (Hcnt : _counter wa = _counter w) by (unfold pool in Pa; congruence).
  assert (Hwsa : workers wa = workers w) by (unfold pool in Pa; congruence).
  destruct (adjust_workers_spawns_one wa task) as (w1 & E1 & R1 & Ws1 & Wh1 & Ho1);
    [lia | done |].
  rewrite Hcnt, Tra, Wa in Wh1. rewrite Hcnt, Hwsa in Ws1. fold me in Wh1, Ws1.
  apply outside_pool_fields in Ho1 as (T1 & S1 & H1 & L1 & B1 & C1 & N1).
  set (k := new_worker (trace w) me) in *.
  assert (Hk1 : worker_heap w1 !! me = Some k) by (rewrite Wh1; apply lookup_insert_eq).
  assert (Hrunnable : ∀ p, runnable (Worker_set_at_ p k) = true).
  { intros p. unfold runnable. cbn. by destruct (trace w). }
  assert (Hrun1 : is_running w1 = true).
  { unfold is_running, lifecycle in *.
    assert (_shutdown w1 = _shutdown w) as -> by congruence.
    assert (_running w1 = _running w) as -> by congruence. exact Hrun. }
  (* the Worker takes the task *)
  assert (E2 : Worker_step behaviour me w1 =
                 Returns tt
                   (set_worker_heap (<[me := Worker_set_at_ (Holding task) k]> (worker_heap w1))
                      (set_task_heap (<[task := Task_set_worker (Some me) x2]> (task_heap w1))
                         (set_tasks [] w1)))).
  { rewrite (Worker_step_runnable behaviour w1 me k Hk1 (Hrunnable AtLoopHead)).
    cbn [at_ k new_worker]. unfold try_except. unfold mbind, M_bind at 1.
    rewrite (Worker_fetch_head w1 me k task [] x2); try done.
    - by rewrite T1, Ta.
    - rewrite H1, Ha. apply lookup_insert_eq. }
  set (w2 := set_worker_heap _ _) in E2.
  (* the Worker calls the callable *)
  edestruct (Worker_execute_sync behaviour w2 me (Worker_set_at_ (Holding task) k) task
               (Task_set_worker (Some me) x2) f1 v)
    as (w3 & E3 & H3 & S3 & W3 & B3 & P3 & T3).
  { subst w2. cbn. apply lookup_insert_eq. }
  { subst w2. cbn. apply lookup_insert_eq. }
  { reflexivity. }
  { by rewrite Hp1. }
  { exact Hsync. }
  { exact Hcall. }
  exists w1, w2, w3.
  split. { rewrite Esub. unfold mbind, M_bind. by rewrite E1. }
  split; [exact Ws1|]. split; [by rewrite T1, Ta|]. split; [exact E2|].
  split; [done|]. split.
  { erewrite Worker_step_runnable;
      [| subst w2; cbn; apply lookup_insert_eq | apply (Hrunnable (Holding task))].
    cbn [at_ Worker_set_at_]. unfold try_except. by rewrite E3. }
  unfold state_of, result_of. rewrite H3, lookup_insert_eq. cbn.
  split; [done|]. split; [done|]. split.
  { rewrite S3. subst w2. cbn. rewrite S1. lia. }
  unfold pool in P3. subst w2. cbn in P3.
  split; [congruence|]. split; [congruence|].
  rewrite W3. cbn. rewrite lookup_insert_eq. done.
Qed.

(** ** Permits *)

Lemma owed_by_delete (h : gmap tref Task) (t : tref) (x : Task) :
  h !! t = Some x → owed_by h = owed x + owed_by (delete t h).
Proof.
  intros Hx. unfold owed_by.
  apply (map_fold_delete_L (λ _ x n, owed x + n)); [|done]. intros. lia.
Qed.

Lemma owed_by_insert_fresh (h : gmap tref Task) (t : tref) (x : Task) :
  h !! t = None → owed_by (<[t:=x]> h) = owed x + owed_by h.
Proof.
  intros Hx. unfold owed_by.
  apply (map_fold_insert_L (λ _ x n, owed x + n)); [|done]. intros. lia.
Qed.

Lemma owed_by_update (h : gmap tref Task) (t : tref) (x x' : Task) :
  h !! t = Some x → owed_by (<[t:=x']> h) + owed x = owed_by h + owed x'.
Proof.
  intros Hx. rewrite (owed_by_delete h t x Hx), <- (insert_delete_eq h).
  rewrite owed_by_insert_fresh by apply lookup_delete_eq. lia.
Qed.

Lemma owed_by_insert_le (h : gmap tref Task) (t : tref) (x' : Task) :
  owed_by (<[t:=x']> h) ≤ owed_by h + owed x'.
Proof.
  destruct (h !! t) as [x|] eqn:Hx.
  - pose proof (owed_by_update h t x x' Hx). lia.
  - rewrite owed_by_insert_fresh by done. lia.
Qed.

Lemma within_permits_same (w w' : World) :
  outside_pool w' = outside_pool w → within_permits w → within_permits w'.
Proof.
  intros Ho. assert (Hm : max_workers w' = max_workers w)
    by (unfold outside_pool in Ho; congruence).
  apply outside_pool_fields in Ho as (_ & S & H & _).
  unfold within_permits. by rewrite S, H, Hm.
Qed.

Lemma within_permits_hooks (w w' : World) :
  outside_hooks w' = outside_hooks w → _semaphore w' = _semaphore w →
  within_permits w → within_permits w'.
Proof.
  intros Ho S. assert (Hm : max_workers w' = max_workers w)
    by (unfold outside_hooks in Ho; congruence).
  apply outside_hooks_fields in Ho as (_ & _ & H & _).
  unfold within_permits. by rewrite S, H, Hm.
Qed.

(** Storing an outcome and running the hooks. *)
Lemma settle (w : World) (t : tref) (x : Task) (f' : Future) :
  task_heap w !! t = Some x →
  ∃ w', (put_base t f';; _invoke_callbacks t) w = Returns tt w' ∧
        _semaphore w' = (_semaphore w + Z.of_nat (permits (_done_callbacks f')))%Z ∧
        max_workers w' = max_workers w ∧
        task_heap w' = <[t := Task_set_base (Some f') x]> (task_heap w) ∧
        next_task w' = next_task w.
Proof.
  intros Hx. unfold mbind, M_bind. rewrite (put_base_eq w t x _ Hx).
  erewrite invoke_callbacks_eq; [| cbn; apply lookup_insert_eq | cbn; reflexivity].
  match goal with |- context [for_each ?hs ?b ?w1] =>
    destruct (hooks_run hs t w1) as (w' & -> & Hs & Ho) end.
  exists w'. split; [done|]. split; [exact Hs|].
  unfold outside_hooks in Ho. cbn in Ho. repeat split; congruence.
Qed.

Lemma settle_within (w : World) (t : tref) (x : Task) (f f' : Future) :
  task_heap w !! t = Some x → base x = Some f →
  is_terminal (_state f) = false → is_terminal (_state f') = true →
  _done_callbacks f' = _done_callbacks f →
  within_permits w →
  within_permits (world_of ((put_base t f';; _invoke_callbacks t) w)).
Proof.
  intros Hx Hf Hp Hp' Hh [Hpos Hle].
  destruct (settle w t x f' Hx) as (w' & -> & Hs & Hm & Hheap & _). cbn.
  pose proof (owed_by_update (task_heap w) t x (Task_set_base (Some f') x) Hx) as Hu.
  unfold owed at 1 2 in Hu. cbn in Hu. rewrite Hf, Hp, Hp' in Hu.
  unfold within_permits. rewrite Hs, Hm, Hheap, Hh. lia.
Qed.

Lemma get_base_cases (t : tref) (w : World) :
  (∃ x f, task_heap w !! t = Some x ∧ base x = Some f ∧ get_base t w = Returns f w) ∨
  (∃ e, get_base t w = Raises e w).
Proof.
  unfold get_base, get_task, mbind, M_bind.
  destruct (task_heap w !! t) as [x|]; [|right; eauto].
  destruct (base x) as [f|] eqn:Hf; [left; eauto | right; eauto].
Qed.

Lemma set_result_within (t : tref) (v : pyval) :
  preserves (keeps within_permits) (set_result t v).
Proof.
  intros w HB. unfold set_result. unfold mbind, M_bind at 1.
  destruct (get_base_cases t w) as [(x & f & Hx & Hf & ->)|(e & ->)]; [|exact HB].
  destruct (is_terminal (_state f)) eqn:Hp; [exact HB|].
  by apply (settle_within w t x f).
Qed.

Lemma set_exception_within (t : tref) (e : exn) :
  preserves (keeps within_permits) (set_exception t e).
Proof.
  intros w HB. unfold set_exception. unfold mbind, M_bind at 1.
  destruct (get_base_cases t w) as [(x & f & Hx & Hf & ->)|(e' & ->)]; [|exact HB].
  destruct (is_terminal (_state f)) eqn:Hp; [exact HB|].
  by apply (settle_within w t x f).
Qed.

Lemma Future_cancel_within (t : tref) :
  preserves (keeps within_permits) (Future_cancel t).
Proof.
  intros w HB. unfold Future_cancel. unfold mbind, M_bind at 1.
  destruct (get_base_cases t w) as [(x & f & Hx & Hf & ->)|(e' & ->)]; [|exact HB].
  destruct (_state f) eqn:Hs; try exact HB.
  pose proof (settle_within w t x f
    {| _state := CANCELLED; _result := _result f; _exception := _exception f;
       _done_callbacks := _done_callbacks f |} Hx Hf) as H.
  rewrite Hs in H. specialize (H eq_refl eq_refl eq_refl HB).
  revert H. unfold mbind, M_bind.
  destruct (put_base t _ w) as [[] w1|e1 w1|w1]; cbn; try done.
  by destruct (_invoke_callbacks t w1).
Qed.

Lemma user_callback_within (t : tref) (fn : pyval) :
  preserves (keeps within_permits) (add_done_callback t (UserHook fn)).
Proof.
  intros w HB. unfold add_done_callback. unfold mbind, M_bind at 1.
  destruct (get_base_cases t w) as [(x & f & Hx & Hf & ->)|(e' & ->)]; [|exact HB].
  destruct (is_terminal (_state f)) eqn:Hp; cbn [negb].
  - destruct fn; exact HB.
  - rewrite (put_base_eq w t x _ Hx). cbn.
    destruct HB as [Hpos Hle]. split; [exact Hpos|]. cbn.
    pose proof (owed_by_update (task_heap w) t x
      (Task_set_base (Some {| _state := _state f; _result := _result f;
         _exception := _exception f;
         _done_callbacks := _done_callbacks f ++ [UserHook fn] |}) x) Hx) as Hu.
    unfold owed at 1 2 in Hu. cbn in Hu. rewrite Hf, Hp, permits_app in Hu.
    cbn in Hu. lia.
Qed.

(** An attribute assignment on the Task that was just read. *)
Lemma reassign_within (w : World) (t : tref) (x x' : Task) :
  task_heap w !! t = Some x → owed x' ≤ owed x →
  within_permits w →
  within_permits (set_task_heap (<[t := x']> (task_heap w)) w).
Proof.
  intros Hx Hle [Hpos Hsum]. split; [exact Hpos|]. cbn.
  pose proof (owed_by_update (task_heap w) t x x' Hx). lia.
Qed.

Lemma get_put_task_within {B} (t : tref) (g : Task → Task) (k : Task → unit → M B) :
  (∀ x, owed (g x) ≤ owed x) →
  (∀ x u, preserves (keeps within_permits) (k x u)) →
  preserves (keeps within_permits) (get_task t ≫= λ x, put_task t (g x) ≫= k x).
Proof.
  intros Hg Hk w HB. unfold mbind, M_bind, get_task.
  destruct (task_heap w !! t) as [x|] eqn:Hx; [|exact HB].
  cbn. apply Hk. by apply (reassign_within w t x).
Qed.

Lemma get_put_task_within_last (t : tref) (g : Task → Task) :
  (∀ x, owed (g x) ≤ owed x) →
  preserves (keeps within_permits) (get_task t ≫= λ x, put_task t (g x)).
Proof.
  intros Hg w HB. unfold mbind, M_bind, get_task.
  destruct (task_heap w !! t) as [x|] eqn:Hx; [|exact HB].
  cbn. by apply (reassign_within w t x).
Qed.

(** A new object that owes nothing. *)
Lemma put_task_within (t : tref) (x' : Task) :
  owed x' = 0 → preserves (keeps within_permits) (put_task t x').
Proof.
  intros H0 w [Hpos Hsum]. split; [exact Hpos|]. cbn.
  pose proof (owed_by_insert_le (task_heap w) t x'). lia.
Qed.

Lemma adjust_workers_within : preserves (keeps within_permits) adjust_workers.
Proof.
  intros w HB. destruct (adjust_workers_returns w) as (w' & -> & Ho).
  by apply (within_permits_same w).
Qed.

(** [future.result()] leaves the counters alone, and of the Tasks it
    touches at most its own, of which it only sets the handle. *)
Lemma future_result_heap behaviour (me : wref) (t : tref) (w : World) :
  ∃ w', world_of (future_result behaviour me t w) = w' ∧
        _semaphore w' = _semaphore w ∧ max_workers w' = max_workers w ∧
        next_task w' = next_task w ∧
        (task_heap w' = task_heap w ∨
         ∃ x h, task_heap w !! t = Some x ∧
                task_heap w' = <[t := Task_set_future h x]> (task_heap w)).
Proof.
  assert (Hruns : ∀ {A} (m : M A) (w1 : World),
            (∀ w2, world_of (m w2) = w2) →
            ∃ w', world_of (M_bind unit A (λ _, m) (runs me) w1) = w' ∧
                  _semaphore w' = _semaphore w1 ∧ max_workers w' = max_workers w1 ∧
                  next_task w' = next_task w1 ∧ task_heap w' = task_heap w1).
  { intros A m w1 Hm.
    assert (H : preserves (same (λ w, (_semaphore w, max_workers w, next_task w,
                                         task_heap w))) (runs me)).
    { unfold runs. preserve. }
    specialize (H w1). unfold same in H. eexists. split; [reflexivity|].
    unfold M_bind.
    destruct (runs me w1) as [[] w2|e w2|w2]; cbn in H |- *; rewrite ?Hm;
      injection H as -> -> -> ->; done. }
  assert (Hlift : ∀ (r : result pyval) (w2 : World), world_of (lift r w2) = w2)
    by (by intros []).
  unfold future_result. unfold mbind, M_bind at 1. unfold get_task.
  destruct (task_heap w !! t) as [x|] eqn:Hx; [|cbn; eauto 10]. cbv beta iota.
  destruct (future x) as [[]|]; [| | | |cbn; eauto 10].
  - destruct (match call behaviour (func x) (args x) (kwargs x) with
              | Ok _ => false | Err e => is_exit_signal e end).
    + cbn. eexists. split; [reflexivity|]. cbn. repeat (split; [done|]). right. eauto.
    + unfold put_task. unfold mbind, M_bind at 1. cbn [modify].
      match goal with |- context [M_bind _ _ (λ _, ?m) (runs me) ?w1] =>
        destruct (Hruns _ m w1) as (w' & E & H1 & H2 & H3 & H4) end.
      { intros w2. apply Hlift. }
      exists w'. split; [exact E|]. cbn in H1, H2, H3, H4.
      repeat (split; [done|]). right. eauto.
  - destruct (Hruns _ (raise (A := pyval) CancelledError) w)
      as (w' & E & H1 & H2 & H3 & H4); [done|].
    exists w'. auto 10.
  - match goal with |- context [M_bind _ _ (λ _, ?m) (runs me) ?w1] =>
      destruct (Hruns _ m w1) as (w' & E & H1 & H2 & H3 & H4) end.
    { intros w2. apply Hlift. }
    exists w'. auto 10.
  - cbn. eauto 10.
Qed.

Lemma future_result_within behaviour (me : wref) (t : tref) :
  preserves (keeps within_permits) (future_result behaviour me t).
Proof.
  intros w HB.
  destruct (future_result_heap behaviour me t w) as (w' & -> & H1 & H2 & _ & H4).
  assert (Heq : ∀ h, within_permits (set_task_heap h w) → task_heap w' = h →
                     within_permits w').
  { intros h Hh E. unfold within_permits in *. cbn in Hh. by rewrite H1, H2, E. }
  destruct H4 as [E|(x & h & Hx & E)].
  - apply (Heq (task_heap w)); [|exact E]. by destruct w.
  - apply (Heq _ (reassign_within w t x (Task_set_future h x) Hx (le_n _) HB) E).
Qed.

#[export] Hint Resolve set_result_within set_exception_within Future_cancel_within
  user_callback_within adjust_workers_within future_result_within : preserves.

Ltac owes := intros; unfold owed; cbn; lia.

Ltac preserve_permits_step :=
  first
    [ lazymatch goal with
      | |- preserves (keeps within_permits) (get_task ?t ≫= λ x, put_task ?t _ ≫= _) =>
          refine (get_put_task_within t _ _ _ _); [owes | intros ? ?]
      | |- preserves (keeps within_permits) (get_task ?t ≫= λ x, put_task ?t _) =>
          refine (get_put_task_within_last t _ _); owes
      | |- preserves (keeps within_permits) (put_task _ _) =>
          refine (put_task_within _ _ _); reflexivity
      end
    | preserve_step ].

Ltac preserve_permits := repeat preserve_permits_step.

Lemma Task_init_within (func args kwargs callback : pyval) :
  preserves (keeps within_permits) (Task_init func args kwargs callback).
Proof. unfold Task_init. preserve_permits. Qed.

Lemma releasing_hook_within (w : World) (t : tref) :
  (0 ≤ _semaphore w)%Z →
  (_semaphore w + 1 + Z.of_nat (owed_by (task_heap w)) ≤ max_workers w)%Z →
  within_permits (world_of (add_done_callback t ReleasePermit w)).
Proof.
  intros Hpos Hsum. unfold add_done_callback. unfold mbind, M_bind at 1.
  destruct (get_base_cases t w) as [(x & f & Hx & Hf & ->)|(e' & ->)].
  - destruct (is_terminal (_state f)) eqn:Hp; cbn [negb].
    + cbn. split; cbn; lia.
    + rewrite (put_base_eq w t x _ Hx). cbn. split; [exact Hpos|]. cbn.
      pose proof (owed_by_update (task_heap w) t x
        (Task_set_base (Some {| _state := _state f; _result := _result f;
           _exception := _exception f;
           _done_callbacks := _done_callbacks f ++ [ReleasePermit] |}) x) Hx) as Hu.
      unfold owed at 1 2 in Hu. cbn in Hu. rewrite Hf, Hp, permits_app in Hu.
      cbn in Hu. lia.
  - cbn. split; lia.
Qed.

Lemma submit_task_within (task : tref) (timeout : option Z) :
  preserves (keeps within_permits) (submit_task task timeout).
Proof.
  intros w HB. unfold submit_task. step_m.
  destruct (is_running w); cbn; [|exact HB].
  unfold get_task. destruct (task_heap w !! task) as [x|] eqn:Hx; [|exact HB]. cbn.
  set (w1 := set_task_heap _ w).
  assert (HB1 : within_permits w1).
  { apply (reassign_within w task x); [done | | done]. unfold owed. cbn. lia. }
  clearbody w1.
  assert (Hrest : ∀ m : M unit, within_permits (world_of (m w1)) →
            within_permits (world_of (match m w1 with
                                      | Returns _ w' =>
                                          match adjust_workers w' with
                                          | Returns _ w'0 => Returns task w'0
                                          | Raises e w'0 => Raises e w'0
                                          | Blocks w'0 => Blocks w'0
                                          end
                                      | Raises e w' => Raises e w'
                                      | Blocks w' => Blocks w'
                                      end))).
  { intros m Hm. destruct (m w1) as [[] w2|e w2|w2]; cbn in Hm |- *; try exact Hm.
    pose proof (adjust_workers_within w2 Hm) as H.
    by destruct (adjust_workers w2). }
  apply Hrest.
  assert (Hbnd : within_permits (world_of (
             match acquire _semaphore set_semaphore w1 with
             | Returns _ w' =>
                 add_done_callback task ReleasePermit
                   (set_tasks (tasks w' ++ [task]) w')
             | Raises e w' => Raises e w'
             | Blocks w' => Blocks w'
             end))).
  { unfold acquire. destruct (0 <? _semaphore w1)%Z eqn:E; [|exact HB1].
    apply Z.ltb_lt in E. destruct HB1 as [Hpos Hsum].
    apply releasing_hook_within; cbn; lia. }
  destruct timeout as [[| |[]]|]; first [exact Hbnd | exact HB1].
Qed.

Lemma Task_cancel_within (task : tref) :
  preserves (keeps within_permits) (Task_cancel task).
Proof.
  unfold Task_cancel.
  refine (preserves_bind _ _ _ _ _); [preserve | intros x0].
  refine (preserves_bind _ _ _ _ _); [preserve | intros _].
  intros w HB. unfold mbind, M_bind at 1. unfold get_task.
  destruct (task_heap w !! task) as [x|] eqn:Hx; [|exact HB].
  unfold mbind, M_bind.
  destruct (future x) as [h|]; step_m.
  - apply Future_cancel_within. apply (reassign_within w task x); [done | | done].
    unfold owed. cbn. lia.
  - by apply Future_cancel_within.
Qed.

#[export] Hint Resolve Task_init_within submit_task_within Task_cancel_within : preserves.

Lemma exec_within_permits behaviour (o : op) :
  preserves (keeps within_permits) (exec behaviour o).
Proof. destruct o; cbn [exec]; preserve_permits. Qed.

Lemma Dispatcher_init_within (n : Z) (tr : bool) (w : World) :
  Dispatcher_init n tr = Ok w → within_permits w ∧ max_workers w = n.
Proof.
  unfold Dispatcher_init. destruct (n <? 0)%Z eqn:E; [discriminate|].
  intros [= <-]. apply Z.ltb_ge in E. split; [|done]. split; cbn; [exact E|].
  unfold owed_by. rewrite map_fold_empty. lia.
Qed.

Lemma exec_max_workers behaviour (o : op) :
  preserves (same max_workers) (exec behaviour o).
Proof. destruct o; cbn [exec]; preserve. Qed.

(** X20.  In every run of a Dispatcher from its construction, whatever
    the calls and thread steps, the permit counter is never overdrawn, and
    the free permits plus the permits owed by unfinished Tasks (one for each
    bounded submission whose releasing hook has not run yet) never exceed
    [max_workers]: at most [max_workers] bounded submissions are unfinished
    at any time. *)
Theorem permits_are_never_exceeded behaviour (n : Z) (tr : bool) (w0 : World)
    (os : list op) :
  Dispatcher_init n tr = Ok w0 →
  let w := after_all behaviour os w0 in
  (0 ≤ _semaphore w)%Z ∧
  (_semaphore w + Z.of_nat (owed_by (task_heap w)) ≤ n)%Z.
Proof.
  intros Hinit. destruct (Dispatcher_init_within n tr w0 Hinit) as [HB Hm].
  clear Hinit. revert w0 HB Hm. induction os as [|o os IH]; intros w0 HB Hm.
  - cbn. destruct HB. split; [done | lia].
  - apply (IH (after behaviour o w0)).
    + by apply exec_within_permits.
    + etrans; [apply exec_max_workers | exact Hm].
Qed.

(** ** A terminal Task never changes again *)

Lemma settled_elsewhere (t t' : tref) (f : Future) (x' : Task) (w : World) :
  t' ≠ t → settled t f w →
  settled t f (set_task_heap (<[t' := x']> (task_heap w)) w).
Proof.
  intros Hne (Hlt & x & Hx & Hf). split; [exact Hlt|]. exists x. cbn.
  by rewrite lookup_insert_ne.
Qed.

Lemma settled_reassigned (t t' : tref) (f : Future) (x x' : Task) (w : World) :
  task_heap w !! t' = Some x → base x' = base x → settled t f w →
  settled t f (set_task_heap (<[t' := x']> (task_heap w)) w).
Proof.
  intros Hx' Hb HS. destruct (decide (t' = t)) as [->|Hne];
    [|by apply settled_elsewhere].
  destruct HS as (Hlt & x0 & Hx & Hf). split; [exact Hlt|]. exists x'. cbn.
  rewrite lookup_insert_eq. split; [done|]. congruence.
Qed.

Lemma get_put_task_settled {B} (t0 : tref) (f : Future) (t : tref) (g : Task → Task)
    (k : Task → unit → M B) :
  (∀ x, base (g x) = base x) →
  (∀ x u, preserves (keeps (settled t0 f)) (k x u)) →
  preserves (keeps (settled t0 f)) (get_task t ≫= λ x, put_task t (g x) ≫= k x).
Proof.
  intros Hg Hk w HS. unfold mbind, M_bind, get_task.
  destruct (task_heap w !! t) as [x|] eqn:Hx; [|exact HS].
  cbn. apply Hk. by apply (settled_reassigned t0 t f x).
Qed.

Lemma get_put_task_settled_last (t0 : tref) (f : Future) (t : tref) (g : Task → Task) :
  (∀ x, base (g x) = base x) →
  preserves (keeps (settled t0 f)) (get_task t ≫= λ x, put_task t (g x)).
Proof.
  intros Hg w HS. unfold mbind, M_bind, get_task.
  destruct (task_heap w !! t) as [x|] eqn:Hx; [|exact HS].
  cbn. by apply (settled_reassigned t0 t f x).
Qed.

Section Frozen.

Variables (t0 : tref) (f0 : Future).
Hypothesis terminal : is_terminal (_state f0) = true.

(** What [get_base] finds, told apart by whether it is the settled Task. *)
Lemma get_base_settled (t : tref) (w : World) :
  settled t0 f0 w →
  (∃ e, get_base t w = Raises e w) ∨
  (t = t0 ∧ get_base t w = Returns f0 w) ∨
  (t ≠ t0 ∧ ∃ x f, task_heap w !! t = Some x ∧ get_base t w = Returns f w).
Proof.
  intros (Hlt & x0 & Hx0 & Hf0).
  destruct (get_base_cases t w) as [(x & f & Hx & Hf & E)|?]; [|by left].
  right. destruct (decide (t = t0)) as [->|Hne].
  - left. split; [done|]. rewrite E. congruence.
  - right. eauto 6.
Qed.

Lemma settle_settled (t : tref) (x : Task) (f' : Future) (w : World) :
  t ≠ t0 → task_heap w !! t = Some x → settled t0 f0 w →
  settled t0 f0 (world_of ((put_base t f';; _invoke_callbacks t) w)).
Proof.
  intros Hne Hx (Hlt & x0 & Hx0 & Hf0).
  destruct (settle w t x f' Hx) as (w' & -> & _ & _ & Hheap & Hnext). cbn.
  split; [by rewrite Hnext|]. exists x0. by rewrite Hheap, lookup_insert_ne.
Qed.

Lemma set_result_settled (t : tref) (v : pyval) :
  preserves (keeps (settled t0 f0)) (set_result t v).
Proof.
  intros w HS. unfold set_result. unfold mbind, M_bind at 1.
  destruct (get_base_settled t w HS) as [(e & ->)|[(-> & ->)|(Hne & x & f & Hx & ->)]].
  - exact HS.
  - by rewrite terminal.
  - destruct (is_terminal (_state f)); [exact HS|]. by apply (settle_settled t x).
Qed.

Lemma set_exception_settled (t : tref) (e : exn) :
  preserves (keeps (settled t0 f0)) (set_exception t e).
Proof.
  intros w HS. unfold set_exception. unfold mbind, M_bind at 1.
  destruct (get_base_settled t w HS) as [(e' & ->)|[(-> & ->)|(Hne & x & f & Hx & ->)]].
  - exact HS.
  - by rewrite terminal.
  - destruct (is_terminal (_state f)); [exact HS|]. by apply (settle_settled t x).
Qed.

Lemma Future_cancel_settled (t : tref) :
  preserves (keeps (settled t0 f0)) (Future_cancel t).
Proof.
  intros w HS. unfold Future_cancel. unfold mbind, M_bind at 1.
  destruct (get_base_settled t w HS) as [(e' & ->)|[(-> & ->)|(Hne & x & f & Hx & ->)]].
  - exact HS.
  - destruct (_state f0); try discriminate; exact HS.
  - destruct (_state f); try exact HS.
    pose proof (settle_settled t x
      {| _state := CANCELLED; _result := _result f; _exception := _exception f;
         _done_callbacks := _done_callbacks f |} w Hne Hx HS) as H.
    revert H. unfold mbind, M_bind.
    destruct (put_base t _ w) as [[] w1|e1 w1|w1]; cbn; try done.
    by destruct (_invoke_callbacks t w1).
Qed.

Lemma add_done_callback_settled (t : tref) (h : hook) :
  preserves (keeps (settled t0 f0)) (add_done_callback t h).
Proof.
  intros w HS. unfold add_done_callback. unfold mbind, M_bind at 1.
  destruct (get_base_settled t w HS) as [(e' & ->)|[(-> & ->)|(Hne & x & f & Hx & ->)]].
  - exact HS.
  - rewrite terminal. cbn [negb]. destruct h as [[]|]; exact HS.
  - destruct (is_terminal (_state f)); cbn [negb].
    + destruct h as [[]|]; exact HS.
    + rewrite (put_base_eq w t x _ Hx). cbn. by apply settled_elsewhere.
Qed.

Lemma future_result_settled behaviour (me : wref) (t : tref) :
  preserves (keeps (settled t0 f0)) (future_result behaviour me t).
Proof.
  intros w HS.
  destruct (future_result_heap behaviour me t w) as (w' & -> & _ & _ & H3 & H4).
  assert (Heq : ∀ h, settled t0 f0 (set_task_heap h w) → task_heap w' = h →
                     settled t0 f0 w').
  { intros h Hh E. unfold settled in *. cbn in Hh. by rewrite H3, E. }
  destruct H4 as [E|(x & h & Hx & E)].
  - apply (Heq (task_heap w)); [|exact E]. by destruct w.
  - apply (Heq _ (settled_reassigned t0 t f0 x (Task_set_future h x) w Hx eq_refl HS) E).
Qed.

Lemma Task_init_settled (func args kwargs callback : pyval) :
  preserves (keeps (settled t0 f0)) (Task_init func args kwargs callback).
Proof.
  intros w HS. unfold Task_init. step_m.
  set (x := {| func := func; args := _; kwargs := _; callback := callback;
               dispatcher := false; worker := None; future := None; base := None |}).
  set (w1 := set_task_heap (<[next_task w := x]> (task_heap w))
               (set_next_task (S (next_task w)) w)).
  assert (HS1 : settled t0 f0 w1).
  { destruct HS as (Hlt & x0 & Hx0 & Hf0). split; [cbn; lia|]. exists x0. cbn.
    rewrite lookup_insert_ne by lia. done. }
  assert (Hne : next_task w ≠ t0) by (destruct HS; lia).
  assert (Hx1 : task_heap w1 !! next_task w = Some x) by (cbn; apply lookup_insert_eq).
  destruct (truthy callback).
  - unfold add_done_callback, get_base, get_task. step_m. rewrite lookup_insert_eq.
    cbn. exact HS1.
  - cbn. rewrite (put_base_eq w1 _ x _ Hx1). cbn. by apply settled_elsewhere.
Qed.

Lemma Task_cancel_settled (task : tref) :
  preserves (keeps (settled t0 f0)) (Task_cancel task).
Proof.
  unfold Task_cancel.
  refine (preserves_bind _ _ _ _ _); [preserve | intros x0].
  refine (preserves_bind _ _ _ _ _); [preserve | intros _].
  intros w HS. unfold mbind, M_bind at 1. unfold get_task.
  destruct (task_heap w !! task) as [x|] eqn:Hx; [|exact HS].
  unfold mbind, M_bind.
  destruct (future x) as [h|]; step_m.
  - apply Future_cancel_settled. by apply (settled_reassigned t0 task f0 x).
  - by apply Future_cancel_settled.
Qed.

End Frozen.

#[export] Hint Resolve set_result_settled set_exception_settled Future_cancel_settled
  add_done_callback_settled future_result_settled Task_init_settled
  Task_cancel_settled : preserves.

Ltac preserve_settled_step :=
  first
    [ lazymatch goal with
      | |- preserves (keeps (settled _ _)) (get_task ?t ≫= λ x, put_task ?t _ ≫= _) =>
          refine (get_put_task_settled _ _ t _ _ _ _); [intros ?; reflexivity | intros ? ?]
      | |- preserves (keeps (settled _ _)) (get_task ?t ≫= λ x, put_task ?t _) =>
          refine (get_put_task_settled_last _ _ t _ _); intros ?; reflexivity
      end
    | preserve_step ].

Ltac preserve_settled := repeat preserve_settled_step.

Lemma exec_settled behaviour (t0 : tref) (f0 : Future) (o : op) :
  is_terminal (_state f0) = true →
  preserves (keeps (settled t0 f0)) (exec behaviour o).
Proof. intros Ht. destruct o; cbn [exec]; preserve_settled. Qed.

Lemma numbered_reassigned (t : tref) (x x' : Task) (w : World) :
  task_heap w !! t = Some x → tasks_numbered w →
  tasks_numbered (set_task_heap (<[t := x']> (task_heap w)) w).
Proof.
  intros Hx HN t' y. cbn. intros [[<- _]|[_ Hl]]%lookup_insert_Some; eauto.
Qed.

Lemma get_put_task_numbered {B} (t : tref) (g : Task → Task) (k : Task → unit → M B) :
  (∀ x u, preserves (keeps tasks_numbered) (k x u)) →
  preserves (keeps tasks_numbered) (get_task t ≫= λ x, put_task t (g x) ≫= k x).
Proof.
  intros Hk w HN. unfold mbind, M_bind, get_task.
  destruct (task_heap w !! t) as [x|] eqn:Hx; [|exact HN].
  cbn. apply Hk. by apply (numbered_reassigned t x).
Qed.

Lemma get_put_task_numbered_last (t : tref) (g : Task → Task) :
  preserves (keeps tasks_numbered) (get_task t ≫= λ x, put_task t (g x)).
Proof.
  intros w HN. unfold mbind, M_bind, get_task.
  destruct (task_heap w !! t) as [x|] eqn:Hx; [|exact HN].
  cbn. by apply (numbered_reassigned t x).
Qed.

Ltac preserve_numbered_step :=
  first
    [ lazymatch goal with
      | |- preserves (keeps tasks_numbered) (get_task ?t ≫= λ x, put_task ?t _ ≫= _) =>
          refine (get_put_task_numbered t _ _ _); intros ? ?
      | |- preserves (keeps tasks_numbered) (get_task ?t ≫= λ x, put_task ?t _) =>
          refine (get_put_task_numbered_last t _)
      end
    | preserve_step ].

Ltac preserve_numbered := repeat preserve_numbered_step.

Lemma future_result_numbered behaviour (me : wref) (t : tref) :
  preserves (keeps tasks_numbered) (future_result behaviour me t).
Proof.
  intros w HN.
  destruct (future_result_heap behaviour me t w) as (w' & -> & _ & _ & H3 & H4).
  assert (Heq : ∀ h, tasks_numbered (set_task_heap h w) → task_heap w' = h →
                     tasks_numbered w').
  { intros h Hh E. unfold tasks_numbered in *. cbn in Hh. by rewrite H3, E. }
  destruct H4 as [E|(x & h & Hx & E)].
  - apply (Heq (task_heap w)); [|exact E]. by destruct w.
  - apply (Heq _ (numbered_reassigned t x (Task_set_future h x) w Hx HN) E).
Qed.

Lemma Future_cancel_numbered (t : tref) :
  preserves (keeps tasks_numbered) (Future_cancel t).
Proof. unfold Future_cancel. preserve_numbered. Qed.

Lemma Task_cancel_numbered (task : tref) :
  preserves (keeps tasks_numbered) (Task_cancel task).
Proof.
  unfold Task_cancel.
  refine (preserves_bind _ _ _ _ _); [preserve | intros x0].
  refine (preserves_bind _ _ _ _ _); [preserve | intros _].
  intros w HN. unfold mbind, M_bind at 1. unfold get_task.
  destruct (task_heap w !! task) as [x|] eqn:Hx; [|exact HN].
  unfold mbind, M_bind.
  destruct (future x) as [h|]; step_m.
  - apply Future_cancel_numbered. by apply (numbered_reassigned task x).
  - by apply Future_cancel_numbered.
Qed.

Lemma Task_init_numbered (func args kwargs callback : pyval) :
  preserves (keeps tasks_numbered) (Task_init func args kwargs callback).
Proof.
  intros w HN. unfold Task_init. step_m.
  set (x := {| func := func; args := _; kwargs := _; callback := callback;
               dispatcher := false; worker := None; future := None; base := None |}).
  set (w1 := set_task_heap (<[next_task w := x]> (task_heap w))
               (set_next_task (S (next_task w)) w)).
  assert (HN1 : tasks_numbered w1).
  { intros t y. cbn. intros [[<- _]|[_ Hl]]%lookup_insert_Some; [lia|].
    specialize (HN _ _ Hl). lia. }
  assert (Hx1 : task_heap w1 !! next_task w = Some x) by (cbn; apply lookup_insert_eq).
  destruct (truthy callback).
  - unfold add_done_callback, get_base, get_task. step_m. rewrite lookup_insert_eq.
    cbn. exact HN1.
  - cbn. rewrite (put_base_eq w1 _ x _ Hx1). cbn. by apply (numbered_reassigned _ x).
Qed.

#[export] Hint Resolve future_result_numbered Task_cancel_numbered
  Task_init_numbered : preserves.

Lemma exec_numbered behaviour (o : op) :
  preserves (keeps tasks_numbered) (exec behaviour o).
Proof. destruct o; cbn [exec]; preserve_numbered. Qed.

(** X22.  A terminal Task never changes again.  In every run of a
    Dispatcher from its construction, once a Task is cancelled or finished,
    whatever calls and thread steps follow ([set_result], [set_exception],
    [cancel], another submission, a Worker that executes it), its state,
    result, exception and done-callbacks are what they were: a result or an
    error is set at most once and a cancelled task is never revived. *)
Theorem terminal_tasks_are_frozen behaviour (n : Z) (tr : bool) (w0 : World)
    (before later : list op) (t : tref) (x : Task) (f : Future) :
  Dispatcher_init n tr = Ok w0 →
  let w := after_all behaviour before w0 in
  let w' := after_all behaviour later w in
  task_heap w !! t = Some x → base x = Some f → is_terminal (_state f) = true →
  ∃ x', task_heap w' !! t = Some x' ∧ base x' = Some f.
Proof.
  intros Hinit w w' Hx Hf Hterm.
  assert (HN : tasks_numbered w).
  { assert (H0 : tasks_numbered w0).
    { unfold Dispatcher_init in Hinit. destruct (n <? 0)%Z; [discriminate|].
      injection Hinit as <-. intros ? ? H. cbn in H. by rewrite lookup_empty in H. }
    subst w. clear Hinit Hx w'. revert w0 H0.
    induction before as [|o os IH]; intros w0 H0; [exact H0|].
    apply (IH (after behaviour o w0)). by apply exec_numbered. }
  assert (HS : settled t f w) by (split; [by eapply HN | eauto]).
  assert (HS' : settled t f w').
  { subst w'. clearbody w. clear Hinit Hx HN. revert w HS.
    induction later as [|o os IH]; intros w HS; [exact HS|].
    apply (IH (after behaviour o w)). by apply exec_settled. }
  by destruct HS' as [_ ?].
Qed.

(** ** Names *)

Lemma rename_free (w : World) (k : wref) (x x' : Worker) :
  worker_heap w !! k = Some x → name x' = name x →
  named_by_number w →
  named_by_number (set_worker_heap (<[k := x']> (worker_heap w)) w).
Proof.
  intros Hx Hn [Hh Hr]. split; [|exact Hr]. cbn. intros k' wk.
  intros [[<- <-]|[_ Hl]]%lookup_insert_Some; [|by apply Hh].
  rewrite Hn. by apply Hh.
Qed.

Lemma get_put_worker_names (k : wref) (g : Worker → Worker) :
  (∀ x, name (g x) = name x) →
  preserves (keeps named_by_number) (get_worker k ≫= λ x, put_worker k (g x)).
Proof.
  intros Hg w HN. unfold mbind, M_bind, get_worker.
  destruct (worker_heap w !! k) as [x|] eqn:Hx; [|exact HN].
  cbn. by apply (rename_free w k x).
Qed.

Lemma tasks_get_names (timeout : Z) (me : wref) (elapsed : bool) :
  preserves (keeps named_by_number) (tasks_get timeout me elapsed).
Proof.
  intros w HN. unfold tasks_get. destruct (tasks w); [|exact HN].
  destruct (worker_heap w !! me) as [x|] eqn:Hx; [|by destruct elapsed].
  destruct elapsed; cbn; by apply (rename_free w me x).
Qed.

Lemma SetAsyncExc_names (tid : wref) (exc : bool) :
  preserves (keeps named_by_number) (PyThreadState_SetAsyncExc tid exc).
Proof.
  intros w HN. unfold PyThreadState_SetAsyncExc.
  destruct (worker_heap w !! tid) as [x|] eqn:Hx; [|exact HN].
  destruct (alive x); [|exact HN]. cbn. by apply (rename_free w tid x).
Qed.

#[export] Hint Resolve tasks_get_names SetAsyncExc_names : preserves.

Ltac preserve_names_step :=
  first
    [ lazymatch goal with
      | |- preserves (keeps named_by_number) (get_worker ?k ≫= λ x, put_worker ?k _) =>
          refine (get_put_worker_names k _ _); intros ?; reflexivity
      end
    | preserve_step ].

Ltac preserve_names := repeat preserve_names_step.

Lemma Worker_stop_names (c : option wref) (k : wref) :
  preserves (keeps named_by_number) (Worker_stop_by c k).
Proof. unfold Worker_stop_by. preserve_names. Qed.

Lemma stop_worker_by_names (c : option wref) (idents : list string) :
  preserves (keeps named_by_number) (stop_worker_by c idents).
Proof.
  apply preserves_for_each; [apply _|]. intros ident w HN. step_m.
  assert (H1 : named_by_number (set_workers (delete ident (workers w)) w)).
  { destruct HN as [Hh Hr]. split; [exact Hh|]. cbn.
    intros nm k [_ Hl]%lookup_delete_Some. by apply Hr. }
  destruct (workers w !! ident) as [k|]; cbn; [|exact H1].
  apply (Worker_stop_names c k).
  destruct H1 as [Hh Hr]. split; [exact Hh | exact Hr].
Qed.

Lemma stop_worker_names (idents : list string) :
  preserves (keeps named_by_number) (stop_worker idents).
Proof. apply stop_worker_by_names. Qed.

Lemma create_one_worker_names : preserves (keeps named_by_number) create_one_worker.
Proof.
  intros w [Hh Hr]. unfold create_one_worker. step_m.
  unfold get_worker; cbn. rewrite lookup_insert_eq. step_m.
  rewrite insert_insert_eq.
  assert (H1 : ∀ r, named_by_number
    (set_remain_workers r
       (set_worker_heap
          (<[_counter w := Worker_set_alive true
               {| name := worker_name (_counter w); w_shutdown := false;
                  w_trace := trace w; _awaken := true; alive := false;
                  pending_exit := false; at_ := AtLoopHead; waited := 0 |}]>
             (worker_heap w))
          (set_workers (<[worker_name (_counter w) := _counter w]> (workers w))
             (set_counter (S (_counter w)) w))))).
  { intros r. split; cbn.
    - intros k wk [[<- <-]|[_ Hl]]%lookup_insert_Some; [done | by apply Hh].
    - intros nm k [[<- <-]|[_ Hl]]%lookup_insert_Some; [split; [done | lia]|].
      destruct (Hr _ _ Hl). split; [done | lia]. }
  unfold acquire; cbn.
  destruct (0 <? _remain_workers w)%Z; cbn; apply H1.
Qed.

#[export] Hint Resolve stop_worker_by_names stop_worker_names
  create_one_worker_names : preserves.

Lemma exec_names behaviour (o : op) :
  preserves (keeps named_by_number) (exec behaviour o).
Proof. destruct o; cbn [exec]; preserve_names. Qed.

(** X21.  In every run of a Dispatcher from its construction, an entry of
    the registry maps the name [worker-k] to Worker object number [k], which
    exists and bears that very name, and [k] was drawn from the naming
    counter: a name is never used again and no two names share a Worker. *)
Theorem registry_is_keyed_by_name behaviour (n : Z) (tr : bool) (w0 : World)
    (os : list op) (nm : string) (k : wref) :
  Dispatcher_init n tr = Ok w0 →
  let w := after_all behaviour os w0 in
  workers w !! nm = Some k →
  nm = worker_name k ∧ k < _counter w ∧
  ∃ wk, worker_heap w !! k = Some wk ∧ name wk = nm.
Proof.
  intros Hinit w Hl.
  assert (HN : named_by_number w).
  { assert (H0 : named_by_number w0).
    { unfold Dispatcher_init in Hinit. destruct (n <? 0)%Z; [discriminate|].
      injection Hinit as <-. split; cbn; intros ? ? H; by rewrite lookup_empty in H. }
    subst w. clear Hinit Hl. revert w0 H0.
    induction os as [|o os IH]; intros w0 H0; [exact H0|].
    apply (IH (after behaviour o w0)). by apply exec_names. }
  assert (HA : registry_allocated w).
  { by apply after_all_in_order, (Dispatcher_init_in_order n tr). }
  destruct HN as [Hh Hr]. destruct (Hr _ _ Hl) as [-> Hlt].
  destruct (HA _ _ Hl) as [wk Hk].
  split; [done|]. split; [done|]. exists wk. split; [done|]. by apply Hh.
Qed.

(** ** More concrete runs *)

Lemma reachable_allocated behaviour (n : Z) (tr : bool) (os : list op) :
  (0 ≤ n)%Z → registry_allocated (after_all behaviour os (Dispatcher_fields n tr)).
Proof.
  intros Hn. apply after_all_in_order, (Dispatcher_init_in_order n tr).
  unfold Dispatcher_init. destruct (n <? 0)%Z eqn:E; [apply Z.ltb_lt in E; lia | done].
Qed.

Lemma Worker_takes_the_oldest_task_witness :
  ∃ w', Worker_step quiet 0 submitted_one = Returns tt w' ∧ tasks w' = [].
Proof.
  edestruct (λ k x, Worker_takes_the_oldest_task quiet submitted_one 0 k 0 [] x)
    as (w' & E & Ht & _).
  - vm_compute. reflexivity.
  - vm_compute. reflexivity.
  - vm_compute. reflexivity.
  - vm_compute. reflexivity.
  - vm_compute. reflexivity.
  - vm_compute. reflexivity.
  - vm_compute. reflexivity.
  - vm_compute. reflexivity.
  - exists w'. split; [exact E | exact Ht].
Defined.

Lemma sync_result_is_stored_witness :
  ∃ w', Worker_step faulty 0 held_one = Returns tt w' ∧
        result_of w' 0 = Some (VInt 42) ∧ _semaphore w' = 1%Z.
Proof.
  edestruct (λ k x f, sync_result_is_stored faulty held_one 0 k 0 x f (VInt 42))
    as (w' & E & _ & Hr & _ & Hs & _).
  - vm_compute. reflexivity.
  - vm_compute. reflexivity.
  - vm_compute. reflexivity.
  - vm_compute. reflexivity.
  - vm_compute. reflexivity.
  - vm_compute. reflexivity.
  - vm_compute. reflexivity.
  - vm_compute. reflexivity.
  - exists w'. split; [exact E|]. split; [exact Hr | exact Hs].
Defined.


Lemma terminal_task_ends_its_worker_witness :
  ∃ w', Worker_step quiet 0 held_settled = Raises InvalidStateError w' ∧
        workers w' !! "worker-0" = Some 0 ∧ _remain_workers w' = 0%Z.
Proof.
  eexists. split.
  - erewrite (terminal_task_ends_its_worker quiet held_settled 0 _ 0); cycle 1.
    + vm_compute. reflexivity.
    + vm_compute. reflexivity.
    + vm_compute. reflexivity.
    + vm_compute. reflexivity.
    + vm_compute. reflexivity.
    + vm_compute. reflexivity.
    + vm_compute. reflexivity.
    + vm_compute. reflexivity.
  - vm_compute. split; reflexivity.
Defined.

Lemma worker_leaves_without_deregistering_witness :
  ∃ w', Worker_step quiet 0 unstarted_one = Returns tt w' ∧
        workers w' !! "worker-0" = Some 0 ∧ _remain_workers w' = 0%Z ∧
        live_workers w' = [].
Proof.
  eexists. split.
  - erewrite (worker_leaves_without_deregistering quiet unstarted_one 0); cycle 1.
    + vm_compute. reflexivity.
    + vm_compute. reflexivity.
    + vm_compute. reflexivity.
    + left. vm_compute. reflexivity.
    + reflexivity.
  - vm_compute. repeat split; reflexivity.
Defined.


Lemma paused_worker_waits_witness :
  (∃ w1 w2 w3, pause_worker ["worker-0"] held_one = Returns tt w1 ∧
               Worker_step faulty 0 w1 = Returns tt w2 ∧
               result_of w2 0 = Some (VInt 42) ∧
               Worker_step faulty 0 w2 = Blocks w3 ∧
               Worker_step faulty 0 w3 = Blocks w3) ∧
  (∃ w1 w2, pause_worker ["worker-0"] polling_one = Returns tt w1 ∧
            Worker_step quiet 0 w1 = Raises SystemExit w2 ∧
            workers w2 = ∅).
Proof.
  split.
  - edestruct (λ k, paused_worker_waits faulty held_one "worker-0" 0 k)
      as (w1 & E1 & _ & _ & H & _).
    + vm_compute. reflexivity.
    + vm_compute. reflexivity.
    + vm_compute. reflexivity.
    + vm_compute. reflexivity.
    + vm_compute. reflexivity.
    + edestruct (λ x f, H 0 x f (VInt 42)) as (w2 & w3 & E2 & Hr & _ & E3 & _ & _ & E4).
      * vm_compute. reflexivity.
      * vm_compute. reflexivity.
      * vm_compute. reflexivity.
      * vm_compute. reflexivity.
      * vm_compute. reflexivity.
      * vm_compute. reflexivity.
      * vm_compute. reflexivity.
      * vm_compute. reflexivity.
      * exists w1, w2, w3. auto.
  - edestruct (λ k, paused_worker_waits quiet polling_one "worker-0" 0 k)
      as (w1 & E1 & _ & _ & _ & H).
    + vm_compute. reflexivity.
    + vm_compute. reflexivity.
    + vm_compute. reflexivity.
    + vm_compute. reflexivity.
    + vm_compute. reflexivity.
    + destruct H as [_ H]; [vm_compute; reflexivity|].
      destruct H as (w2 & E2 & Hw & _); [vm_compute; reflexivity..|].
      exists w1, w2. split; [exact E1|]. split; [exact E2|].
      rewrite Hw. vm_compute. reflexivity.
Defined.

Lemma idle_one_allocated : registry_allocated idle_one.
Proof.
  assert (Heq : idle_one =
                after_all quiet [Start; CreateWorker 1] (Dispatcher_fields 1 false))
    by (vm_compute; reflexivity).
  rewrite Heq. apply reachable_allocated. lia.
Qed.

Lemma awake_worker_undoes_pause_witness :
  ∃ w', pause_worker ["worker-0"; "nobody"] idle_one = Returns tt w' ∧
        awake_worker ["worker-0"; "nobody"] w' = Returns tt idle_one.
Proof.
  destruct (awake_worker_undoes_pause ["worker-0"; "nobody"] idle_one)
    as (w' & E1 & _ & _ & _ & E2).
  - exact idle_one_allocated.
  - intros nm k wk Hin Hn Hk.
    apply elem_of_cons in Hin as [->|Hin].
    + vm_compute in Hn. injection Hn as <-. vm_compute in Hk. injection Hk as <-.
      reflexivity.
    + apply list_elem_of_singleton in Hin as ->. vm_compute in Hn. discriminate.
  - exists w'. split; [exact E1 | exact E2].
Defined.



Lemma closed_one_allocated : registry_allocated closed_one.
Proof.
  assert (Heq : closed_one =
                after_all quiet [Start; Stop; LoopTick] (Dispatcher_fields 1 false))
    by (vm_compute; reflexivity).
  rewrite Heq. apply reachable_allocated. lia.
Qed.

Lemma stop_on_a_closed_loop_witness :
  ∃ w', stop closed_one = Raises (RuntimeError "Event loop is closed") w'.
Proof.
  destruct (stop_on_a_closed_loop closed_one) as (w' & E & _).
  - exact closed_one_allocated.
  - vm_compute. reflexivity.
  - exists w'. exact E.
Defined.


Lemma start_works_once_witness :
  ∃ w', start (after_all quiet [CreateWorker 1] (Dispatcher_fields 1 false)) =
          Returns tt w' ∧
        is_running w' = true ∧
        start (after_all quiet [Stop] w') =
          Raises (RuntimeError "threads can only be started once")
            (after_all quiet [Stop] w').
Proof.
  destruct (start_works_once quiet 1 false (Dispatcher_fields 1 false) [CreateWorker 1])
    as (w' & E & Hr & Hlater).
  - reflexivity.
  - reflexivity.
  - exists w'. split; [exact E|]. split; [exact Hr|]. apply (Hlater [Stop]).
Defined.

Lemma adjust_workers_scales_witness :
  ∃ w', adjust_workers orphaned_task = Returns tt w' ∧
        Z.of_nat (size (workers w')) = (0 + 1)%Z.
Proof.
  destruct (adjust_workers_scales orphaned_task) as (w' & E & Hs & _).
  - split; [vm_compute; reflexivity|]. split; [vm_compute; discriminate|].
    intros nm k Hl. vm_compute in Hl. discriminate.
  - exists w'. split; [exact E|]. etrans; [exact Hs|]. vm_compute. reflexivity.
Defined.

Lemma cancel_task_takes_the_first_occurrence_witness :
  ∃ w', cancel_task 0 submitted_one = Returns tt w' ∧ tasks w' = [] ∧
        state_of w' 0 = Some PENDING ∧ _semaphore w' = 0%Z.
Proof.
  eexists. split.
  - apply (cancel_task_takes_the_first_occurrence submitted_one 0 [] []).
    + vm_compute. reflexivity.
    + apply not_elem_of_nil.
  - vm_compute. repeat split; reflexivity.
Defined.

Lemma cancel_of_a_terminal_task_witness :
  ∃ w', Task_cancel 0 finished_one = Returns false w' ∧
        result_of w' 0 = Some (VInt 42) ∧ workers w' !! "worker-0" = Some 0.
Proof.
  edestruct (cancel_of_a_terminal_task finished_one 0) as (w' & E & _ & Hr & _ & Hp & _).
  - vm_compute. reflexivity.
  - vm_compute. reflexivity.
  - vm_compute. reflexivity.
  - vm_compute. apply not_elem_of_nil.
  - exists w'. split; [exact E|]. split; [exact Hr|].
    assert (Hw : workers w' = workers finished_one) by (unfold pool in Hp; congruence).
    rewrite Hw. vm_compute. reflexivity.
Defined.

Lemma cancel_undoes_submit_witness :
  ∃ w1 w2, submit_task 0 None with_task = Returns 0 w1 ∧
           Task_cancel 0 w1 = Returns true w2 ∧
           tasks w2 = [] ∧ _semaphore w2 = 1%Z.
Proof.
  edestruct (cancel_undoes_submit with_task 0 None) as (w1 & w2 & E1 & E2 & Ht & Hs & _).
  - vm_compute. reflexivity.
  - vm_compute. reflexivity.
  - vm_compute. reflexivity.
  - vm_compute. reflexivity.
  - vm_compute. apply not_elem_of_nil.
  - intros _. vm_compute. reflexivity.
  - exists w1, w2. split; [exact E1|]. split; [exact E2|]. split; [exact Ht | exact Hs].
Defined.

Lemma make_task_arguments_unpack_witness :
  ∃ w' x, make_task (IsDict {[ "func" := VFunc 0; "args" := VInt 5;
                               "kwargs" := VInt 7 ]}) started_one = Returns 0 w' ∧
          unpack_positional (args x) = Ok [VInt 5] ∧
          unpack_keyword (kwargs x) = Ok [].
Proof.
  destruct (make_task_arguments_unpack
              {[ "func" := VFunc 0; "args" := VInt 5; "kwargs" := VInt 7 ]} started_one)
    as (w' & x & E & _ & _ & _ & Ha & Hk & _).
  - vm_compute. reflexivity.
  - exists w', x. split; [exact E|]. split; [exact Ha | exact Hk].
Defined.

Lemma submitted_task_is_run_witness :
  ∃ w1 w2 w3, submit_task 0 None with_task = Returns 0 w1 ∧
              Worker_step faulty 0 w1 = Returns tt w2 ∧
              Worker_step faulty 0 w2 = Returns tt w3 ∧
              result_of w3 0 = Some (VInt 42) ∧ _semaphore w3 = 1%Z.
Proof.
  edestruct (λ x f, submitted_task_is_run faulty with_task 0 None x f (VInt 42))
    as (w1 & w2 & w3 & E1 & _ & _ & E2 & _ & E3 & _ & Hr & Hs & _).
  - vm_compute. reflexivity.
  - vm_compute. reflexivity.
  - vm_compute. reflexivity.
  - intros _. vm_compute. reflexivity.
  - vm_compute. reflexivity.
  - vm_compute. reflexivity.
  - vm_compute. reflexivity.
  - vm_compute. reflexivity.
  - vm_compute. reflexivity.
  - exists w1, w2, w3. split; [exact E1|]. split; [exact E2|]. split; [exact E3|].
    split; [exact Hr | exact Hs].
Defined.

Lemma permits_are_never_exceeded_witness :
  let w := after_all quiet
             [Start; NewTask (VFunc 0) VNone VNone VNone; SubmitTask 0 None]
             (Dispatcher_fields 1 false) in
  (0 ≤ _semaphore w)%Z ∧ (_semaphore w + Z.of_nat (owed_by (task_heap w)) ≤ 1)%Z.
Proof.
  apply (permits_are_never_exceeded quiet 1 false (Dispatcher_fields 1 false)
           [Start; NewTask (VFunc 0) VNone VNone VNone; SubmitTask 0 None]).
  reflexivity.
Defined.

Lemma registry_is_keyed_by_name_witness :
  "worker-0" = worker_name 0 ∧
  ∃ wk, worker_heap (after_all quiet [Start; CreateWorker 1] (Dispatcher_fields 1 false))
          !! 0 = Some wk ∧
        name wk = "worker-0".
Proof.
  destruct (registry_is_keyed_by_name quiet 1 false (Dispatcher_fields 1 false)
              [Start; CreateWorker 1] "worker-0" 0) as (Hn & _ & Hw).
  - reflexivity.
  - vm_compute. reflexivity.
  - split; [exact Hn | exact Hw].
Defined.

Lemma terminal_tasks_are_frozen_witness :
  ∃ x', task_heap
          (after_all faulty [SetResult 0 (VInt 7); Cancel 0; SubmitTask 0 None]
             (after_all faulty
                [Start; NewTask (VFunc 0) VNone VNone VNone; SubmitTask 0 None;
                 WorkerStep 0; WorkerStep 0]
                (Dispatcher_fields 1 false))) !! 0 = Some x' ∧
        base x' = Some {| _state := FINISHED; _result := VInt 42; _exception := None;
                          _done_callbacks := [ReleasePermit] |}.
Proof.
  eapply (λ x, terminal_tasks_are_frozen faulty 1 false (Dispatcher_fields 1 false)
                 [Start; NewTask (VFunc 0) VNone VNone VNone; SubmitTask 0 None;
                  WorkerStep 0; WorkerStep 0]
                 [SetResult 0 (VInt 7); Cancel 0; SubmitTask 0 None] 0 x).
  - reflexivity.
  - vm_compute. reflexivity.
  - vm_compute. reflexivity.
  - reflexivity.
Defined.
